(** * DeltaManager: ordering, gap filling and acknowledgement of deltas

    A shallow embedding of
    [packages/loader/container-loader/src/deltaManager.ts].

    The class is a single-threaded event-driven object.  Its state is the
    record [DeltaManager]; every method is a function on that record; every
    asynchronous continuation of the source (a promise callback, a timer
    callback, a listener on the connection) is a function that an [Event]
    of the environment runs.  What leaves the manager (telemetry, emitted
    events, calls on the handler, on the connection and on delta storage) is
    appended to the [effects] trace, oldest first.

    JavaScript numbers are embedded as [Z]. *)

From Stdlib Require Import ZArith List String Bool Lia.
Import ListNotations.
Open Scope string_scope.
Open Scope list_scope.
Open Scope Z_scope.

Set Implicit Arguments.

(** ** Constants *)

Definition MaxReconnectDelay : Z := 8000.
Definition InitialReconnectDelay : Z := 1000.
Definition MissingFetchDelay : Z := 100.
Definition MaxFetchDelay : Z := 10000.
Definition MaxBatchDeltas : Z := 2000.
Definition DefaultChunkSize : Z := 16 * 1024.
Definition ImmediateNoOpResponse : string := EmptyString.
Definition DefaultMaxContentSize : Z := 32 * 1024.
Definition DefaultContentBufferSize : nat := 10.

(** [Browser] is imported by the source from the container definitions; only
    equality with it matters. *)
Definition Browser : string := "browser".

(** ** Messages *)

(** The members of [MessageType] that the source names, and the others. *)
Inductive MessageType : Type :=
| Operation
| Propose
| NoOp
| ClientJoin
| ClientLeave
| OtherType (name : string).

Definition isOperation (t : MessageType) : bool :=
  match t with Operation => true | _ => false end.
Definition isPropose (t : MessageType) : bool :=
  match t with Propose => true | _ => false end.
Definition isNoOp (t : MessageType) : bool :=
  match t with NoOp => true | _ => false end.
Definition isClientLeave (t : MessageType) : bool :=
  match t with ClientLeave => true | _ => false end.

(** The [contents] field is [any] in the source: absent, [null], a string, or
    a structured value.  A structured value is kept as the text it was parsed
    from; the manager never looks inside one. *)
Inductive Contents : Type :=
| CUndefined
| CNull
| CString (text : string)
| CValue (parsedFrom : string).

(** [!!contents] *)
Definition truthy (c : Contents) : bool :=
  match c with
  | CUndefined | CNull => false
  | CString t => negb (String.eqb t EmptyString)
  | CValue _ => true
  end.

Definition isUndefined (c : Contents) : bool :=
  match c with CUndefined => true | _ => false end.

(** A parameter of type [string | null]. *)
Definition ofNullable (c : option string) : Contents :=
  match c with Some t => CString t | None => CNull end.

Record ITrace : Type := mkTrace {
  action : string;
  service : string;
  timestamp : Z
}.

Record ISequencedDocumentMessage : Type := mkSequenced {
  sm_sequenceNumber : Z;
  sm_minimumSequenceNumber : Z;
  sm_clientId : string;
  sm_clientSequenceNumber : Z;
  sm_referenceSequenceNumber : Z;
  sm_type : MessageType;
  sm_contents : Contents;
  sm_traces : list ITrace
}.

Definition sm_with_contents (c : Contents) (m : ISequencedDocumentMessage) :=
  mkSequenced (sm_sequenceNumber m) (sm_minimumSequenceNumber m) (sm_clientId m)
    (sm_clientSequenceNumber m) (sm_referenceSequenceNumber m) (sm_type m) c
    (sm_traces m).

Definition sm_with_traces (t : list ITrace) (m : ISequencedDocumentMessage) :=
  mkSequenced (sm_sequenceNumber m) (sm_minimumSequenceNumber m) (sm_clientId m)
    (sm_clientSequenceNumber m) (sm_referenceSequenceNumber m) (sm_type m)
    (sm_contents m) t.

(** [IDocumentMessage]; [dm_data] is the extra field of
    [IDocumentSystemMessage]: [None] when the object has no such field. *)
Record IDocumentMessage : Type := mkDocument {
  dm_clientSequenceNumber : Z;
  dm_contents : Contents;
  dm_referenceSequenceNumber : Z;
  dm_traces : list ITrace;
  dm_type : MessageType;
  dm_data : option Contents
}.

Definition dm_with_contents (c : Contents) (m : IDocumentMessage) :=
  mkDocument (dm_clientSequenceNumber m) c (dm_referenceSequenceNumber m)
    (dm_traces m) (dm_type m) (dm_data m).

Definition dm_with_data (d : Contents) (m : IDocumentMessage) :=
  mkDocument (dm_clientSequenceNumber m) (dm_contents m)
    (dm_referenceSequenceNumber m) (dm_traces m) (dm_type m) (Some d).

Record IContentMessage : Type := mkContent {
  cm_clientId : string;
  cm_clientSequenceNumber : Z;
  cm_contents : Contents
}.

Record ISignalMessage : Type := mkSignal {
  sig_clientId : string;
  sig_content : Contents
}.

Record IConnectionDetails : Type := mkDetails {
  cd_clientId : string;
  cd_maxMessageSize : Z;
  cd_initialMessages : list ISequencedDocumentMessage;
  cd_initialContents : list IContentMessage;
  cd_initialSignals : list ISignalMessage
}.

(** ** Errors *)

Inductive Error : Type :=
| TypeError
| SyntaxError
| AssertionError (message : string)
| Rejection.

Inductive Result (A : Type) : Type :=
| Ok (a : A)
| Throw (e : Error).
Arguments Throw {A} e.

(** ** The effects trace *)

Inductive ManagerEvent : Type :=
| EvtConnect (details : IConnectionDetails)
| EvtDisconnect (wasNack : bool)
| EvtError (e : Error)
| EvtPong (latency : Z)
| EvtProcessTime (ms : Z).

Inductive Effect : Type :=
(* logger *)
| LogDuplicateMessage (lastQueued sequenceNumber : Z)
| LogAlreadyFetching (reason : string) (from : Z)
| LogGetDeltasClosedConnection
| LogGetDeltasStart (reason : string) (from : Z) (to : option Z)
| LogCatchUp (reason : string) (messageCount pendingCount : nat)
| LogConnectionFailure (delay : Z)
(* delta storage *)
| ConnectToDeltaStorage
| StorageGet (from to : Z)
(* timers *)
| SetTimeout (delay : Z)
| ClearTimeout
(* the manager's own listeners *)
| Emit (e : ManagerEvent)
(* the handler strategy *)
| HandlerPrepare (m : ISequencedDocumentMessage)
| HandlerProcess (m : ISequencedDocumentMessage)
| HandlerPostProcess (m : ISequencedDocumentMessage)
| HandlerProcessSignal (m : ISignalMessage)
(* the connection *)
| Connect (reason : string)
| ConnSubmit (m : IDocumentMessage)
| ConnSubmitAsync (m : IDocumentMessage)
| ConnSubmitSignal (content : Contents)
| ConnClose
(* the outbound queue *)
| OutboundPush (m : IDocumentMessage).

(** ** DeltaQueue *)

(** Modelled from the spec: the class [DeltaQueue] ([./deltaQueue]) is not
    part of the sources at hand.  Section 4.1: a FIFO queue with a user pause
    flag and a system pause flag, draining only when both are clear;
    [resume] and [systemResume] clear only their own flag; [clear] discards
    the queued items and nothing else; after a worker error the queue stops
    draining.  Section 2: queues are paused by default. *)
Record DeltaQueue (T : Type) : Type := mkQueue {
  q_paused : bool;
  q_systemPaused : bool;
  q_halted : bool;
  q_items : list T
}.

Module Queue.
Section Ops.
Variable T : Type.
Definition create : DeltaQueue T := mkQueue false true false [].
Definition paused (q : DeltaQueue T) : bool := q_paused q || q_systemPaused q.
Definition push (x : T) (q : DeltaQueue T) : DeltaQueue T :=
  mkQueue (q_paused q) (q_systemPaused q) (q_halted q) (q_items q ++ [x]).
Definition clear (q : DeltaQueue T) : DeltaQueue T :=
  mkQueue (q_paused q) (q_systemPaused q) (q_halted q) [].
Definition pause (q : DeltaQueue T) : DeltaQueue T :=
  mkQueue true (q_systemPaused q) (q_halted q) (q_items q).
Definition systemPause (q : DeltaQueue T) : DeltaQueue T :=
  mkQueue (q_paused q) true (q_halted q) (q_items q).
Definition resume (q : DeltaQueue T) : DeltaQueue T :=
  mkQueue false (q_systemPaused q) (q_halted q) (q_items q).
Definition systemResume (q : DeltaQueue T) : DeltaQueue T :=
  mkQueue (q_paused q) false (q_halted q) (q_items q).
Definition halt (q : DeltaQueue T) : DeltaQueue T :=
  mkQueue (q_paused q) (q_systemPaused q) true (q_items q).
Definition shift (q : DeltaQueue T) : DeltaQueue T :=
  mkQueue (q_paused q) (q_systemPaused q) (q_halted q) (tl (q_items q)).
(** The queue hands its first item to the worker. *)
Definition ready (q : DeltaQueue T) : option T :=
  if paused q || q_halted q then None else hd_error (q_items q).
(** The "resume" event fires when a resume call ends the pause. *)
Definition resumes (before after : DeltaQueue T) : bool :=
  paused before && negb (paused after).
End Ops.
End Queue.

(** ** ContentCache *)

(** Modelled from the spec: the class [ContentCache] ([./contentCache]) is
    not part of the sources at hand.  Section 4.2: a bounded queue of content
    messages with per-client [peek] and removing [get]; an insert beyond the
    capacity evicts the oldest entry; every [set] fires "content" with the
    client id (the listeners live in the manager state below). *)
Record ContentCache : Type := mkCache {
  cc_capacity : nat;
  cc_entries : list IContentMessage
}.

Module Cache.
Definition create (size : nat) : ContentCache := mkCache size [].

Definition set (c : IContentMessage) (k : ContentCache) : ContentCache :=
  let all := cc_entries k ++ [c] in
  mkCache (cc_capacity k)
    (if Nat.ltb (cc_capacity k) (List.length all) then tl all else all).

Definition peek (clientId : string) (k : ContentCache) : option IContentMessage :=
  find (fun c => String.eqb (cm_clientId c) clientId) (cc_entries k).

Fixpoint remove_first (clientId : string) (l : list IContentMessage) :=
  match l with
  | [] => []
  | c :: r =>
      if String.eqb (cm_clientId c) clientId then r
      else c :: remove_first clientId r
  end.

Definition get (clientId : string) (k : ContentCache)
  : option IContentMessage * ContentCache :=
  (peek clientId k,
   mkCache (cc_capacity k) (remove_first clientId (cc_entries k))).
End Cache.

(** ** Suspended computations *)

(** [connecting]: never assigned, a pending [Deferred], or [null] after the
    first connection resolved it. *)
Inductive Connecting : Type := NotConnecting | ConnectingPending | ConnectingDone.

(** [deltaStorageP]: never assigned, or the promise of a [Deferred] that the
    source only ever resolves (a failure to connect to storage is emitted as
    "error" and leaves it pending). *)
Inductive StorageP : Type := StorageUnset | StoragePending | StorageResolved.

(** A call of [getDeltas] that has not settled yet.  The test of [closed]
    at the top of [getDeltas] runs when the call is made. *)
Record GetDeltasCall : Type := mkCall {
  gd_reason : string;
  gd_closed : bool;
  gd_from : Z;
  gd_to : option Z
}.

(** What the worker of the inbound queue is waiting for. *)
Inductive InboundWork : Type :=
| Idle
| AwaitContent (op : ISequencedDocumentMessage) (call : GetDeltasCall)
    (viaWaitForContent : bool)
| AwaitPrepare (message : ISequencedDocumentMessage) (startTime : Z)
| AwaitPostProcess (message : ISequencedDocumentMessage)
| Stuck.

(** The arguments that a deferred [enqueInitalOps] closes over. *)
Definition InitialOps : Type :=
  (list ISequencedDocumentMessage * list IContentMessage)%type.

(** ** The manager *)

Record DeltaManager : Type := mkDeltaManager {
  clientType : string;
  pending : list ISequencedDocumentMessage;
  fetching : bool;
  updateHasBeenRequested : bool;
  updateSequenceNumberTimer : option MessageType;
  readonly : bool;
  minSequenceNumber : Z;
  lastQueuedSequenceNumber : option Z;
  largestSequenceNumber : option Z;
  baseSequenceNumber : Z;
  _inbound : DeltaQueue ISequencedDocumentMessage;
  _inboundSignal : DeltaQueue ISignalMessage;
  _outbound : DeltaQueue IDocumentMessage;
  connecting : Connecting;
  connection : option IConnectionDetails;
  clientSequenceNumber : Z;
  closed : bool;
  handler : bool;
  deltaStorageP : StorageP;
  contentCache : ContentCache;
  listeners : bool;
  clock : Z;
  effects : list Effect;
  fetchP : option GetDeltasCall;
  inboundWork : InboundWork;
  outboundWork : option IDocumentMessage;
  lateContentHandlers : list (string * Z);
  inboundOnResume : list InitialOps;
  signalOnResume : list (list ISignalMessage);
  connects : list Z;
  reconnectTimers : list (Z * Z)
}.

Definition set_clientType (v : string) (s : DeltaManager) : DeltaManager :=
  mkDeltaManager v (pending s) (fetching s) (updateHasBeenRequested s)
    (updateSequenceNumberTimer s) (readonly s) (minSequenceNumber s)
    (lastQueuedSequenceNumber s) (largestSequenceNumber s) (baseSequenceNumber
    s) (_inbound s) (_inboundSignal s) (_outbound s) (connecting s) (connection
    s) (clientSequenceNumber s) (closed s) (handler s) (deltaStorageP s)
    (contentCache s) (listeners s) (clock s) (effects s) (fetchP s) (inboundWork
    s) (outboundWork s) (lateContentHandlers s) (inboundOnResume s)
    (signalOnResume s) (connects s) (reconnectTimers s).
Definition set_pending (v : list ISequencedDocumentMessage) (s : DeltaManager) : DeltaManager :=
  mkDeltaManager (clientType s) v (fetching s) (updateHasBeenRequested s)
    (updateSequenceNumberTimer s) (readonly s) (minSequenceNumber s)
    (lastQueuedSequenceNumber s) (largestSequenceNumber s) (baseSequenceNumber
    s) (_inbound s) (_inboundSignal s) (_outbound s) (connecting s) (connection
    s) (clientSequenceNumber s) (closed s) (handler s) (deltaStorageP s)
    (contentCache s) (listeners s) (clock s) (effects s) (fetchP s) (inboundWork
    s) (outboundWork s) (lateContentHandlers s) (inboundOnResume s)
    (signalOnResume s) (connects s) (reconnectTimers s).
Definition set_fetching (v : bool) (s : DeltaManager) : DeltaManager :=
  mkDeltaManager (clientType s) (pending s) v (updateHasBeenRequested s)
    (updateSequenceNumberTimer s) (readonly s) (minSequenceNumber s)
    (lastQueuedSequenceNumber s) (largestSequenceNumber s) (baseSequenceNumber
    s) (_inbound s) (_inboundSignal s) (_outbound s) (connecting s) (connection
    s) (clientSequenceNumber s) (closed s) (handler s) (deltaStorageP s)
    (contentCache s) (listeners s) (clock s) (effects s) (fetchP s) (inboundWork
    s) (outboundWork s) (lateContentHandlers s) (inboundOnResume s)
    (signalOnResume s) (connects s) (reconnectTimers s).
Definition set_updateHasBeenRequested (v : bool) (s : DeltaManager) : DeltaManager :=
  mkDeltaManager (clientType s) (pending s) (fetching s) v
    (updateSequenceNumberTimer s) (readonly s) (minSequenceNumber s)
    (lastQueuedSequenceNumber s) (largestSequenceNumber s) (baseSequenceNumber
    s) (_inbound s) (_inboundSignal s) (_outbound s) (connecting s) (connection
    s) (clientSequenceNumber s) (closed s) (handler s) (deltaStorageP s)
    (contentCache s) (listeners s) (clock s) (effects s) (fetchP s) (inboundWork
    s) (outboundWork s) (lateContentHandlers s) (inboundOnResume s)
    (signalOnResume s) (connects s) (reconnectTimers s).
Definition set_updateSequenceNumberTimer (v : option MessageType) (s : DeltaManager) : DeltaManager :=
  mkDeltaManager (clientType s) (pending s) (fetching s)
    (updateHasBeenRequested s) v (readonly s) (minSequenceNumber s)
    (lastQueuedSequenceNumber s) (largestSequenceNumber s) (baseSequenceNumber
    s) (_inbound s) (_inboundSignal s) (_outbound s) (connecting s) (connection
    s) (clientSequenceNumber s) (closed s) (handler s) (deltaStorageP s)
    (contentCache s) (listeners s) (clock s) (effects s) (fetchP s) (inboundWork
    s) (outboundWork s) (lateContentHandlers s) (inboundOnResume s)
    (signalOnResume s) (connects s) (reconnectTimers s).
Definition set_readonly (v : bool) (s : DeltaManager) : DeltaManager :=
  mkDeltaManager (clientType s) (pending s) (fetching s)
    (updateHasBeenRequested s) (updateSequenceNumberTimer s) v
    (minSequenceNumber s) (lastQueuedSequenceNumber s) (largestSequenceNumber s)
    (baseSequenceNumber s) (_inbound s) (_inboundSignal s) (_outbound s)
    (connecting s) (connection s) (clientSequenceNumber s) (closed s) (handler
    s) (deltaStorageP s) (contentCache s) (listeners s) (clock s) (effects s)
    (fetchP s) (inboundWork s) (outboundWork s) (lateContentHandlers s)
    (inboundOnResume s) (signalOnResume s) (connects s) (reconnectTimers s).
Definition set_minSequenceNumber (v : Z) (s : DeltaManager) : DeltaManager :=
  mkDeltaManager (clientType s) (pending s) (fetching s)
    (updateHasBeenRequested s) (updateSequenceNumberTimer s) (readonly s) v
    (lastQueuedSequenceNumber s) (largestSequenceNumber s) (baseSequenceNumber
    s) (_inbound s) (_inboundSignal s) (_outbound s) (connecting s) (connection
    s) (clientSequenceNumber s) (closed s) (handler s) (deltaStorageP s)
    (contentCache s) (listeners s) (clock s) (effects s) (fetchP s) (inboundWork
    s) (outboundWork s) (lateContentHandlers s) (inboundOnResume s)
    (signalOnResume s) (connects s) (reconnectTimers s).
Definition set_lastQueuedSequenceNumber (v : option Z) (s : DeltaManager) : DeltaManager :=
  mkDeltaManager (clientType s) (pending s) (fetching s)
    (updateHasBeenRequested s) (updateSequenceNumberTimer s) (readonly s)
    (minSequenceNumber s) v (largestSequenceNumber s) (baseSequenceNumber s)
    (_inbound s) (_inboundSignal s) (_outbound s) (connecting s) (connection s)
    (clientSequenceNumber s) (closed s) (handler s) (deltaStorageP s)
    (contentCache s) (listeners s) (clock s) (effects s) (fetchP s) (inboundWork
    s) (outboundWork s) (lateContentHandlers s) (inboundOnResume s)
    (signalOnResume s) (connects s) (reconnectTimers s).
Definition set_largestSequenceNumber (v : option Z) (s : DeltaManager) : DeltaManager :=
  mkDeltaManager (clientType s) (pending s) (fetching s)
    (updateHasBeenRequested s) (updateSequenceNumberTimer s) (readonly s)
    (minSequenceNumber s) (lastQueuedSequenceNumber s) v (baseSequenceNumber s)
    (_inbound s) (_inboundSignal s) (_outbound s) (connecting s) (connection s)
    (clientSequenceNumber s) (closed s) (handler s) (deltaStorageP s)
    (contentCache s) (listeners s) (clock s) (effects s) (fetchP s) (inboundWork
    s) (outboundWork s) (lateContentHandlers s) (inboundOnResume s)
    (signalOnResume s) (connects s) (reconnectTimers s).
Definition set_baseSequenceNumber (v : Z) (s : DeltaManager) : DeltaManager :=
  mkDeltaManager (clientType s) (pending s) (fetching s)
    (updateHasBeenRequested s) (updateSequenceNumberTimer s) (readonly s)
    (minSequenceNumber s) (lastQueuedSequenceNumber s) (largestSequenceNumber s)
    v (_inbound s) (_inboundSignal s) (_outbound s) (connecting s) (connection
    s) (clientSequenceNumber s) (closed s) (handler s) (deltaStorageP s)
    (contentCache s) (listeners s) (clock s) (effects s) (fetchP s) (inboundWork
    s) (outboundWork s) (lateContentHandlers s) (inboundOnResume s)
    (signalOnResume s) (connects s) (reconnectTimers s).
Definition set__inbound (v : DeltaQueue ISequencedDocumentMessage) (s : DeltaManager) : DeltaManager :=
  mkDeltaManager (clientType s) (pending s) (fetching s)
    (updateHasBeenRequested s) (updateSequenceNumberTimer s) (readonly s)
    (minSequenceNumber s) (lastQueuedSequenceNumber s) (largestSequenceNumber s)
    (baseSequenceNumber s) v (_inboundSignal s) (_outbound s) (connecting s)
    (connection s) (clientSequenceNumber s) (closed s) (handler s)
    (deltaStorageP s) (contentCache s) (listeners s) (clock s) (effects s)
    (fetchP s) (inboundWork s) (outboundWork s) (lateContentHandlers s)
    (inboundOnResume s) (signalOnResume s) (connects s) (reconnectTimers s).
Definition set__inboundSignal (v : DeltaQueue ISignalMessage) (s : DeltaManager) : DeltaManager :=
  mkDeltaManager (clientType s) (pending s) (fetching s)
    (updateHasBeenRequested s) (updateSequenceNumberTimer s) (readonly s)
    (minSequenceNumber s) (lastQueuedSequenceNumber s) (largestSequenceNumber s)
    (baseSequenceNumber s) (_inbound s) v (_outbound s) (connecting s)
    (connection s) (clientSequenceNumber s) (closed s) (handler s)
    (deltaStorageP s) (contentCache s) (listeners s) (clock s) (effects s)
    (fetchP s) (inboundWork s) (outboundWork s) (lateContentHandlers s)
    (inboundOnResume s) (signalOnResume s) (connects s) (reconnectTimers s).
Definition set__outbound (v : DeltaQueue IDocumentMessage) (s : DeltaManager) : DeltaManager :=
  mkDeltaManager (clientType s) (pending s) (fetching s)
    (updateHasBeenRequested s) (updateSequenceNumberTimer s) (readonly s)
    (minSequenceNumber s) (lastQueuedSequenceNumber s) (largestSequenceNumber s)
    (baseSequenceNumber s) (_inbound s) (_inboundSignal s) v (connecting s)
    (connection s) (clientSequenceNumber s) (closed s) (handler s)
    (deltaStorageP s) (contentCache s) (listeners s) (clock s) (effects s)
    (fetchP s) (inboundWork s) (outboundWork s) (lateContentHandlers s)
    (inboundOnResume s) (signalOnResume s) (connects s) (reconnectTimers s).
Definition set_connecting (v : Connecting) (s : DeltaManager) : DeltaManager :=
  mkDeltaManager (clientType s) (pending s) (fetching s)
    (updateHasBeenRequested s) (updateSequenceNumberTimer s) (readonly s)
    (minSequenceNumber s) (lastQueuedSequenceNumber s) (largestSequenceNumber s)
    (baseSequenceNumber s) (_inbound s) (_inboundSignal s) (_outbound s) v
    (connection s) (clientSequenceNumber s) (closed s) (handler s)
    (deltaStorageP s) (contentCache s) (listeners s) (clock s) (effects s)
    (fetchP s) (inboundWork s) (outboundWork s) (lateContentHandlers s)
    (inboundOnResume s) (signalOnResume s) (connects s) (reconnectTimers s).
Definition set_connection (v : option IConnectionDetails) (s : DeltaManager) : DeltaManager :=
  mkDeltaManager (clientType s) (pending s) (fetching s)
    (updateHasBeenRequested s) (updateSequenceNumberTimer s) (readonly s)
    (minSequenceNumber s) (lastQueuedSequenceNumber s) (largestSequenceNumber s)
    (baseSequenceNumber s) (_inbound s) (_inboundSignal s) (_outbound s)
    (connecting s) v (clientSequenceNumber s) (closed s) (handler s)
    (deltaStorageP s) (contentCache s) (listeners s) (clock s) (effects s)
    (fetchP s) (inboundWork s) (outboundWork s) (lateContentHandlers s)
    (inboundOnResume s) (signalOnResume s) (connects s) (reconnectTimers s).
Definition set_clientSequenceNumber (v : Z) (s : DeltaManager) : DeltaManager :=
  mkDeltaManager (clientType s) (pending s) (fetching s)
    (updateHasBeenRequested s) (updateSequenceNumberTimer s) (readonly s)
    (minSequenceNumber s) (lastQueuedSequenceNumber s) (largestSequenceNumber s)
    (baseSequenceNumber s) (_inbound s) (_inboundSignal s) (_outbound s)
    (connecting s) (connection s) v (closed s) (handler s) (deltaStorageP s)
    (contentCache s) (listeners s) (clock s) (effects s) (fetchP s) (inboundWork
    s) (outboundWork s) (lateContentHandlers s) (inboundOnResume s)
    (signalOnResume s) (connects s) (reconnectTimers s).
Definition set_closed (v : bool) (s : DeltaManager) : DeltaManager :=
  mkDeltaManager (clientType s) (pending s) (fetching s)
    (updateHasBeenRequested s) (updateSequenceNumberTimer s) (readonly s)
    (minSequenceNumber s) (lastQueuedSequenceNumber s) (largestSequenceNumber s)
    (baseSequenceNumber s) (_inbound s) (_inboundSignal s) (_outbound s)
    (connecting s) (connection s) (clientSequenceNumber s) v (handler s)
    (deltaStorageP s) (contentCache s) (listeners s) (clock s) (effects s)
    (fetchP s) (inboundWork s) (outboundWork s) (lateContentHandlers s)
    (inboundOnResume s) (signalOnResume s) (connects s) (reconnectTimers s).
Definition set_handler (v : bool) (s : DeltaManager) : DeltaManager :=
  mkDeltaManager (clientType s) (pending s) (fetching s)
    (updateHasBeenRequested s) (updateSequenceNumberTimer s) (readonly s)
    (minSequenceNumber s) (lastQueuedSequenceNumber s) (largestSequenceNumber s)
    (baseSequenceNumber s) (_inbound s) (_inboundSignal s) (_outbound s)
    (connecting s) (connection s) (clientSequenceNumber s) (closed s) v
    (deltaStorageP s) (contentCache s) (listeners s) (clock s) (effects s)
    (fetchP s) (inboundWork s) (outboundWork s) (lateContentHandlers s)
    (inboundOnResume s) (signalOnResume s) (connects s) (reconnectTimers s).
Definition set_deltaStorageP (v : StorageP) (s : DeltaManager) : DeltaManager :=
  mkDeltaManager (clientType s) (pending s) (fetching s)
    (updateHasBeenRequested s) (updateSequenceNumberTimer s) (readonly s)
    (minSequenceNumber s) (lastQueuedSequenceNumber s) (largestSequenceNumber s)
    (baseSequenceNumber s) (_inbound s) (_inboundSignal s) (_outbound s)
    (connecting s) (connection s) (clientSequenceNumber s) (closed s) (handler
    s) v (contentCache s) (listeners s) (clock s) (effects s) (fetchP s)
    (inboundWork s) (outboundWork s) (lateContentHandlers s) (inboundOnResume s)
    (signalOnResume s) (connects s) (reconnectTimers s).
Definition set_contentCache (v : ContentCache) (s : DeltaManager) : DeltaManager :=
  mkDeltaManager (clientType s) (pending s) (fetching s)
    (updateHasBeenRequested s) (updateSequenceNumberTimer s) (readonly s)
    (minSequenceNumber s) (lastQueuedSequenceNumber s) (largestSequenceNumber s)
    (baseSequenceNumber s) (_inbound s) (_inboundSignal s) (_outbound s)
    (connecting s) (connection s) (clientSequenceNumber s) (closed s) (handler
    s) (deltaStorageP s) v (listeners s) (clock s) (effects s) (fetchP s)
    (inboundWork s) (outboundWork s) (lateContentHandlers s) (inboundOnResume s)
    (signalOnResume s) (connects s) (reconnectTimers s).
Definition set_listeners (v : bool) (s : DeltaManager) : DeltaManager :=
  mkDeltaManager (clientType s) (pending s) (fetching s)
    (updateHasBeenRequested s) (updateSequenceNumberTimer s) (readonly s)
    (minSequenceNumber s) (lastQueuedSequenceNumber s) (largestSequenceNumber s)
    (baseSequenceNumber s) (_inbound s) (_inboundSignal s) (_outbound s)
    (connecting s) (connection s) (clientSequenceNumber s) (closed s) (handler
    s) (deltaStorageP s) (contentCache s) v (clock s) (effects s) (fetchP s)
    (inboundWork s) (outboundWork s) (lateContentHandlers s) (inboundOnResume s)
    (signalOnResume s) (connects s) (reconnectTimers s).
Definition set_clock (v : Z) (s : DeltaManager) : DeltaManager :=
  mkDeltaManager (clientType s) (pending s) (fetching s)
    (updateHasBeenRequested s) (updateSequenceNumberTimer s) (readonly s)
    (minSequenceNumber s) (lastQueuedSequenceNumber s) (largestSequenceNumber s)
    (baseSequenceNumber s) (_inbound s) (_inboundSignal s) (_outbound s)
    (connecting s) (connection s) (clientSequenceNumber s) (closed s) (handler
    s) (deltaStorageP s) (contentCache s) (listeners s) v (effects s) (fetchP s)
    (inboundWork s) (outboundWork s) (lateContentHandlers s) (inboundOnResume s)
    (signalOnResume s) (connects s) (reconnectTimers s).
Definition set_effects (v : list Effect) (s : DeltaManager) : DeltaManager :=
  mkDeltaManager (clientType s) (pending s) (fetching s)
    (updateHasBeenRequested s) (updateSequenceNumberTimer s) (readonly s)
    (minSequenceNumber s) (lastQueuedSequenceNumber s) (largestSequenceNumber s)
    (baseSequenceNumber s) (_inbound s) (_inboundSignal s) (_outbound s)
    (connecting s) (connection s) (clientSequenceNumber s) (closed s) (handler
    s) (deltaStorageP s) (contentCache s) (listeners s) (clock s) v (fetchP s)
    (inboundWork s) (outboundWork s) (lateContentHandlers s) (inboundOnResume s)
    (signalOnResume s) (connects s) (reconnectTimers s).
Definition set_fetchP (v : option GetDeltasCall) (s : DeltaManager) : DeltaManager :=
  mkDeltaManager (clientType s) (pending s) (fetching s)
    (updateHasBeenRequested s) (updateSequenceNumberTimer s) (readonly s)
    (minSequenceNumber s) (lastQueuedSequenceNumber s) (largestSequenceNumber s)
    (baseSequenceNumber s) (_inbound s) (_inboundSignal s) (_outbound s)
    (connecting s) (connection s) (clientSequenceNumber s) (closed s) (handler
    s) (deltaStorageP s) (contentCache s) (listeners s) (clock s) (effects s) v
    (inboundWork s) (outboundWork s) (lateContentHandlers s) (inboundOnResume s)
    (signalOnResume s) (connects s) (reconnectTimers s).
Definition set_inboundWork (v : InboundWork) (s : DeltaManager) : DeltaManager :=
  mkDeltaManager (clientType s) (pending s) (fetching s)
    (updateHasBeenRequested s) (updateSequenceNumberTimer s) (readonly s)
    (minSequenceNumber s) (lastQueuedSequenceNumber s) (largestSequenceNumber s)
    (baseSequenceNumber s) (_inbound s) (_inboundSignal s) (_outbound s)
    (connecting s) (connection s) (clientSequenceNumber s) (closed s) (handler
    s) (deltaStorageP s) (contentCache s) (listeners s) (clock s) (effects s)
    (fetchP s) v (outboundWork s) (lateContentHandlers s) (inboundOnResume s)
    (signalOnResume s) (connects s) (reconnectTimers s).
Definition set_outboundWork (v : option IDocumentMessage) (s : DeltaManager) : DeltaManager :=
  mkDeltaManager (clientType s) (pending s) (fetching s)
    (updateHasBeenRequested s) (updateSequenceNumberTimer s) (readonly s)
    (minSequenceNumber s) (lastQueuedSequenceNumber s) (largestSequenceNumber s)
    (baseSequenceNumber s) (_inbound s) (_inboundSignal s) (_outbound s)
    (connecting s) (connection s) (clientSequenceNumber s) (closed s) (handler
    s) (deltaStorageP s) (contentCache s) (listeners s) (clock s) (effects s)
    (fetchP s) (inboundWork s) v (lateContentHandlers s) (inboundOnResume s)
    (signalOnResume s) (connects s) (reconnectTimers s).
Definition set_lateContentHandlers (v : list (string * Z)) (s : DeltaManager) : DeltaManager :=
  mkDeltaManager (clientType s) (pending s) (fetching s)
    (updateHasBeenRequested s) (updateSequenceNumberTimer s) (readonly s)
    (minSequenceNumber s) (lastQueuedSequenceNumber s) (largestSequenceNumber s)
    (baseSequenceNumber s) (_inbound s) (_inboundSignal s) (_outbound s)
    (connecting s) (connection s) (clientSequenceNumber s) (closed s) (handler
    s) (deltaStorageP s) (contentCache s) (listeners s) (clock s) (effects s)
    (fetchP s) (inboundWork s) (outboundWork s) v (inboundOnResume s)
    (signalOnResume s) (connects s) (reconnectTimers s).
Definition set_inboundOnResume (v : list InitialOps) (s : DeltaManager) : DeltaManager :=
  mkDeltaManager (clientType s) (pending s) (fetching s)
    (updateHasBeenRequested s) (updateSequenceNumberTimer s) (readonly s)
    (minSequenceNumber s) (lastQueuedSequenceNumber s) (largestSequenceNumber s)
    (baseSequenceNumber s) (_inbound s) (_inboundSignal s) (_outbound s)
    (connecting s) (connection s) (clientSequenceNumber s) (closed s) (handler
    s) (deltaStorageP s) (contentCache s) (listeners s) (clock s) (effects s)
    (fetchP s) (inboundWork s) (outboundWork s) (lateContentHandlers s) v
    (signalOnResume s) (connects s) (reconnectTimers s).
Definition set_signalOnResume (v : list (list ISignalMessage)) (s : DeltaManager) : DeltaManager :=
  mkDeltaManager (clientType s) (pending s) (fetching s)
    (updateHasBeenRequested s) (updateSequenceNumberTimer s) (readonly s)
    (minSequenceNumber s) (lastQueuedSequenceNumber s) (largestSequenceNumber s)
    (baseSequenceNumber s) (_inbound s) (_inboundSignal s) (_outbound s)
    (connecting s) (connection s) (clientSequenceNumber s) (closed s) (handler
    s) (deltaStorageP s) (contentCache s) (listeners s) (clock s) (effects s)
    (fetchP s) (inboundWork s) (outboundWork s) (lateContentHandlers s)
    (inboundOnResume s) v (connects s) (reconnectTimers s).
Definition set_connects (v : list Z) (s : DeltaManager) : DeltaManager :=
  mkDeltaManager (clientType s) (pending s) (fetching s)
    (updateHasBeenRequested s) (updateSequenceNumberTimer s) (readonly s)
    (minSequenceNumber s) (lastQueuedSequenceNumber s) (largestSequenceNumber s)
    (baseSequenceNumber s) (_inbound s) (_inboundSignal s) (_outbound s)
    (connecting s) (connection s) (clientSequenceNumber s) (closed s) (handler
    s) (deltaStorageP s) (contentCache s) (listeners s) (clock s) (effects s)
    (fetchP s) (inboundWork s) (outboundWork s) (lateContentHandlers s)
    (inboundOnResume s) (signalOnResume s) v (reconnectTimers s).
Definition set_reconnectTimers (v : list (Z * Z)) (s : DeltaManager) : DeltaManager :=
  mkDeltaManager (clientType s) (pending s) (fetching s)
    (updateHasBeenRequested s) (updateSequenceNumberTimer s) (readonly s)
    (minSequenceNumber s) (lastQueuedSequenceNumber s) (largestSequenceNumber s)
    (baseSequenceNumber s) (_inbound s) (_inboundSignal s) (_outbound s)
    (connecting s) (connection s) (clientSequenceNumber s) (closed s) (handler
    s) (deltaStorageP s) (contentCache s) (listeners s) (clock s) (effects s)
    (fetchP s) (inboundWork s) (outboundWork s) (lateContentHandlers s)
    (inboundOnResume s) (signalOnResume s) (connects s) v.

(** ** Stand-ins for the imported functions *)

(** Modelled from the spec: [isSystemType] ([@prague/utils]) is not part of
    the sources at hand.  Section 3 names the message types and counts the
    client join and leave messages among the system types.  The manager
    below takes the predicate as a parameter; this instance only serves to
    run it. *)
Definition isSystemType_spec (t : MessageType) : bool :=
  match t with
  | ClientJoin | ClientLeave => true
  | _ => false
  end.

(** A [JSON.parse] that accepts every text, to run the manager on examples. *)
Definition parse_any (text : string) : option Contents := Some (CValue text).

(** ** Storage replies and the retry loop of [getDeltas] *)

(** One answer of [deltaStorage.get]: a batch, or a rejected request. *)
Inductive StorageReply : Type :=
| Deltas (deltas : list ISequencedDocumentMessage)
| Failure.

(** The state of the [while (true)] loop after one round. *)
Inductive Iteration : Type :=
| Return (allDeltas : list ISequencedDocumentMessage)
| Again (retry from : Z) (allDeltas : list ISequencedDocumentMessage) (delay : Z).

Definition fetchTo (from : Z) (to : option Z) : Z :=
  let maxFetchTo := from + MaxBatchDeltas in
  match to with
  | None => maxFetchTo
  | Some t => Z.min maxFetchTo t
  end.

(** [Math.min(MaxFetchDelay, retry !== 0 ? MissingFetchDelay * Math.pow(2, retry) : 0)] *)
Definition fetchDelay (retry : Z) : Z :=
  Z.min MaxFetchDelay (if retry =? 0 then 0 else MissingFetchDelay * 2 ^ retry).

Definition lastSequenceNumber (from : Z) (deltas : list ISequencedDocumentMessage) : Z :=
  match deltas with
  | [] => from
  | d :: r => sm_sequenceNumber (last r d)
  end.

(** The body of the loop, lines 279-332. *)
Definition getDeltas_iteration (to : option Z) (retry from : Z)
    (allDeltas : list ISequencedDocumentMessage) (reply : StorageReply) : Iteration :=
  let maxFetchTo := from + MaxBatchDeltas in
  match reply with
  | Deltas deltas =>
      let allDeltas := allDeltas ++ deltas in
      let deltasRetrievedLast := List.length deltas in
      let lastFetch := lastSequenceNumber from deltas in
      if match to with
         | None => negb (maxFetchTo =? lastFetch + 1)
         | Some t => t =? lastFetch + 1
         end
      then Return allDeltas
      else
        let retry := if Nat.eqb deltasRetrievedLast 0 then retry + 1 else 0 in
        Again retry lastFetch allDeltas (fetchDelay retry)
  | Failure =>
      let retry := retry + 1 in
      Again retry from allDeltas (fetchDelay retry)
  end.

(** A run of [getDeltas]: what it did (requests and sleeps, in order) and the
    value the promise resolved with; [None] while the promise is pending. *)
Record GetDeltasRun : Type := mkRun {
  run_trace : list Effect;
  run_result : option (list ISequencedDocumentMessage)
}.

(** The loop against the successive answers of storage.  With no answer
    left the request is still outstanding. *)
Fixpoint getDeltas_loop (to : option Z) (retry from : Z)
    (allDeltas : list ISequencedDocumentMessage) (replies : list StorageReply)
  : GetDeltasRun :=
  match replies with
  | [] => mkRun [StorageGet from (fetchTo from to)] None
  | reply :: rest =>
      match getDeltas_iteration to retry from allDeltas reply with
      | Return all => mkRun [StorageGet from (fetchTo from to)] (Some all)
      | Again retry' from' all delay =>
          let run := getDeltas_loop to retry' from' all rest in
          mkRun (StorageGet from (fetchTo from to) :: SetTimeout delay :: run_trace run)
            (run_result run)
      end
  end.

(** [getDeltas], after its test of [closed]. *)
Definition getDeltas (wasClosed : bool) (fromInitial : Z) (to : option Z)
    (replies : list StorageReply) : GetDeltasRun :=
  if wasClosed then mkRun [] (Some [])
  else getDeltas_loop to 0 fromInitial [] replies.

Definition delaysOf (trace : list Effect) : list Z :=
  flat_map (fun e => match e with SetTimeout d => [d] | _ => [] end) trace.

Definition requestsOf (trace : list Effect) : list (Z * Z) :=
  flat_map (fun e => match e with StorageGet f t => [(f, t)] | _ => [] end) trace.

(** [pending.sort((a, b) => a.sequenceNumber - b.sequenceNumber)]: a stable
    sort on the sequence number. *)
Fixpoint insertSorted (m : ISequencedDocumentMessage)
    (l : list ISequencedDocumentMessage) : list ISequencedDocumentMessage :=
  match l with
  | [] => [m]
  | x :: r =>
      if sm_sequenceNumber m <=? sm_sequenceNumber x then m :: l
      else x :: insertSorted m r
  end.

Definition sortBySequenceNumber (l : list ISequencedDocumentMessage) :=
  fold_right insertSorted [] l.

Fixpoint removeOne (reg : string * Z) (l : list (string * Z)) : list (string * Z) :=
  match l with
  | [] => []
  | x :: r =>
      if String.eqb (fst x) (fst reg) && (snd x =? snd reg) then r
      else x :: removeOne reg r
  end.

Fixpoint removeNth {A : Type} (n : nat) (l : list A) : list A :=
  match n, l with
  | _, [] => []
  | O, _ :: r => r
  | S k, x :: r => x :: removeNth k r
  end.

(** ** The methods of the class *)

Section Manager.

(** [isSystemType] of [@prague/utils] and [JSON.parse]; [None] is a thrown
    [SyntaxError]. *)
Variable isSystemType : MessageType -> bool.
Variable JSON_parse : string -> option Contents.

Definition log (e : Effect) (s : DeltaManager) : DeltaManager :=
  set_effects (effects s ++ [e]) s.

Definition logAll (es : list Effect) (s : DeltaManager) : DeltaManager :=
  set_effects (effects s ++ es) s.

(** [this.emit]: seen by the listeners registered on the manager, if any.
    (That an "error" emitted without a listener is thrown is left out.) *)
Definition emit (e : ManagerEvent) (s : DeltaManager) : DeltaManager :=
  if listeners s then log (Emit e) s else s.

(** The constructor; the three queues are created and paused. *)
Definition create (clientType : option string) (now : Z) : DeltaManager :=
  mkDeltaManager
    (match clientType with
     | Some t => if String.eqb t EmptyString then Browser else t
     | None => Browser
     end)
    [] false false None true 0 None None 0
    (Queue.pause (Queue.create _))
    (Queue.pause (Queue.create _))
    (Queue.pause (Queue.create _))
    NotConnecting None 0 false false StorageUnset
    (Cache.create DefaultContentBufferSize)
    true now [] None Idle None [] [] [] [] [].

Definition maxContentSize : Z := DefaultMaxContentSize.

Definition stopSequenceNumberUpdate (s : DeltaManager) : DeltaManager :=
  let s := match updateSequenceNumberTimer s with
           | Some _ => log ClearTimeout s
           | None => s
           end in
  set_updateSequenceNumberTimer None (set_updateHasBeenRequested false s).

Definition shouldSplit (contents : Contents) : bool :=
  truthy contents &&
  match contents with
  | CString t => Z.of_nat (String.length t) >? maxContentSize
  | _ => false
  end.

Definition createOutboundMessage (type : MessageType) (coreMessage : IDocumentMessage)
  : IDocumentMessage :=
  if isSystemType type then
    let data := dm_contents coreMessage in
    dm_with_data data (dm_with_contents CNull coreMessage)
  else coreMessage.

Definition submit (type : MessageType) (contents : option string) (s : DeltaManager)
  : Z * DeltaManager :=
  let traces := [mkTrace "start" (clientType s) (clock s)] in
  let s := set_clientSequenceNumber (clientSequenceNumber s + 1) s in
  let coreMessage :=
    mkDocument (clientSequenceNumber s) (ofNullable contents)
      (baseSequenceNumber s) traces type None in
  let message := createOutboundMessage type coreMessage in
  let s := set_readonly false s in
  let s := stopSequenceNumberUpdate s in
  let s := log (OutboundPush message) (set__outbound (Queue.push message (_outbound s)) s) in
  (dm_clientSequenceNumber message, s).

Definition submitSignal (content : Contents) (s : DeltaManager) : Result DeltaManager :=
  match connection s with
  | None => Throw TypeError
  | Some _ => Ok (log (ConnSubmitSignal content) s)
  end.

Definition enableReadonlyMode (s : DeltaManager) : DeltaManager :=
  set_readonly true (stopSequenceNumberUpdate s).

Definition disableReadonlyMode (s : DeltaManager) : DeltaManager :=
  set_readonly false s.

Definition close (s : DeltaManager) : DeltaManager :=
  let s := set_closed true s in
  let s := stopSequenceNumberUpdate s in
  let s := match connection s with
           | Some _ => log ConnClose s
           | None => s
           end in
  let s := set__inbound (Queue.clear (_inbound s)) s in
  let s := set__outbound (Queue.clear (_outbound s)) s in
  let s := set__inboundSignal (Queue.clear (_inboundSignal s)) s in
  set_listeners false s.

(** *** The acknowledgement throttle *)

Definition updateSequenceNumber (type : MessageType) (s : DeltaManager) : DeltaManager :=
  if readonly s then s
  else if isPropose type then snd (submit NoOp (Some ImmediateNoOpResponse) s)
  else
    match updateSequenceNumberTimer s with
    | Some _ => set_updateHasBeenRequested true s
    | None => set_updateSequenceNumberTimer (Some type) (log (SetTimeout 100) s)
    end.

(** The callback of the 100 ms timer. *)
Definition updateSequenceNumberTimeout (s : DeltaManager) : DeltaManager :=
  match updateSequenceNumberTimer s with
  | None => s
  | Some type =>
      let s := set_updateSequenceNumberTimer None s in
      if negb (updateHasBeenRequested s) then snd (submit NoOp None s)
      else updateSequenceNumber type (set_updateHasBeenRequested false s)
  end.

(** *** Admission to the inbound queue *)

(** The synchronous start of [getDeltas]. *)
Definition callGetDeltas (reason : string) (from : Z) (to : option Z) (s : DeltaManager)
  : GetDeltasCall * DeltaManager :=
  (mkCall reason (closed s) from to,
   if closed s then log LogGetDeltasClosedConnection s
   else log (LogGetDeltasStart reason from to) s).

Definition fetchMissingDeltas (reason : string) (from : Z) (to : option Z)
    (s : DeltaManager) : DeltaManager :=
  if fetching s then log (LogAlreadyFetching reason from) s
  else
    let s := set_fetching true s in
    let (call, s) := callGetDeltas reason from to s in
    set_fetchP (Some call) s.

Definition handleOutOfOrderMessage (message : ISequencedDocumentMessage)
    (s : DeltaManager) : DeltaManager :=
  match lastQueuedSequenceNumber s with
  | Some lastQueued =>
      if sm_sequenceNumber message <=? lastQueued then
        log (LogDuplicateMessage lastQueued (sm_sequenceNumber message)) s
      else
        let s := set_pending (pending s ++ [message]) s in
        fetchMissingDeltas "HandleOutOfOrderMessage" lastQueued
          (Some (sm_sequenceNumber message)) s
  | None => set_pending (pending s ++ [message]) s
  end.

(** The body of the loop of [enqueueMessages]. *)
Definition enqueueMessage (message : ISequencedDocumentMessage) (s : DeltaManager)
  : DeltaManager :=
  let s := match largestSequenceNumber s with
           | Some largest =>
               set_largestSequenceNumber
                 (Some (Z.max largest (sm_sequenceNumber message))) s
           | None => s
           end in
  match lastQueuedSequenceNumber s with
  | Some lastQueued =>
      if negb (sm_sequenceNumber message =? lastQueued + 1) then
        handleOutOfOrderMessage message s
      else
        let s := set_lastQueuedSequenceNumber (Some (sm_sequenceNumber message)) s in
        set__inbound (Queue.push message (_inbound s)) s
  | None =>
      let s := set_lastQueuedSequenceNumber (Some (sm_sequenceNumber message)) s in
      set__inbound (Queue.push message (_inbound s)) s
  end.

Definition enqueueMessages (messages : list ISequencedDocumentMessage)
    (s : DeltaManager) : DeltaManager :=
  fold_left (fun s message => enqueueMessage message s) messages s.

Definition catchUp (reason : string) (messages : list ISequencedDocumentMessage)
    (s : DeltaManager) : DeltaManager :=
  let s := log (LogCatchUp reason (List.length messages) (List.length (pending s))) s in
  let s := enqueueMessages messages s in
  let pendingSorted := sortBySequenceNumber (pending s) in
  let s := set_pending [] s in
  enqueueMessages pendingSorted s.

(** The promise that [fetchMissingDeltas] waits on resolves: its [then]. *)
Definition fetchMissingDeltasResolved (reason : string)
    (messages : list ISequencedDocumentMessage) (s : DeltaManager) : DeltaManager :=
  let s := set_fetching false s in
  catchUp reason messages s.

(** *** The content cache and its listeners *)

(** The closure [lateContentHandler] of [waitForContent], registered for
    [(clientId, clientSeqNumber)] and called with [clId].  The value it
    returns goes to the event emitter, which drops it. *)
Definition lateContentHandler (registration : string * Z) (clId : string)
    (s : DeltaManager) : DeltaManager :=
  let (clientId, clientSeqNumber) := registration in
  if String.eqb clientId clId then
    match Cache.peek clId (contentCache s) with
    | Some lateContent =>
        if cm_clientSequenceNumber lateContent =? clientSeqNumber then
          let s := set_lateContentHandlers
                     (removeOne registration (lateContentHandlers s)) s in
          set_contentCache (snd (Cache.get clientId (contentCache s))) s
        else s
    | None => s
    end
  else s.

(** [contentCache.set]: insert, then "content" to the listeners registered
    at that time. *)
Definition contentCacheSet (content : IContentMessage) (s : DeltaManager) : DeltaManager :=
  let s := set_contentCache (Cache.set content (contentCache s)) s in
  fold_left (fun s registration => lateContentHandler registration (cm_clientId content) s)
    (lateContentHandlers s) s.

(** *** The worker of the inbound queue *)

(** The worker completes with an error: the queue emits "error", which the
    manager emits again, and stops draining. *)
Definition inboundError (e : Error) (s : DeltaManager) : DeltaManager :=
  emit (EvtError e) (set__inbound (Queue.halt (_inbound s)) (set_inboundWork Idle s)).

(** [processMessage] up to the call of [handler.prepare]. *)
Definition processMessage (message : ISequencedDocumentMessage) (s : DeltaManager)
  : Result DeltaManager :=
  if negb (sm_sequenceNumber message =? baseSequenceNumber s + 1) then
    Throw (AssertionError "sequenceNumber")
  else
    let startTime := clock s in
    let decoded :=
      match sm_contents message with
      | CString text =>
          if truthy (CString text) && negb (isClientLeave (sm_type message)) then
            option_map (fun c => sm_with_contents c message) (JSON_parse text)
          else Some message
      | _ => Some message
      end in
    match decoded with
    | None => Throw SyntaxError
    | Some message =>
        if handler s then
          Ok (set_inboundWork (AwaitPrepare message startTime)
                (log (HandlerPrepare message) s))
        else Throw TypeError
    end.

(** [processInboundOp].  An exception thrown by [processMessage] itself
    leaves through the caller: the queue when the worker called
    synchronously, and otherwise a promise callback, after which nobody
    calls [callback]. *)
Definition processInboundOp (op : ISequencedDocumentMessage) (synchronous : bool)
    (s : DeltaManager) : DeltaManager :=
  match processMessage op s with
  | Ok s => s
  | Throw e => if synchronous then inboundError e s else set_inboundWork Stuck s
  end.

Definition mergeAndProcess (message : ISequencedDocumentMessage)
    (contentOp : IContentMessage) (synchronous : bool) (s : DeltaManager) : DeltaManager :=
  processInboundOp (sm_with_contents (cm_contents contentOp) message) synchronous s.

(** The [then] of [contextP] in [processMessage]. *)
Definition prepared (s : DeltaManager) : DeltaManager :=
  match inboundWork s with
  | AwaitPrepare message startTime =>
      let message :=
        match sm_traces message with
        | [] => message
        | traces =>
            sm_with_traces (traces ++ [mkTrace "end" (clientType s) (clock s)]) message
        end in
      let s := set_minSequenceNumber (sm_minimumSequenceNumber message) s in
      let s := set_baseSequenceNumber (sm_sequenceNumber message) s in
      let s := log (HandlerProcess message) s in
      let s := if isOperation (sm_type message) || isPropose (sm_type message)
               then updateSequenceNumber (sm_type message) s
               else s in
      let s := emit (EvtProcessTime (clock s - startTime)) s in
      set_inboundWork (AwaitPostProcess message) (log (HandlerPostProcess message) s)
  | _ => s
  end.

(** [postProcess] resolved: the worker calls back without error. *)
Definition postProcessed (s : DeltaManager) : DeltaManager :=
  match inboundWork s with
  | AwaitPostProcess _ => set_inboundWork Idle s
  | _ => s
  end.

(** A promise of the handler rejected. *)
Definition handlerRejected (s : DeltaManager) : DeltaManager :=
  match inboundWork s with
  | AwaitPrepare _ _ | AwaitPostProcess _ => inboundError Rejection s
  | _ => s
  end.

(** The loop of case "cache is behind" in [handleOpContent]. *)
Fixpoint drain (fuel : nat) (clientId : string) (clientSequenceNumber : Z)
    (nextContent : option IContentMessage) (cache : ContentCache)
  : option IContentMessage * ContentCache :=
  match fuel, nextContent with
  | S fuel, Some c =>
      if cm_clientSequenceNumber c <? clientSequenceNumber then
        let (next, cache) := Cache.get clientId cache in
        drain fuel clientId clientSequenceNumber next cache
      else (nextContent, cache)
  | _, _ => (nextContent, cache)
  end.

Definition handleOpContent (op : ISequencedDocumentMessage) (s : DeltaManager)
  : DeltaManager :=
  let fetchContent (viaWaitForContent : bool) (s : DeltaManager) :=
    let (call, s) :=
      callGetDeltas "fetchContent" (sm_sequenceNumber op) (Some (sm_sequenceNumber op)) s in
    set_inboundWork (AwaitContent op call viaWaitForContent) s in
  match Cache.peek (sm_clientId op) (contentCache s) with
  | None =>
      (* waitForContent *)
      let s := set_lateContentHandlers
                 (lateContentHandlers s ++ [(sm_clientId op, sm_clientSequenceNumber op)]) s in
      fetchContent true s
  | Some opContent =>
      if cm_clientSequenceNumber opContent >? sm_clientSequenceNumber op then
        fetchContent false s
      else if cm_clientSequenceNumber opContent <? sm_clientSequenceNumber op then
        let (first, cache) := Cache.get (sm_clientId op) (contentCache s) in
        let (nextContent, cache) :=
          drain (S (List.length (cc_entries cache))) (sm_clientId op)
            (sm_clientSequenceNumber op) first cache in
        let s := set_contentCache cache s in
        match nextContent with
        | None => inboundError (AssertionError "No content found") s
        | Some next =>
            if sm_clientSequenceNumber op =? cm_clientSequenceNumber next then
              mergeAndProcess op next true s
            else inboundError (AssertionError "Invalid op content order") s
        end
      else
        let (content, cache) := Cache.get (sm_clientId op) (contentCache s) in
        match content with
        | Some c => mergeAndProcess op c true (set_contentCache cache s)
        | None => inboundError TypeError (set_contentCache cache s)
        end
  end.

(** [getDeltas] reaches delta storage once [deltaStorageP] resolved. *)
Definition storageReady (s : DeltaManager) : bool :=
  match deltaStorageP s with StorageResolved => true | _ => false end.

(** A call of [getDeltas] settles, [replies] being the answers of delta
    storage to its requests, in order.  [None]: it cannot have settled. *)
Definition settle (call : GetDeltasCall) (replies : list StorageReply)
    (s : DeltaManager) : option (list Effect * list ISequencedDocumentMessage) :=
  if gd_closed call || storageReady s then
    let run := getDeltas (gd_closed call) (gd_from call) (gd_to call) replies in
    match run_result run with
    | Some messages => Some (run_trace run, messages)
    | None => None
    end
  else None.

(** The promise of [fetchContent] resolves. *)
Definition fetchContentSettled (replies : list StorageReply) (s : DeltaManager)
  : DeltaManager :=
  match inboundWork s with
  | AwaitContent op call viaWaitForContent =>
      match settle call replies s with
      | None => s
      | Some (trace, messages) =>
          let s := logAll trace s in
          match messages with
          | [] => inboundError (AssertionError "Content not found in DB") s
          | message :: _ =>
              if negb (String.eqb (sm_clientId message) (sm_clientId op)) then
                inboundError (AssertionError "Invalid fetched content") s
              else if negb (sm_clientSequenceNumber message =? sm_clientSequenceNumber op) then
                inboundError (AssertionError "Invalid fetched content") s
              else
                let content :=
                  mkContent (sm_clientId message) (sm_clientSequenceNumber message)
                    (sm_contents message) in
                let s :=
                  if viaWaitForContent then
                    set_lateContentHandlers
                      (removeOne (sm_clientId op, sm_clientSequenceNumber op)
                         (lateContentHandlers s)) s
                  else s in
                mergeAndProcess op content false s
          end
      end
  | _ => s
  end.

(** The inbound queue hands its next message to the worker. *)
Definition inboundRun (s : DeltaManager) : DeltaManager :=
  match inboundWork s, Queue.ready (_inbound s) with
  | Idle, Some op =>
      let s := set__inbound (Queue.shift (_inbound s)) s in
      if isUndefined (sm_contents op) then handleOpContent op s
      else processInboundOp op true s
  | _, _ => s
  end.

(** *** The workers of the outbound and of the signal queue *)

Definition outboundError (e : Error) (s : DeltaManager) : DeltaManager :=
  emit (EvtError e) (set__outbound (Queue.halt (_outbound s)) (set_outboundWork None s)).

Definition outboundRun (s : DeltaManager) : DeltaManager :=
  match outboundWork s, Queue.ready (_outbound s) with
  | None, Some message =>
      let s := set__outbound (Queue.shift (_outbound s)) s in
      match connection s with
      | None => outboundError TypeError s
      | Some _ =>
          if shouldSplit (dm_contents message) then
            set_outboundWork (Some message) (log (ConnSubmitAsync message) s)
          else log (ConnSubmit message) s
      end
  | _, _ => s
  end.

(** [submitAsync] resolved. *)
Definition submitAsyncResolved (s : DeltaManager) : DeltaManager :=
  match outboundWork s, connection s with
  | Some message, Some details =>
      let s := contentCacheSet
                 (mkContent (cd_clientId details) (dm_clientSequenceNumber message)
                    (dm_contents message)) s in
      let message := dm_with_contents CUndefined message in
      set_outboundWork None (log (ConnSubmit message) s)
  | _, _ => s
  end.

Definition submitAsyncRejected (s : DeltaManager) : DeltaManager :=
  match outboundWork s with
  | Some _ => outboundError Rejection s
  | None => s
  end.

Definition signalError (e : Error) (s : DeltaManager) : DeltaManager :=
  emit (EvtError e) (set__inboundSignal (Queue.halt (_inboundSignal s)) s).

(** [JSON.parse(message.content)]; a content that is not a string is
    converted to one first. *)
Definition parseSignal (content : Contents) : option Contents :=
  match content with
  | CString text => JSON_parse text
  | CNull => Some CNull
  | CUndefined | CValue _ => None
  end.

Definition signalRun (s : DeltaManager) : DeltaManager :=
  match Queue.ready (_inboundSignal s) with
  | Some message =>
      let s := set__inboundSignal (Queue.shift (_inboundSignal s)) s in
      match parseSignal (sig_content message) with
      | None => signalError SyntaxError s
      | Some content =>
          if handler s then
            log (HandlerProcessSignal (mkSignal (sig_clientId message) content)) s
          else signalError TypeError s
      end
  | None => s
  end.

(** *** Initial messages and the "resume" listeners *)

Definition enqueInitalOps (initial : InitialOps) (s : DeltaManager) : DeltaManager :=
  let (messages, contents) := initial in
  let s := fold_left (fun s content => contentCacheSet content s) contents s in
  match messages with
  | [] => s
  | _ => catchUp "enqueInitalOps" messages s
  end.

Definition enqueInitalSignals (signals : list ISignalMessage) (s : DeltaManager)
  : DeltaManager :=
  fold_left (fun s signal => set__inboundSignal (Queue.push signal (_inboundSignal s)) s)
    signals s.

Definition processInitialMessages (messages : list ISequencedDocumentMessage)
    (contents : list IContentMessage) (signals : list ISignalMessage)
    (s : DeltaManager) : DeltaManager :=
  let s := if negb (handler s) || Queue.paused (_inbound s)
           then set_inboundOnResume (inboundOnResume s ++ [(messages, contents)]) s
           else enqueInitalOps (messages, contents) s in
  if negb (handler s) || Queue.paused (_inboundSignal s)
  then set_signalOnResume (signalOnResume s ++ [signals]) s
  else enqueInitalSignals signals s.

(** A resume call on the inbound queue replaced [before] by the present
    queue: the listeners registered with [once("resume", ...)] run. *)
Definition inboundResumed (before : DeltaQueue ISequencedDocumentMessage)
    (s : DeltaManager) : DeltaManager :=
  if Queue.resumes before (_inbound s) then
    fold_left (fun s initial => enqueInitalOps initial s) (inboundOnResume s)
      (set_inboundOnResume [] s)
  else s.

Definition signalResumed (before : DeltaQueue ISignalMessage) (s : DeltaManager)
  : DeltaManager :=
  if Queue.resumes before (_inboundSignal s) then
    fold_left (fun s signals => enqueInitalSignals signals s) (signalOnResume s)
      (set_signalOnResume [] s)
  else s.

Definition inboundSystemResume (s : DeltaManager) : DeltaManager :=
  inboundResumed (_inbound s) (set__inbound (Queue.systemResume (_inbound s)) s).

Definition inboundResume (s : DeltaManager) : DeltaManager :=
  inboundResumed (_inbound s) (set__inbound (Queue.resume (_inbound s)) s).

Definition signalSystemResume (s : DeltaManager) : DeltaManager :=
  signalResumed (_inboundSignal s)
    (set__inboundSignal (Queue.systemResume (_inboundSignal s)) s).

Definition signalResume (s : DeltaManager) : DeltaManager :=
  signalResumed (_inboundSignal s)
    (set__inboundSignal (Queue.resume (_inboundSignal s)) s).

Definition attachOpHandler (sequenceNumber : Z) (resume : bool) (s : DeltaManager)
  : DeltaManager :=
  let s := set_baseSequenceNumber sequenceNumber s in
  let s := set_minSequenceNumber sequenceNumber s in
  let s := set_lastQueuedSequenceNumber (Some sequenceNumber) s in
  let s := set_largestSequenceNumber (Some sequenceNumber) s in
  let s := set_handler true s in
  if resume then
    let s := inboundSystemResume s in
    let s := signalSystemResume s in
    fetchMissingDeltas "DocumentOpen" sequenceNumber None s
  else s.

(** *** The connection *)

(** [connectCore]: a call of [DeltaConnection.Connect] is under way; the
    model keeps the [delay] it was called with. *)
Definition connectCore (reason : string) (delay : Z) (s : DeltaManager) : DeltaManager :=
  set_connects (connects s ++ [delay]) (log (Connect reason) s).

Definition connect (reason : string) (s : DeltaManager) : DeltaManager :=
  match connecting s with
  | ConnectingPending => s
  | _ =>
      let s := set_deltaStorageP StoragePending (log ConnectToDeltaStorage s) in
      let s := set_connecting ConnectingPending s in
      connectCore reason InitialReconnectDelay s
  end.

(** [connectToDeltaStorage] settled. *)
Definition deltaStorageConnected (ok : bool) (s : DeltaManager) : DeltaManager :=
  match deltaStorageP s with
  | StoragePending =>
      if ok then set_deltaStorageP StorageResolved s else emit (EvtError Rejection) s
  | _ => s
  end.

(** The [n]-th call of [Connect] under way resolved with a connection. *)
Definition connectResolved (n : nat) (details : IConnectionDetails) (s : DeltaManager)
  : DeltaManager :=
  match nth_error (connects s) n with
  | None => s
  | Some _ =>
      let s := set_connects (removeNth n (connects s)) s in
      let s := set_connection (Some details) s in
      let s := set__outbound (Queue.systemResume (_outbound s)) s in
      let s := set_clientSequenceNumber 0 s in
      let s := match connecting s with
               | ConnectingPending => set_connecting ConnectingDone s
               | _ => s
               end in
      let s := processInitialMessages (cd_initialMessages details)
                 (cd_initialContents details) (cd_initialSignals details) s in
      emit (EvtConnect details) s
  end.

(** The [n]-th call of [Connect] under way failed. *)
Definition connectRejected (n : nat) (s : DeltaManager) : DeltaManager :=
  match nth_error (connects s) n with
  | None => s
  | Some delay =>
      let s := set_connects (removeNth n (connects s)) s in
      let delay := Z.min delay MaxReconnectDelay in
      let s := log (LogConnectionFailure delay) s in
      set_reconnectTimers (reconnectTimers s ++ [(delay, delay * 2)])
        (log (SetTimeout delay) s)
  end.

(** The [n]-th timer set by a failed [Connect] fires. *)
Definition reconnectTimeout (n : nat) (s : DeltaManager) : DeltaManager :=
  match nth_error (reconnectTimers s) n with
  | None => s
  | Some (_, next) =>
      let s := set_reconnectTimers (removeNth n (reconnectTimers s)) s in
      connectCore "Connection failed - trying again" next s
  end.

Definition reconnect (s : DeltaManager) : bool := String.eqb (clientType s) Browser.

(** The listener of "nack" ([wasNack = true]) and of "disconnect". *)
Definition onDisconnect (wasNack : bool) (s : DeltaManager) : DeltaManager :=
  let s := set__outbound (Queue.systemPause (_outbound s)) s in
  let s := set__outbound (Queue.clear (_outbound s)) s in
  let s := emit (EvtDisconnect wasNack) s in
  if negb (reconnect s) then
    let s := set__inbound (Queue.systemPause (_inbound s)) s in
    let s := set__inbound (Queue.clear (_inbound s)) s in
    let s := set__inboundSignal (Queue.systemPause (_inboundSignal s)) s in
    set__inboundSignal (Queue.clear (_inboundSignal s)) s
  else
    connectCore (if wasNack then "Reconnecting on nack" else "Reconnecting on disconnect")
      InitialReconnectDelay s.

Definition onOp (messages : list ISequencedDocumentMessage) (s : DeltaManager)
  : DeltaManager :=
  if handler s then enqueueMessages messages s else s.

Definition onOpContent (message : IContentMessage) (s : DeltaManager) : DeltaManager :=
  if handler s then contentCacheSet message s else s.

Definition onSignal (message : ISignalMessage) (s : DeltaManager) : DeltaManager :=
  if handler s then set__inboundSignal (Queue.push message (_inboundSignal s)) s else s.

(** The promise that [fetchMissingDeltas] waits on settles, [replies]
    being what delta storage answered. *)
Definition getDeltasSettled (replies : list StorageReply) (s : DeltaManager)
  : DeltaManager :=
  match fetchP s with
  | None => s
  | Some call =>
      match settle call replies s with
      | None => s
      | Some (trace, messages) =>
          let s := set_fetchP None (logAll trace s) in
          fetchMissingDeltasResolved (gd_reason call) messages s
      end
  end.

(** The same promise rejects; [fetchMissingDeltas] gave [then] no second
    callback. *)
Definition getDeltasRejected (s : DeltaManager) : DeltaManager :=
  set_fetchP None s.

(** ** Events *)

(** What can happen to a manager: a call of its public interface, an event
    of a connection it listens to, a queue running its worker, or the
    continuation of something it waits for. *)
Inductive Event : Type :=
(* public interface *)
| AttachOpHandler (sequenceNumber : Z) (resume : bool)
| CallConnect (reason : string)
| Submit (type : MessageType) (contents : option string)
| SubmitSignal (content : Contents)
| EnableReadonlyMode
| DisableReadonlyMode
| Close
| InboundPause | InboundResume
| OutboundPause | OutboundResume
| SignalPause | SignalResume
(* the connection *)
| ConnectResolved (n : nat) (details : IConnectionDetails)
| ConnectRejected (n : nat)
| ReconnectTimeout (n : nat)
| DeltaStorageConnected (ok : bool)
| OnOp (messages : list ISequencedDocumentMessage)
| OnOpContent (message : IContentMessage)
| OnSignal (message : ISignalMessage)
| OnNack
| OnDisconnect
| OnPong (latency : Z)
| OnError (e : Error)
(* queues *)
| InboundRun
| OutboundRun
| SignalRun
(* continuations *)
| Prepared
| PostProcessed
| HandlerRejected
| FetchContentSettled (replies : list StorageReply)
| GetDeltasSettled (replies : list StorageReply)
| GetDeltasRejected
| SubmitAsyncResolved
| SubmitAsyncRejected
| UpdateSequenceNumberTimeout
| Tick (now : Z).

(** The listeners on a connection exist once a connection was installed. *)
Definition connected (s : DeltaManager) : bool :=
  match connection s with Some _ => true | None => false end.

Definition step (e : Event) (s : DeltaManager) : DeltaManager :=
  match e with
  | AttachOpHandler sequenceNumber resume => attachOpHandler sequenceNumber resume s
  | CallConnect reason => connect reason s
  | Submit type contents => snd (submit type contents s)
  | SubmitSignal content =>
      match submitSignal content s with Ok s => s | Throw _ => s end
  | EnableReadonlyMode => enableReadonlyMode s
  | DisableReadonlyMode => disableReadonlyMode s
  | Close => close s
  | InboundPause => set__inbound (Queue.pause (_inbound s)) s
  | InboundResume => inboundResume s
  | OutboundPause => set__outbound (Queue.pause (_outbound s)) s
  | OutboundResume => set__outbound (Queue.resume (_outbound s)) s
  | SignalPause => set__inboundSignal (Queue.pause (_inboundSignal s)) s
  | SignalResume => signalResume s
  | ConnectResolved n details => connectResolved n details s
  | ConnectRejected n => connectRejected n s
  | ReconnectTimeout n => reconnectTimeout n s
  | DeltaStorageConnected ok => deltaStorageConnected ok s
  | OnOp messages => if connected s then onOp messages s else s
  | OnOpContent message => if connected s then onOpContent message s else s
  | OnSignal message => if connected s then onSignal message s else s
  | OnNack => if connected s then onDisconnect true s else s
  | OnDisconnect => if connected s then onDisconnect false s else s
  | OnPong latency => if connected s then emit (EvtPong latency) s else s
  | OnError e => if connected s then emit (EvtError e) s else s
  | InboundRun => inboundRun s
  | OutboundRun => outboundRun s
  | SignalRun => signalRun s
  | Prepared => prepared s
  | PostProcessed => postProcessed s
  | HandlerRejected => handlerRejected s
  | FetchContentSettled replies => fetchContentSettled replies s
  | GetDeltasSettled replies => getDeltasSettled replies s
  | GetDeltasRejected => getDeltasRejected s
  | SubmitAsyncResolved => submitAsyncResolved s
  | SubmitAsyncRejected => submitAsyncRejected s
  | UpdateSequenceNumberTimeout => updateSequenceNumberTimeout s
  | Tick now => set_clock now s
  end.

Definition run (events : list Event) (s : DeltaManager) : DeltaManager :=
  fold_left (fun s e => step e s) events s.

End Manager.

(** * Properties *)

Unset Implicit Arguments.

(** ** Projections of the effects trace *)

(** The sequence numbers the handler was given to [process], in order. *)
Definition processedOf (trace : list Effect) : list Z :=
  flat_map (fun e => match e with
                     | HandlerProcess m => [sm_sequenceNumber m]
                     | _ => []
                     end) trace.

(** The [NoOp] envelopes pushed onto the outbound queue. *)
Definition noOpsOf (trace : list Effect) : list IDocumentMessage :=
  flat_map (fun e => match e with
                     | OutboundPush m => if isNoOp (dm_type m) then [m] else []
                     | _ => []
                     end) trace.

(** ** Admission (C1) *)

(** The first statement of the loop body of [enqueueMessages]. *)
Definition observe (M : ISequencedDocumentMessage) (s : DeltaManager) : DeltaManager :=
  match largestSequenceNumber s with
  | Some largest => set_largestSequenceNumber (Some (Z.max largest (sm_sequenceNumber M))) s
  | None => s
  end.

(** ** Example values *)

Definition exampleDetails : IConnectionDetails := mkDetails "me" 0 [] [] [].

Definition exampleMessage (n : Z) : ISequencedDocumentMessage :=
  mkSequenced n 0 "A" n 0 Operation (CValue "{}") [].

(** A browser client, connected, with the handler attached at 0, the
    inbound queue running and the fetch of "DocumentOpen" answered. *)
Definition attached : DeltaManager :=
  run isSystemType_spec parse_any
    [CallConnect "DocumentOpen"; DeltaStorageConnected true;
     ConnectResolved 0 exampleDetails; AttachOpHandler 0 true; InboundResume;
     GetDeltasSettled [Deltas []]]
    (create None 0).

(** ** Reconnection *)

(** The delay before the retry that follows the [i]-th failed attempt. *)
Definition backoff (i : nat) : Z :=
  Z.min (InitialReconnectDelay * 2 ^ Z.of_nat i) MaxReconnectDelay.

(** [n] times: the attempt under way fails, its timer fires. *)
Fixpoint failures (n : nat) : list Event :=
  match n with
  | O => []
  | S n => ConnectRejected 0 :: ReconnectTimeout 0 :: failures n
  end.

(** What the [i]-th failure and the retry after it leave in the trace. *)
Definition failureTrace (i : nat) : list Effect :=
  [LogConnectionFailure (backoff i); SetTimeout (backoff i);
   Connect "Connection failed - trying again"].

(** ** Content reassembly *)

(** An envelope of client "C" without contents, and its content. *)
Definition envelope : ISequencedDocumentMessage :=
  mkSequenced 1 0 "C" 7 0 Operation CUndefined [].

Definition lateContent : IContentMessage := mkContent "C" 7 (CString "payload").

(** The envelope arrived and the inbound worker took it. *)
Definition awaitingContent : DeltaManager :=
  run isSystemType_spec parse_any [OnOp [envelope]; InboundRun] attached.

(** ** The latch of [fetching] *)

(** [fetching] is set; and, when [settled], no call of [getDeltas] made by
    [fetchMissingDeltas] is under way. *)
Definition latched (settled : bool) (s : DeltaManager) : Prop :=
  (fetching s, if settled then fetchP s else None) = (true, None).

Definition isGetDeltasSettled (e : Event) : bool :=
  match e with GetDeltasSettled _ => true | _ => false end.

(** ** Readonly mode *)

(** The manager is readonly, no acknowledgement timer is armed, and the
    [NoOp] envelopes pushed so far are [acks]. *)
Definition silent (acks : list IDocumentMessage) (s : DeltaManager) : Prop :=
  (readonly s, updateSequenceNumberTimer s, noOpsOf (effects s)) = (true, None, acks).

(** Neither a local [submit] nor [disableReadonlyMode]. *)
Definition keepsReadonly (e : Event) : bool :=
  match e with
  | Submit _ _ | DisableReadonlyMode => false
  | _ => true
  end.

(** ** Ordered processing *)

(** [n] consecutive numbers from [from]. *)
Fixpoint zseq (from : Z) (n : nat) : list Z :=
  match n with
  | O => []
  | S n => from :: zseq (from + 1) n
  end.

(** The storage requests made so far are [requests]. *)
Definition asked (requests : list (Z * Z)) (s : DeltaManager) : Prop :=
  requestsOf (effects s) = requests.

(** [processMessage] takes the message without throwing: it has contents,
    and contents to decode are valid. *)
Definition processable (JSON_parse : string -> option Contents)
    (m : ISequencedDocumentMessage) : bool :=
  match sm_contents m with
  | CUndefined => false
  | CString text =>
      if truthy (CString text) && negb (isClientLeave (sm_type m)) then
        match JSON_parse text with Some _ => true | None => false end
      else true
  | _ => true
  end.

(** The message as [processMessage] hands it to the handler. *)
Definition decoded (JSON_parse : string -> option Contents)
    (m : ISequencedDocumentMessage) : ISequencedDocumentMessage :=
  match sm_contents m with
  | CString text =>
      if truthy (CString text) && negb (isClientLeave (sm_type m)) then
        match JSON_parse text with Some c => sm_with_contents c m | None => m end
      else m
  | _ => m
  end.

(** The process-order invariant.  The handler, attached at 0, was given
    exactly the messages 1 to [baseSequenceNumber] to process, after what it
    had processed [before]; the message in the hands of the worker, if any,
    and the messages queued behind it carry the numbers that follow, up to
    [lastQueuedSequenceNumber]; and neither they nor the pending ones make
    [processMessage] throw. *)
Definition ordered (JSON_parse : string -> option Contents) (before : list Z)
    (s : DeltaManager) : Prop :=
  handler s = true /\
  q_halted (_inbound s) = false /\
  forallb (processable JSON_parse) (q_items (_inbound s)) = true /\
  forallb (processable JSON_parse) (pending s) = true /\
  0 <= baseSequenceNumber s /\
  processedOf (effects s) = before ++ zseq 1 (Z.to_nat (baseSequenceNumber s)) /\
  exists lastQueued,
    lastQueuedSequenceNumber s = Some lastQueued /\
    match inboundWork s with
    | Idle | AwaitPostProcess _ =>
        baseSequenceNumber s <= lastQueued /\
        map sm_sequenceNumber (q_items (_inbound s)) =
          zseq (baseSequenceNumber s + 1) (Z.to_nat (lastQueued - baseSequenceNumber s))
    | AwaitPrepare m _ =>
        baseSequenceNumber s + 1 <= lastQueued /\
        sm_sequenceNumber m = baseSequenceNumber s + 1 /\
        map sm_sequenceNumber (q_items (_inbound s)) =
          zseq (baseSequenceNumber s + 2)
            (Z.to_nat (lastQueued - baseSequenceNumber s - 1))
    | AwaitContent _ _ _ | Stuck => False
    end.

(** The events of the worker of the inbound queue, and the clock. *)
Definition isWork (e : Event) : bool :=
  match e with
  | InboundRun | Prepared | PostProcessed | Tick _ => true
  | _ => false
  end.

(** The worker takes a message and the handler's promises resolve. *)
Definition workRound : list Event := [InboundRun; Prepared; PostProcessed].

Fixpoint workRounds (n : nat) : list Event :=
  match n with
  | O => []
  | S n => workRound ++ workRounds n
  end.

(** What admission depends on. *)
Definition admission (s : DeltaManager) :=
  (lastQueuedSequenceNumber s, pending s, fetching s, fetchP s,
   (handler s, connection s, deltaStorageP s, closed s),
   (q_paused (_inbound s), q_systemPaused (_inbound s))).

(** The promise of a [getDeltas] settles. *)
Definition isSettled (e : Event) : bool :=
  match e with
  | GetDeltasSettled _ | FetchContentSettled _ => true
  | _ => false
  end.

(** The schedules of the reordering scenario: the messages 3, 1, 2 are
    delivered on "op" in that order, in one array or several; the
    [getDeltas] that the gap starts is answered by storage with the messages
    1 and 2, at any time after it started; the worker of the inbound queue
    runs whenever it does.  [delivered] counts the messages delivered so far,
    [fetched] tells whether the answer has come. *)
Inductive schedule (m1 m2 m3 : ISequencedDocumentMessage)
  : nat -> bool -> list Event -> Prop :=
| schedule_done : schedule m1 m2 m3 3 true []
| schedule_deliver delivered fetched k events :
    (0 < k)%nat -> (delivered + k <= 3)%nat ->
    schedule m1 m2 m3 (delivered + k) fetched events ->
    schedule m1 m2 m3 delivered fetched
      (OnOp (firstn k (skipn delivered [m3; m1; m2])) :: events)
| schedule_fetch delivered events :
    (0 < delivered)%nat ->
    schedule m1 m2 m3 delivered true events ->
    schedule m1 m2 m3 delivered false (GetDeltasSettled [Deltas [m1; m2]] :: events)
| schedule_work delivered fetched e events :
    isWork e = true ->
    schedule m1 m2 m3 delivered fetched events ->
    schedule m1 m2 m3 delivered fetched (e :: events).

(** The admission state that the scenario is in: the handler is attached,
    the manager connected and not closed, delta storage resolved, the
    inbound queue not paused. *)
Definition expected (m3 : ISequencedDocumentMessage) (details : IConnectionDetails)
    (delivered : nat) (fetched : bool) :=
  let static := (true, Some details, StorageResolved, false) in
  let call := mkCall "HandleOutOfOrderMessage" false 0 (Some 3) in
  match delivered, fetched with
  | O, _ => (Some 0, @nil ISequencedDocumentMessage, false, @None GetDeltasCall,
             static, (false, false))
  | S d, false => (Some (Z.of_nat d), [m3], true, Some call, static, (false, false))
  | S _, true => (Some 3, [], false, None, static, (false, false))
  end.

(** A manager with a given admission state and nothing else. *)
Definition canonical
    (a : option Z * list ISequencedDocumentMessage * bool * option GetDeltasCall *
         (bool * option IConnectionDetails * StorageP * bool) * (bool * bool))
  : DeltaManager :=
  let '(lastQueued, pend, fetch, call, (h, conn, storage, isClosed), (paused, sysPaused)) := a in
  mkDeltaManager Browser pend fetch false None true 0 lastQueued None 0
    (mkQueue paused sysPaused false [])
    (Queue.create _) (Queue.create _)
    NotConnecting conn 0 isClosed h storage
    (Cache.create DefaultContentBufferSize)
    true 0 [] call Idle None [] [] [] [] [].

(** The invariant of the scenario. *)
Definition inScenario (JSON_parse : string -> option Contents)
    (m3 : ISequencedDocumentMessage) (details : IConnectionDetails)
    (before : list Z) (requests : list (Z * Z))
    (delivered : nat) (fetched : bool) (s : DeltaManager) : Prop :=
  admission s = expected m3 details delivered fetched /\
  ordered JSON_parse before s /\
  asked (requests ++ if fetched then [(0, 3)] else []) s /\
  (delivered = O -> fetched = false).

(** Ordered, with the admission state [a] and the inbound queue running. *)
Definition running (JSON_parse : string -> option Contents) (before : list Z)
    (a : option Z * list ISequencedDocumentMessage * bool * option GetDeltasCall *
         (bool * option IConnectionDetails * StorageP * bool) * (bool * bool))
    (s : DeltaManager) : Prop :=
  ordered JSON_parse before s /\ admission s = a /\ snd a = (false, false).

(** ** [getDeltas]: what a call collects *)


(** The answer ends with a message numbered [n]. *)
Definition endsAt (n : Z) (reply : StorageReply) : bool :=
  match reply with
  | Deltas (d :: deltas) => sm_sequenceNumber (last deltas d) =? n
  | _ => false
  end.

(** The answer holds only messages inside the window asked for, both ends
    excluded. *)
Definition within (from to : Z) (reply : StorageReply) : bool :=
  match reply with
  | Deltas deltas =>
      forallb (fun m => (from <? sm_sequenceNumber m) && (sm_sequenceNumber m <? to)) deltas
  | Failure => true
  end.

(** ** Admission of arbitrary deliveries *)

(** Non-decreasing sequence numbers, as [Array.prototype.sort] with the
    comparator of [catchUp] leaves them. *)
Fixpoint sortedBySequenceNumber (l : list ISequencedDocumentMessage) : bool :=
  match l with
  | [] => true
  | x :: r =>
      forallb (fun y => sm_sequenceNumber x <=? sm_sequenceNumber y) r &&
      sortedBySequenceNumber r
  end.

(** The largest of [start] and the sequence numbers of [messages]. *)
Definition largestOf (start : Z) (messages : list ISequencedDocumentMessage) : Z :=
  fold_left (fun largest m => Z.max largest (sm_sequenceNumber m)) messages start.

(** ** Local submissions and acknowledgements *)

(** Consecutive calls of [submit], with the numbers they return. *)
Fixpoint submitAll (isSystemType : MessageType -> bool)
    (calls : list (MessageType * option string)) (s : DeltaManager)
  : list Z * DeltaManager :=
  match calls with
  | [] => ([], s)
  | (type, contents) :: rest =>
      let (number, s) := submit isSystemType type contents s in
      let (numbers, s) := submitAll isSystemType rest s in
      (number :: numbers, s)
  end.

(** The envelope that [submit] builds in state [s]. *)
Definition envelopeOf (isSystemType : MessageType -> bool) (type : MessageType)
    (contents : option string) (s : DeltaManager) : IDocumentMessage :=
  createOutboundMessage isSystemType type
    (mkDocument (clientSequenceNumber s + 1) (ofNullable contents)
       (baseSequenceNumber s) [mkTrace "start" (clientType s) (clock s)] type None).

(** ** What the admission of messages leaves alone *)

(** The entries of the trace that are calls to the handler or to the
    connection, or pushes onto the outbound queue. *)
Definition isCall (e : Effect) : bool :=
  match e with
  | HandlerPrepare _ | HandlerProcess _ | HandlerPostProcess _ | HandlerProcessSignal _
  | ConnectToDeltaStorage | Connect _
  | ConnSubmit _ | ConnSubmitAsync _ | ConnSubmitSignal _ | ConnClose
  | OutboundPush _ => true
  | _ => false
  end.

Definition callsOf (trace : list Effect) : list Effect := filter isCall trace.

(** The part of the state that [enqueueMessages], [catchUp],
    [fetchMissingDeltas], the content cache and the listeners of "resume" do
    not write to. *)
Definition session (s : DeltaManager) :=
  (clientType s, readonly s, updateSequenceNumberTimer s, updateHasBeenRequested s,
   minSequenceNumber s, baseSequenceNumber s, _outbound s, connecting s, connection s,
   clientSequenceNumber s, closed s, handler s, deltaStorageP s, listeners s, clock s,
   inboundWork s, outboundWork s, connects s, reconnectTimers s,
   callsOf (effects s)).

(** ** The state of the acknowledgement throttle *)

Definition ackState (s : DeltaManager) :=
  (readonly s, updateSequenceNumberTimer s, updateHasBeenRequested s).

(** A readonly manager has no acknowledgement timer armed, and a second
    update is only noted while a timer is armed. *)
Definition throttled (s : DeltaManager) : Prop :=
  (readonly s = true -> updateSequenceNumberTimer s = None) /\
  (updateSequenceNumberTimer s = None -> updateHasBeenRequested s = false).

(** The events that write to the state of the throttle. *)
Definition touchesAck (e : Event) : bool :=
  match e with
  | Submit _ _ | EnableReadonlyMode | DisableReadonlyMode | Close
  | Prepared | UpdateSequenceNumberTimeout => true
  | _ => false
  end.

(** ** Delivery to the handler *)

Definition delivery (s : DeltaManager) :=
  (baseSequenceNumber s, inboundWork s, processedOf (effects s)).

(** A message handed to [handler.prepare] is the one that follows
    [baseSequenceNumber]. *)
Definition expectsNext (s : DeltaManager) : Prop :=
  match inboundWork s with
  | AwaitPrepare m _ => sm_sequenceNumber m = baseSequenceNumber s + 1
  | _ => True
  end.

(** Since the state in which the handler had processed [before] and
    [baseSequenceNumber] was [start], the handler processed the numbers that
    follow [start], one by one, up to [baseSequenceNumber]. *)
Definition deliveredInOrder (before : list Z) (start : Z) (s : DeltaManager) : Prop :=
  expectsNext s /\
  exists k : nat,
    baseSequenceNumber s = start + Z.of_nat k /\
    processedOf (effects s) = before ++ zseq (start + 1) k.

Definition isAttachOpHandler (e : Event) : bool :=
  match e with AttachOpHandler _ _ => true | _ => false end.

(** The events of the inbound worker. *)
Definition isInboundWork (e : Event) : bool :=
  match e with
  | InboundRun | Prepared | PostProcessed | HandlerRejected | FetchContentSettled _ => true
  | _ => false
  end.

(** The worker takes a message, or gives up: nothing is processed, and a
    message handed to [prepare] is the next one. *)
Definition workerStarts (s s' : DeltaManager) : Prop :=
  baseSequenceNumber s' = baseSequenceNumber s /\
  processedOf (effects s') = processedOf (effects s) /\
  expectsNext s'.

(** ** The outbound worker *)



(** ** The worker of the signal queue *)

(** The signal as the worker hands it to [handler.processSignal], when its
    content is a string that [JSON.parse] takes. *)
Definition parsedSignal (JSON_parse : string -> option Contents) (message : ISignalMessage)
  : option ISignalMessage :=
  match sig_content message with
  | CString text =>
      option_map (fun content => mkSignal (sig_clientId message) content) (JSON_parse text)
  | _ => None
  end.

(** * The document service factory of the routerlicious driver *)

(** [routerlicious-socket-storage/src/documentServiceFactory.ts]: the
    factory of the [IDocumentService] that a [DeltaManager] is built on. *)
Module RouterliciousDocumentServiceFactory.

(** [resolvedUrl.endpoints]: a url that is not there is [undefined]. *)
Record Endpoints : Type := mkEndpoints {
storageUrl : option string;
ordererUrl : option string;
deltaStorageUrl : option string
}.

(** An [IPragueResolvedUrl], as far as the factory reads it; [jwt] is
  [tokens.jwt]. *)
Record ResolvedUrl : Type := mkResolvedUrl {
type : string;
endpoints : Endpoints;
jwt : option string
}.

Section Factory.

(** The services the factory only passes on. *)
Variables ErrorTracking GitCache Credentials : Type.

(** The parameters of the constructor. *)
Record Factory : Type := mkFactory {
useDocumentService2 : bool;
errorTracking : ErrorTracking;
disableCache : bool;
historianApi : bool;
gitCache : option GitCache;
credentials : option Credentials
}.

(** The two services, with the arguments of their constructors;
[tokenProvider] is [new TokenProvider(jwtToken)]. *)
Inductive Service : Type :=
| DocumentService (ordererUrl deltaStorageUrl : string) (storageUrl : option string)
(errorTracking : ErrorTracking) (disableCache historianApi : bool)
(credentials : option Credentials) (gitCache : option GitCache)
(tokenProvider : string)
| DocumentService2 (ordererUrl deltaStorageUrl : string) (storageUrl : option string)
(errorTracking : ErrorTracking) (disableCache historianApi : bool)
(credentials : option Credentials) (tokenProvider : string).

(** The promise returned: resolved, or rejected with a message. *)
Inductive Settled : Type :=
| Resolved (service : Service)
| Rejected (reason : string).

(** [!url]: not there, or the empty string. *)
Definition missing (url : option string) : bool :=
match url with
| Some text => String.eqb text EmptyString
| None => true
end.

(** A url inside a template literal. *)
Definition interpolated (url : option string) : string :=
match url with
| Some text => text
| None => "undefined"
end.

Definition createDocumentService (factory : Factory) (resolvedUrl : ResolvedUrl)
: Settled :=
if negb (String.eqb (type resolvedUrl) "prague") then
Rejected
  "Only Prague components currently supported in the RouterliciousDocumentServiceFactory"
else
let storageUrl := storageUrl (endpoints resolvedUrl) in
let ordererUrl := ordererUrl (endpoints resolvedUrl) in
let deltaStorageUrl := deltaStorageUrl (endpoints resolvedUrl) in
match ordererUrl, deltaStorageUrl with
| Some orderer, Some deltaStorage =>
    if missing ordererUrl || missing deltaStorageUrl then
      Rejected
        ("All endpoints urls must be provided. [ordererUrl:" ++
         interpolated ordererUrl ++ "][deltaStorageUrl:" ++
         interpolated deltaStorageUrl ++ "]")%string
    else
      match jwt resolvedUrl with
      | Some jwtToken =>
          if missing (Some jwtToken) then Rejected "Token was not provided."
          else if useDocumentService2 factory then
            Resolved
              (DocumentService2 orderer deltaStorage storageUrl
                 (errorTracking factory) (disableCache factory)
                 (historianApi factory) (credentials factory) jwtToken)
          else
            Resolved
              (DocumentService orderer deltaStorage storageUrl
                 (errorTracking factory) (disableCache factory)
                 (historianApi factory) (credentials factory) (gitCache factory)
                 jwtToken)
      | None => Rejected "Token was not provided."
      end
| _, _ =>
    Rejected
      ("All endpoints urls must be provided. [ordererUrl:" ++
       interpolated ordererUrl ++ "][deltaStorageUrl:" ++
       interpolated deltaStorageUrl ++ "]")%string
end.

(** The same resolved url with another storage url, and the same outcome
for another storage url. *)
Definition withStorageUrl (url : option string) (resolvedUrl : ResolvedUrl) : ResolvedUrl :=
mkResolvedUrl (type resolvedUrl)
(mkEndpoints url (ordererUrl (endpoints resolvedUrl))
   (deltaStorageUrl (endpoints resolvedUrl)))
(jwt resolvedUrl).

Definition servingStorage (url : option string) (outcome : Settled) : Settled :=
match outcome with
| Resolved (DocumentService o d _ e c h cr g t) =>
  Resolved (DocumentService o d url e c h cr g t)
| Resolved (DocumentService2 o d _ e c h cr t) =>
  Resolved (DocumentService2 o d url e c h cr t)
| Rejected reason => Rejected reason
end.

Definition isDocumentService2 (service : Service) : bool :=
match service with
| DocumentService2 _ _ _ _ _ _ _ _ => true
| DocumentService _ _ _ _ _ _ _ _ _ => false
end.

End Factory.

Arguments Resolved {ErrorTracking GitCache Credentials} service.
Arguments Rejected {ErrorTracking GitCache Credentials} reason.
Arguments createDocumentService {ErrorTracking GitCache Credentials} factory resolvedUrl.
Arguments servingStorage {ErrorTracking GitCache Credentials} url outcome.
Arguments isDocumentService2 {ErrorTracking GitCache Credentials} service.
Arguments useDocumentService2 {ErrorTracking GitCache Credentials} f.

End RouterliciousDocumentServiceFactory.

(** * The resolver plugin of tree-graphql *)

(** [tree-graphql/graphql-plugins/SharedTreeResolverPlugin.ts]: the
    functions that print the resolver of a field. *)
Module SharedTreeResolverPlugin.

(** [TypeNode] of the GraphQL syntax tree. *)
Inductive TypeNode : Type :=
| NamedType (name : string)
| NonNullType (type : TypeNode)
| ListType (type : TypeNode).

(** [undefined] or a boolean, as an optional field holds it. *)
Record FieldInfo : Type := mkFieldInfo {
typeName : string;
isNonNull : option bool;
isList : option bool
}.

Record FieldDefinitionNode : Type := mkFieldDefinition {
fieldName : string;
fieldType : TypeNode
}.

(** The resolvers exported by the module; a function is printed by its
  [name]. *)
Inductive Resolver : Type :=
| getString | getFloat | getInt | getBoolean | getID | getNodeID
| getStringList | getFloatList | getIntList | getBooleanList | getIDList
| getTrait | getNonNullTrait | getListTrait.

Definition name (resolver : Resolver) : string :=
match resolver with
| getString => "getString"
| getFloat => "getFloat"
| getInt => "getInt"
| getBoolean => "getBoolean"
| getID => "getID"
| getNodeID => "getNodeID"
| getStringList => "getStringList"
| getFloatList => "getFloatList"
| getIntList => "getIntList"
| getBooleanList => "getBooleanList"
| getIDList => "getIDList"
| getTrait => "getTrait"
| getNonNullTrait => "getNonNullTrait"
| getListTrait => "getListTrait"
end.

(** What a call comes to: the text returned, or an exception. *)
Inductive Thrown : Type :=
| UnrecognizedScalar (message : string)
| NotAnObject.

Inductive Outcome : Type :=
| Returns (text : string)
| Throws (e : Thrown).

(** [schema.getType(name)]: [None] when the schema has no such type, and
  else the [kind] of its [astNode], if it has one. *)
Definition GraphQLSchema : Type := string -> option (option string).

Definition truthy (flag : option bool) : bool :=
match flag with Some true => true | _ => false end.

Definition printResolver (fieldName : string) (resolver : Resolver) : string :=
(fieldName ++ ": " ++ name resolver ++ ",")%string.

Fixpoint unwrapField (fieldType : TypeNode) (isNonNull isList : option bool) : FieldInfo :=
match fieldType with
| NonNullType type => unwrapField type (Some true) isList
| ListType type => unwrapField type isNonNull (Some true)
| NamedType name => mkFieldInfo name isNonNull isList
end.

(** A [switch] over the names of the five scalar types. *)
Definition switchScalar {A : Type} (typeName : string)
  (onString onFloat onInt onBoolean onID : A) : option A :=
if String.eqb typeName "String" then Some onString
else if String.eqb typeName "Float" then Some onFloat
else if String.eqb typeName "Int" then Some onInt
else if String.eqb typeName "Boolean" then Some onBoolean
else if String.eqb typeName "ID" then Some onID
else None.

Definition isScalarTypeName (typeName : string) : bool :=
match switchScalar typeName true true true true true with
| Some result => result
| None => false
end.

Definition printScalarResolver (fieldName : string) (scalar : FieldInfo) : Outcome :=
let asList :=
  if truthy (isList scalar) then
    switchScalar (typeName scalar)
      getStringList getFloatList getIntList getBooleanList getIDList
  else None in
match asList with
| Some resolver => Returns (printResolver fieldName resolver)
| None =>
    match switchScalar (typeName scalar) getString getFloat getInt getBoolean getID with
    | Some resolver => Returns (printResolver fieldName resolver)
    | None =>
        Throws (UnrecognizedScalar ("Unrecognized scalar: " ++ typeName scalar)%string)
    end
end.

Section Printer.

(** [String.prototype.toLowerCase]. *)
Variable toLowerCase : string -> string.

Definition printFieldResolver (schema : GraphQLSchema) (fieldDef : FieldDefinitionNode)
: Outcome :=
let fieldName := fieldName fieldDef in
let fieldInfo := unwrapField (fieldType fieldDef) None None in
if String.eqb (typeName fieldInfo) "ID" &&
 (String.eqb (toLowerCase fieldName) "id" ||
  String.eqb (toLowerCase fieldName) "identifier")
then Returns (printResolver fieldName getNodeID)
else if isScalarTypeName (typeName fieldInfo) then printScalarResolver fieldName fieldInfo
else
match schema (typeName fieldInfo) with
| None => Throws NotAnObject
| Some astNodeKind =>
    if match astNodeKind with
       | Some kind => String.eqb kind "EnumTypeDefinition"
       | None => false
       end
    then
      printScalarResolver fieldName
        (mkFieldInfo "String" (isNonNull fieldInfo) (isList fieldInfo))
    else
      match fieldType fieldDef with
      | NamedType _ => Returns (printResolver fieldName getTrait)
      | NonNullType _ => Returns (printResolver fieldName getNonNullTrait)
      | ListType _ => Returns (printResolver fieldName getListTrait)
      end
end.

End Printer.

(** The name at the bottom of a type, and whether a list or a non-null
  marker occurs anywhere above it. *)
Fixpoint namedType (fieldType : TypeNode) : string :=
match fieldType with
| NamedType name => name
| NonNullType type | ListType type => namedType type
end.

Fixpoint hasList (fieldType : TypeNode) : bool :=
match fieldType with
| NamedType _ => false
| NonNullType type => hasList type
| ListType _ => true
end.

Fixpoint hasNonNull (fieldType : TypeNode) : bool :=
match fieldType with
| NamedType _ => false
| NonNullType _ => true
| ListType type => hasNonNull type
end.

End SharedTreeResolverPlugin.

(** ** Admission: proofs *)

Lemma lastQueued_observe M s :
  lastQueuedSequenceNumber (observe M s) = lastQueuedSequenceNumber s.
Proof. unfold observe. destruct (largestSequenceNumber s); reflexivity. Qed.

Lemma inbound_observe M s : _inbound (observe M s) = _inbound s.
Proof. unfold observe. destruct (largestSequenceNumber s); reflexivity. Qed.

Lemma pending_observe M s : pending (observe M s) = pending s.
Proof. unfold observe. destruct (largestSequenceNumber s); reflexivity. Qed.

Lemma largest_observe M s :
  largestSequenceNumber (observe M s) =
  option_map (fun largest => Z.max largest (sm_sequenceNumber M)) (largestSequenceNumber s).
Proof.
  unfold observe. destruct (largestSequenceNumber s) eqn:E; cbn; [reflexivity | exact E].
Qed.

Lemma largest_fetchMissingDeltas reason from to s :
  largestSequenceNumber (fetchMissingDeltas reason from to s) = largestSequenceNumber s.
Proof.
  unfold fetchMissingDeltas, callGetDeltas.
  destruct (fetching s); [reflexivity|]. cbn. destruct (closed s); reflexivity.
Qed.

Lemma enqueueMessage_next M s N :
  lastQueuedSequenceNumber s = Some N ->
  sm_sequenceNumber M = N + 1 ->
  enqueueMessage M s =
  let s1 := set_lastQueuedSequenceNumber (Some (sm_sequenceNumber M)) (observe M s) in
  set__inbound (Queue.push M (_inbound s1)) s1.
Proof.
  intros HN HM. unfold enqueueMessage. fold (observe M s).
  rewrite lastQueued_observe, HN, HM, Z.eqb_refl. reflexivity.
Qed.

Lemma enqueueMessage_gap M s N :
  lastQueuedSequenceNumber s = Some N ->
  N + 1 < sm_sequenceNumber M ->
  enqueueMessage M s =
  fetchMissingDeltas "HandleOutOfOrderMessage" N (Some (sm_sequenceNumber M))
    (set_pending (pending s ++ [M]) (observe M s)).
Proof.
  intros HN HM. unfold enqueueMessage. fold (observe M s).
  rewrite lastQueued_observe, HN.
  replace (sm_sequenceNumber M =? N + 1) with false by (symmetry; apply Z.eqb_neq; lia).
  cbn [negb]. unfold handleOutOfOrderMessage.
  rewrite lastQueued_observe, HN, pending_observe.
  replace (sm_sequenceNumber M <=? N) with false by (symmetry; apply Z.leb_gt; lia).
  reflexivity.
Qed.

Lemma enqueueMessage_duplicate M s N :
  lastQueuedSequenceNumber s = Some N ->
  sm_sequenceNumber M <= N ->
  enqueueMessage M s = log (LogDuplicateMessage N (sm_sequenceNumber M)) (observe M s).
Proof.
  intros HN HM. unfold enqueueMessage. fold (observe M s).
  rewrite lastQueued_observe, HN.
  replace (sm_sequenceNumber M =? N + 1) with false by (symmetry; apply Z.eqb_neq; lia).
  cbn [negb]. unfold handleOutOfOrderMessage.
  rewrite lastQueued_observe, HN.
  replace (sm_sequenceNumber M <=? N) with true by (symmetry; apply Z.leb_le; lia).
  reflexivity.
Qed.

Lemma app_singleton_neq {A : Type} (l : list A) (x : A) : l ++ [x] <> l.
Proof.
  intro H. apply (f_equal (@List.length A)) in H.
  rewrite length_app in H. simpl in H. lia.
Qed.

Lemma inbound_fetchMissingDeltas reason from to s :
  _inbound (fetchMissingDeltas reason from to s) = _inbound s.
Proof.
  unfold fetchMissingDeltas, callGetDeltas.
  destruct (fetching s); [reflexivity|]. cbn. destruct (closed s); reflexivity.
Qed.

Lemma lastQueued_fetchMissingDeltas reason from to s :
  lastQueuedSequenceNumber (fetchMissingDeltas reason from to s) = lastQueuedSequenceNumber s.
Proof.
  unfold fetchMissingDeltas, callGetDeltas.
  destruct (fetching s); [reflexivity|]. cbn. destruct (closed s); reflexivity.
Qed.

Lemma pending_fetchMissingDeltas reason from to s :
  pending (fetchMissingDeltas reason from to s) = pending s.
Proof.
  unfold fetchMissingDeltas, callGetDeltas.
  destruct (fetching s); [reflexivity|]. cbn. destruct (closed s); reflexivity.
Qed.

(** C1.  Gap-free admission.  With [lastQueuedSequenceNumber = N], an
    arriving message [M] is pushed onto the inbound queue, and
    [lastQueuedSequenceNumber] moved to its number, exactly when its number
    is [N + 1].  A message with a larger number is appended to [pending] and
    [fetchMissingDeltas N M.sequenceNumber] is called (which starts a
    [getDeltas] unless one is already under way).  A message with a number
    up to [N] is logged as a duplicate, and nothing but that log entry and
    [largestSequenceNumber] changes. *)
Theorem gap_free_admission :
  forall (M : ISequencedDocumentMessage) (s : DeltaManager) (N : Z),
    lastQueuedSequenceNumber s = Some N ->
    let s' := enqueueMessage M s in
    (* admitted if and only if next in line *)
    ((q_items (_inbound s') = q_items (_inbound s) ++ [M] /\
      lastQueuedSequenceNumber s' = Some (sm_sequenceNumber M))
     <-> sm_sequenceNumber M = N + 1) /\
    (sm_sequenceNumber M = N + 1 ->
       pending s' = pending s /\ effects s' = effects s /\ fetchP s' = fetchP s) /\
    (* a gap: buffered, and the missing deltas asked for *)
    (N + 1 < sm_sequenceNumber M ->
       pending s' = pending s ++ [M] /\
       _inbound s' = _inbound s /\
       lastQueuedSequenceNumber s' = Some N /\
       fetching s' = true /\
       s' = fetchMissingDeltas "HandleOutOfOrderMessage" N (Some (sm_sequenceNumber M))
              (set_pending (pending s ++ [M]) (observe M s)) /\
       (fetching s = false ->
          fetchP s' = Some (mkCall "HandleOutOfOrderMessage" (closed s) N
                              (Some (sm_sequenceNumber M))))) /\
    (* a duplicate: logged and dropped *)
    (sm_sequenceNumber M <= N ->
       s' = log (LogDuplicateMessage N (sm_sequenceNumber M)) (observe M s)) /\
    (* in every case *)
    largestSequenceNumber s' =
      option_map (fun largest => Z.max largest (sm_sequenceNumber M))
        (largestSequenceNumber s).
Proof.
  intros M s N HN s'.
  assert (Hcases : sm_sequenceNumber M = N + 1 \/ N + 1 < sm_sequenceNumber M \/
                   sm_sequenceNumber M <= N) by lia.
  repeat split.
  - intros [Hq Hl].
    destruct Hcases as [H | [H | H]]; [exact H | exfalso | exfalso]; subst s'.
    + rewrite (enqueueMessage_gap M s N HN H), inbound_fetchMissingDeltas in Hq.
      cbn in Hq. rewrite inbound_observe in Hq.
      symmetry in Hq. exact (app_singleton_neq _ _ Hq).
    + rewrite (enqueueMessage_duplicate M s N HN H) in Hq.
      cbn in Hq. rewrite inbound_observe in Hq.
      symmetry in Hq. exact (app_singleton_neq _ _ Hq).
  - subst s'. rewrite (enqueueMessage_next M s N HN H). cbn.
    rewrite inbound_observe. reflexivity.
  - subst s'. rewrite (enqueueMessage_next M s N HN H). reflexivity.
  - subst s'. rewrite (enqueueMessage_next M s N HN H). cbn. apply pending_observe.
  - subst s'. rewrite (enqueueMessage_next M s N HN H). cbn.
    unfold observe. destruct (largestSequenceNumber s); reflexivity.
  - subst s'. rewrite (enqueueMessage_next M s N HN H). cbn.
    unfold observe. destruct (largestSequenceNumber s); reflexivity.
  - subst s'. rewrite (enqueueMessage_gap M s N HN H), pending_fetchMissingDeltas.
    reflexivity.
  - subst s'. rewrite (enqueueMessage_gap M s N HN H), inbound_fetchMissingDeltas.
    cbn. apply inbound_observe.
  - subst s'. rewrite (enqueueMessage_gap M s N HN H), lastQueued_fetchMissingDeltas.
    cbn. rewrite lastQueued_observe. exact HN.
  - subst s'. rewrite (enqueueMessage_gap M s N HN H).
    unfold fetchMissingDeltas, callGetDeltas, observe.
    destruct (largestSequenceNumber s); cbn;
      destruct (fetching s) eqn:Hf; cbn; try exact Hf; destruct (closed s); reflexivity.
  - subst s'. apply (enqueueMessage_gap M s N HN H).
  - intro Hf. subst s'. rewrite (enqueueMessage_gap M s N HN H).
    unfold fetchMissingDeltas, callGetDeltas, observe.
    destruct (largestSequenceNumber s); cbn; rewrite Hf; cbn;
      destruct (closed s); reflexivity.
  - intro H. subst s'. apply (enqueueMessage_duplicate M s N HN H).
  - subst s'.
    destruct Hcases as [H | [H | H]].
    + rewrite (enqueueMessage_next M s N HN H). cbn. apply largest_observe.
    + rewrite (enqueueMessage_gap M s N HN H), largest_fetchMissingDeltas.
      cbn. apply largest_observe.
    + rewrite (enqueueMessage_duplicate M s N HN H). cbn. apply largest_observe.
Qed.

Lemma gap_free_admission_witness :
  lastQueuedSequenceNumber attached = Some 0 /\
  q_items (_inbound (enqueueMessage (exampleMessage 1) attached)) = [exampleMessage 1].
Proof.
  split; [reflexivity|].
  pose proof (gap_free_admission (exampleMessage 1) attached 0 eq_refl) as H.
  cbv zeta in H. destruct H as [[_ H] _].
  destruct (H eq_refl) as [Hq _]. exact Hq.
Defined.

(** ** The retry loop of [getDeltas] (C4) *)

Lemma fetchDelay_positive retry :
  0 < retry -> fetchDelay retry = Z.min MaxFetchDelay (MissingFetchDelay * 2 ^ retry).
Proof.
  intro H. unfold fetchDelay.
  replace (retry =? 0) with false by (symmetry; apply Z.eqb_neq; lia). reflexivity.
Qed.

(** After a failed or empty request the loop never sleeps 100 ms: the
    counter is incremented before the delay is computed. *)
Lemma fetchDelay_after_increment retry :
  0 <= retry -> 200 <= fetchDelay (retry + 1).
Proof.
  intro H. rewrite fetchDelay_positive by lia.
  unfold MaxFetchDelay, MissingFetchDelay.
  rewrite Z.pow_add_r by lia. change (2 ^ 1) with 2.
  assert (1 <= 2 ^ retry) by (apply Z.pow_pos_nonneg with (a := 2) in H; lia).
  lia.
Qed.

(** C4, counterexample.  With the upper bound 3 and storage answering
    [[]], [[]], [[]], then messages 1 and 2, the three sleeps between the
    four requests are 200, 400 and 800 ms, not 100, 200 and 400; and with no
    upper bound the first empty answer ends [getDeltas], without retry. *)
Lemma fetch_retry_delays_are_not_100_200_400 :
  let replies := [Deltas []; Deltas []; Deltas [];
                  Deltas [exampleMessage 1; exampleMessage 2]] in
  delaysOf (run_trace (getDeltas false 0 (Some 3) replies)) = [200; 400; 800] /\
  delaysOf (run_trace (getDeltas false 0 (Some 3) replies)) <> [100; 200; 400] /\
  getDeltas false 0 None replies = mkRun [StorageGet 0 2000] (Some []).
Proof.
  cbv zeta. split; [reflexivity|]. split; [|reflexivity].
  intro H. vm_compute in H. discriminate H.
Qed.

(** C4, as amended.  In a round of the loop of [getDeltas], with [retry]
    the counter before the round: a request that throws, and a request that
    returns no message while an upper bound [to] other than [from + 1] is
    set, increment the counter and delay the next request by
    [min(MaxFetchDelay, MissingFetchDelay * 2^(retry+1))], the constants
    being 10000 and 100; with no upper bound an empty answer ends the call;
    a non-empty answer that does not end the call sets the counter to 0
    (and the delay to 0).  With the bound 3 and storage answering nothing
    three times and then messages 1 and 2, the four requests are separated
    by 200, 400 and 800 ms and the call resolves with the two messages. *)
Theorem fetch_retry_backoff :
  forall (to : option Z) (retry from : Z) (allDeltas : list ISequencedDocumentMessage),
    0 <= retry ->
    MissingFetchDelay = 100 /\ MaxFetchDelay = 10000 /\
    getDeltas_iteration to retry from allDeltas Failure =
      Again (retry + 1) from allDeltas
        (Z.min MaxFetchDelay (MissingFetchDelay * 2 ^ (retry + 1))) /\
    (forall t, to = Some t -> t <> from + 1 ->
       getDeltas_iteration to retry from allDeltas (Deltas []) =
         Again (retry + 1) from allDeltas
           (Z.min MaxFetchDelay (MissingFetchDelay * 2 ^ (retry + 1)))) /\
    (to = None ->
       getDeltas_iteration to retry from allDeltas (Deltas []) = Return allDeltas) /\
    (forall d deltas,
       (forall all, getDeltas_iteration to retry from allDeltas (Deltas (d :: deltas))
                    <> Return all) ->
       getDeltas_iteration to retry from allDeltas (Deltas (d :: deltas)) =
         Again 0 (sm_sequenceNumber (last deltas d)) (allDeltas ++ d :: deltas) 0) /\
    (forall m1 m2,
       sm_sequenceNumber m2 = 2 ->
       let run := getDeltas false 0 (Some 3)
                    [Deltas []; Deltas []; Deltas []; Deltas [m1; m2]] in
       delaysOf (run_trace run) = [200; 400; 800] /\
       requestsOf (run_trace run) = [(0, 3); (0, 3); (0, 3); (0, 3)] /\
       run_result run = Some [m1; m2]).
Proof.
  intros to retry from allDeltas Hretry.
  split; [reflexivity|]. split; [reflexivity|].
  split; [|split; [|split; [|split]]].
  - unfold getDeltas_iteration. rewrite fetchDelay_positive by lia. reflexivity.
  - intros t Ht Hne. subst to. unfold getDeltas_iteration. cbn.
    replace (t =? from + 1) with false by (symmetry; apply Z.eqb_neq; lia).
    rewrite fetchDelay_positive by lia. rewrite app_nil_r. reflexivity.
  - intros Hto. subst to. unfold getDeltas_iteration. cbn.
    replace (from + MaxBatchDeltas =? from + 1) with false
      by (symmetry; apply Z.eqb_neq; unfold MaxBatchDeltas; lia).
    rewrite app_nil_r. reflexivity.
  - intros d deltas Hcont. unfold getDeltas_iteration in *. cbn in *.
    destruct (match to with
              | Some t => t =? sm_sequenceNumber (last deltas d) + 1
              | None => negb (from + MaxBatchDeltas =? sm_sequenceNumber (last deltas d) + 1)
              end).
    + exfalso. exact (Hcont _ eq_refl).
    + reflexivity.
  - intros m1 m2 H2 run. subst run. unfold getDeltas. cbn.
    rewrite H2. cbn. repeat split; reflexivity.
Qed.

Lemma fetch_retry_backoff_witness :
  Z.min MaxFetchDelay (MissingFetchDelay * 2 ^ (0 + 1)) = 200 /\
  getDeltas_iteration (Some 3) 0 0 [] Failure = Again 1 0 [] 200.
Proof.
  split; [reflexivity|].
  assert (H : 0 <= 0) by lia.
  destruct (fetch_retry_backoff (Some 3) 0 0 [] H) as (_ & _ & Hf & _).
  exact Hf.
Defined.

(** ** Shaping of system messages (C6) *)

Lemma submit_pushes isSystemType type contents s :
  let message :=
    createOutboundMessage isSystemType type
      (mkDocument (clientSequenceNumber s + 1) (ofNullable contents)
         (baseSequenceNumber s) [mkTrace "start" (clientType s) (clock s)] type None) in
  fst (submit isSystemType type contents s) = clientSequenceNumber s + 1 /\
  q_items (_outbound (snd (submit isSystemType type contents s))) =
    q_items (_outbound s) ++ [message] /\
  connection (snd (submit isSystemType type contents s)) = connection s /\
  q_paused (_outbound (snd (submit isSystemType type contents s))) = q_paused (_outbound s) /\
  q_systemPaused (_outbound (snd (submit isSystemType type contents s))) =
    q_systemPaused (_outbound s).
Proof.
  unfold submit, stopSequenceNumberUpdate, createOutboundMessage. cbn.
  destruct (isSystemType type); cbn;
    destruct (updateSequenceNumberTimer s); cbn; repeat split; reflexivity.
Qed.

(** C6, counterexample.  [submit] of a system type with [null] contents
    builds an envelope whose [data] is [null]. *)
Lemma system_message_data_may_be_null :
  let s := snd (submit isSystemType_spec ClientJoin None (create None 0)) in
  isSystemType_spec ClientJoin = true /\
  exists message,
    q_items (_outbound s) = [message] /\
    dm_contents message = CNull /\
    dm_data message = Some CNull.
Proof.
  cbv zeta. split; [reflexivity|].
  eexists. repeat split; reflexivity.
Qed.

(** C6, as amended.  The envelope that [submit(type, contents)] pushes for
    a system type has [contents = null] and a [data] field holding the
    contents that were supplied; so [data] is not [null] exactly when the
    supplied contents are not. *)
Theorem system_message_shaping :
  forall (isSystemType : MessageType -> bool) (type : MessageType)
         (contents : option string) (s : DeltaManager),
    isSystemType type = true ->
    exists message,
      q_items (_outbound (snd (submit isSystemType type contents s))) =
        q_items (_outbound s) ++ [message] /\
      dm_type message = type /\
      dm_contents message = CNull /\
      dm_data message = Some (ofNullable contents) /\
      (dm_data message <> Some CNull <-> contents <> None).
Proof.
  intros isSystemType type contents s Hsys.
  destruct (submit_pushes isSystemType type contents s) as (_ & Hq & _).
  cbv zeta in Hq. unfold createOutboundMessage in Hq. rewrite Hsys in Hq.
  eexists. split; [exact Hq|]. cbn.
  repeat split; try reflexivity.
  - intros H Hc. subst contents. apply H. reflexivity.
  - intros H Hd. destruct contents; [discriminate Hd | apply H; reflexivity].
Qed.

Lemma system_message_shaping_witness :
  isSystemType_spec ClientLeave = true /\
  exists message,
    q_items (_outbound (snd (submit isSystemType_spec ClientLeave (Some "bye")
                               (create None 0)))) = [message] /\
    dm_data message = Some (CString "bye").
Proof.
  split; [reflexivity|].
  destruct (system_message_shaping isSystemType_spec ClientLeave (Some "bye")
              (create None 0) eq_refl) as (message & Hq & _ & _ & Hd & _).
  exists message. split; [exact Hq | exact Hd].
Defined.

(** ** [close] (C7) *)

(** C7, counterexample.  [close] clears the queues and pauses none of them:
    the inbound queue of a manager that was processing is not paused after
    [close]. *)
Lemma close_does_not_pause :
  Queue.paused (_inbound attached) = false /\
  Queue.paused (_inbound (close attached)) = false.
Proof. split; reflexivity. Qed.

(** C7, as amended.  After [close], [closed] is set, the three queues are
    empty and their pause flags are what they were, the acknowledgement
    timer is cancelled, the connection, if there is one, was closed, the
    listeners of the manager are removed, and a [getDeltas] called from then
    on resolves with no message and without a request to storage. *)
Theorem close_is_terminal :
  forall (s : DeltaManager),
    let s' := close s in
    closed s' = true /\
    q_items (_inbound s') = [] /\
    q_items (_outbound s') = [] /\
    q_items (_inboundSignal s') = [] /\
    (q_paused (_inbound s'), q_systemPaused (_inbound s')) =
      (q_paused (_inbound s), q_systemPaused (_inbound s)) /\
    (q_paused (_outbound s'), q_systemPaused (_outbound s')) =
      (q_paused (_outbound s), q_systemPaused (_outbound s)) /\
    (q_paused (_inboundSignal s'), q_systemPaused (_inboundSignal s')) =
      (q_paused (_inboundSignal s), q_systemPaused (_inboundSignal s)) /\
    updateSequenceNumberTimer s' = None /\
    updateHasBeenRequested s' = false /\
    listeners s' = false /\
    effects s' =
      effects s
      ++ match updateSequenceNumberTimer s with Some _ => [ClearTimeout] | None => [] end
      ++ match connection s with Some _ => [ConnClose] | None => [] end /\
    (forall reason from to replies,
       let (call, s'') := callGetDeltas reason from to s' in
       effects s'' = effects s' ++ [LogGetDeltasClosedConnection] /\
       getDeltas (gd_closed call) (gd_from call) (gd_to call) replies = mkRun [] (Some [])).
Proof.
  intro s. unfold close, stopSequenceNumberUpdate, callGetDeltas, log. cbn.
  destruct (updateSequenceNumberTimer s); cbn; destruct (connection s); cbn;
    rewrite <- ?app_assoc, ?app_nil_r; cbn; repeat split; reflexivity.
Qed.

(** [close] does not stop what is under way: a message that the handler was
    preparing when [close] was called is given to [process] afterwards. *)
Lemma handler_called_after_close :
  let closing := [OnOp [exampleMessage 1]; InboundRun; Close] in
  processedOf (effects (run isSystemType_spec parse_any closing attached)) = [] /\
  processedOf (effects (run isSystemType_spec parse_any (closing ++ [Prepared]) attached))
  = [1].
Proof. vm_compute. split; reflexivity. Qed.

(** ** [submitSignal] and [submit] without a connection (C9) *)

(** C9.  On a manager that has no connection, [submitSignal] throws on the
    absent connection and queues nothing, while [submit] returns the new
    client sequence number and leaves the envelope on the outbound queue;
    the constructor left that queue paused, and while it is paused its
    worker does not run. *)
Theorem submitSignal_needs_connection :
  forall (isSystemType : MessageType -> bool) (s : DeltaManager)
         (content : Contents) (type : MessageType) (contents : option string),
    connection s = None ->
    submitSignal content s = Throw TypeError /\
    (forall clientType now,
       connection (create clientType now) = None /\
       Queue.paused (_outbound (create clientType now)) = true) /\
    let (n, s') := submit isSystemType type contents s in
    n = clientSequenceNumber s + 1 /\
    connection s' = None /\
    (exists message,
       dm_clientSequenceNumber message = n /\
       q_items (_outbound s') = q_items (_outbound s) ++ [message]) /\
    (Queue.paused (_outbound s) = true ->
     Queue.paused (_outbound s') = true /\ outboundRun s' = s').
Proof.
  intros isSystemType s content type contents Hc.
  split; [unfold submitSignal; rewrite Hc; reflexivity|].
  split; [intros; split; reflexivity|].
  destruct (submit isSystemType type contents s) as [n s'] eqn:E.
  destruct (submit_pushes isSystemType type contents s) as (Hn & Hq & Hc' & Hp1 & Hp2).
  rewrite E in Hn, Hq, Hc', Hp1, Hp2. cbn [fst snd] in *.
  split; [exact Hn|]. split; [congruence|]. split.
  - eexists. split; [|exact Hq].
    unfold createOutboundMessage. destruct (isSystemType type); cbn; symmetry; exact Hn.
  - intro Hp.
    assert (Hp' : Queue.paused (_outbound s') = true).
    { unfold Queue.paused in *. rewrite Hp1, Hp2. exact Hp. }
    split; [exact Hp'|].
    unfold outboundRun, Queue.ready. rewrite Hp'. cbn.
    destruct (outboundWork s'); reflexivity.
Qed.

Lemma submitSignal_needs_connection_witness :
  connection (create None 0) = None /\
  submitSignal CNull (create None 0) = Throw TypeError.
Proof.
  split; [reflexivity|].
  exact (proj1 (submitSignal_needs_connection isSystemType_spec (create None 0) CNull
                  Operation None eq_refl)).
Defined.

(** ** Runs *)

Lemma run_cons isSystemType JSON_parse e events s :
  run isSystemType JSON_parse (e :: events) s =
  run isSystemType JSON_parse events (step isSystemType JSON_parse e s).
Proof. reflexivity. Qed.

Lemma run_app isSystemType JSON_parse events events' s :
  run isSystemType JSON_parse (events ++ events') s =
  run isSystemType JSON_parse events' (run isSystemType JSON_parse events s).
Proof. unfold run. apply fold_left_app. Qed.

(** ** Reconnection of a browser client (C8) *)

Lemma backoff_step i :
  Z.min (Z.min (InitialReconnectDelay * 2 ^ Z.of_nat i) MaxReconnectDelay * 2)
    MaxReconnectDelay = backoff (S i).
Proof.
  unfold backoff. rewrite Nat2Z.inj_succ, Z.pow_succ_r by lia.
  unfold InitialReconnectDelay, MaxReconnectDelay. lia.
Qed.

Lemma backoff_capped i : (3 <= i)%nat -> backoff i = 8000.
Proof.
  intro H. unfold backoff, InitialReconnectDelay, MaxReconnectDelay.
  assert (2 ^ 3 <= 2 ^ Z.of_nat i) by (apply Z.pow_le_mono_r; lia).
  change (2 ^ 3) with 8 in *. lia.
Qed.

(** A chain of failed attempts: each failure waits [backoff], then a new
    attempt is made with twice that delay as its argument. *)
Lemma failures_trace isSystemType JSON_parse n :
  forall (i : nat) (delay : Z) (s : DeltaManager),
    connects s = [delay] ->
    reconnectTimers s = [] ->
    Z.min delay MaxReconnectDelay = backoff i ->
    let s' := run isSystemType JSON_parse (failures n) s in
    effects s' = effects s ++ flat_map failureTrace (seq i n) /\
    reconnectTimers s' = [] /\
    exists delay', connects s' = [delay'] /\ Z.min delay' MaxReconnectDelay = backoff (i + n).
Proof.
  induction n as [|n IH]; intros i delay s Hc Ht Hd; cbn zeta.
  - cbn. rewrite app_nil_r, Nat.add_0_r. repeat split; trivial. eauto.
  - cbn [failures]. rewrite !run_cons.
    set (s1 := step isSystemType JSON_parse (ReconnectTimeout 0)
                 (step isSystemType JSON_parse (ConnectRejected 0) s)).
    assert (H1 : effects s1 = effects s ++ failureTrace i /\
                 reconnectTimers s1 = [] /\
                 connects s1 = [backoff i * 2]).
    { subst s1. cbn. unfold connectRejected. rewrite Hc. cbn.
      unfold reconnectTimeout. cbn. rewrite Ht. cbn. rewrite Hd.
      unfold log, failureTrace. cbn. rewrite <- !app_assoc. cbn. repeat split. }
    destruct H1 as (He & Ht1 & Hc1).
    destruct (IH (S i) (backoff i * 2) s1 Hc1 Ht1) as (He' & Ht' & delay' & Hc' & Hd').
    { unfold backoff at 1. apply backoff_step. }
    cbn zeta in He'. split; [|split; [exact Ht'|]].
    + rewrite He', He, <- app_assoc. reflexivity.
    + exists delay'. split; [exact Hc'|]. rewrite Hd'. f_equal. lia.
Qed.

Lemma delaysOf_app a b : delaysOf (a ++ b) = delaysOf a ++ delaysOf b.
Proof. unfold delaysOf. apply flat_map_app. Qed.

Lemma delaysOf_failures n i :
  delaysOf (flat_map failureTrace (seq i n)) = map backoff (seq i n).
Proof.
  revert i. induction n as [|n IH]; intro i; cbn; [reflexivity|].
  f_equal. apply IH.
Qed.

(** C8.  When the connection of a browser client reports "disconnect", the
    outbound queue is paused and cleared, "disconnect" is emitted with
    [false], and a connection is attempted at once.  If the attempts keep
    failing, the waits before the successive retries are
    [min(1000 * 2^i, 8000)]: 1000, 2000, 4000, 8000, 8000, ... ms. *)
Theorem browser_reconnect_backoff :
  forall (isSystemType : MessageType -> bool) (JSON_parse : string -> option Contents)
         (s : DeltaManager) (n : nat),
    clientType s = Browser ->
    connected s = true ->
    connects s = [] ->
    reconnectTimers s = [] ->
    let s1 := step isSystemType JSON_parse OnDisconnect s in
    let s2 := run isSystemType JSON_parse (failures n) s1 in
    q_systemPaused (_outbound s1) = true /\
    Queue.paused (_outbound s1) = true /\
    q_items (_outbound s1) = [] /\
    effects s1 =
      effects s ++ (if listeners s then [Emit (EvtDisconnect false)] else [])
      ++ [Connect "Reconnecting on disconnect"] /\
    connects s1 = [InitialReconnectDelay] /\
    (exists trace,
       effects s2 = effects s1 ++ trace /\
       delaysOf trace = map backoff (seq 0 n)) /\
    map backoff (seq 0 5) = [1000; 2000; 4000; 8000; 8000] /\
    (forall i, (3 <= i)%nat -> backoff i = MaxReconnectDelay).
Proof.
  intros isSystemType JSON_parse s n Hb Hconn Hc Ht s1 s2.
  assert (H1 : q_systemPaused (_outbound s1) = true /\
               q_items (_outbound s1) = [] /\
               effects s1 =
                 effects s ++ (if listeners s then [Emit (EvtDisconnect false)] else [])
                 ++ [Connect "Reconnecting on disconnect"] /\
               connects s1 = [InitialReconnectDelay] /\
               reconnectTimers s1 = []).
  { subst s1. unfold step. rewrite Hconn.
    unfold onDisconnect, reconnect, emit, connectCore, log.
    cbn -[String.eqb Browser].
    destruct (listeners s); cbn -[String.eqb Browser]; rewrite Hb;
      change (String.eqb Browser Browser) with true; cbn;
      rewrite Hc, ?Ht, <- ?app_assoc; repeat split. }
  destruct H1 as (Hp & Hi & He & Hc1 & Ht1).
  destruct (failures_trace isSystemType JSON_parse n 0 InitialReconnectDelay s1 Hc1 Ht1)
    as (He2 & _); [reflexivity|].
  split; [exact Hp|]. split; [unfold Queue.paused; rewrite Hp; apply orb_true_r|].
  split; [exact Hi|]. split; [exact He|]. split; [exact Hc1|].
  split; [|split; [reflexivity | exact backoff_capped]].
  exists (flat_map failureTrace (seq 0 n)). split; [exact He2 | apply delaysOf_failures].
Qed.

Lemma browser_reconnect_backoff_witness :
  clientType attached = Browser /\
  connected attached = true /\
  connects attached = [] /\
  reconnectTimers attached = [] /\
  exists trace,
    effects (run isSystemType_spec parse_any (failures 5)
               (step isSystemType_spec parse_any OnDisconnect attached)) =
      effects (step isSystemType_spec parse_any OnDisconnect attached) ++ trace /\
    delaysOf trace = map backoff (seq 0 5).
Proof.
  repeat (split; [reflexivity|]).
  exact (proj1 (proj2 (proj2 (proj2 (proj2 (proj2
    (browser_reconnect_backoff isSystemType_spec parse_any attached 5
       eq_refl eq_refl eq_refl eq_refl))))))).
Defined.

(** ** Late content (C3) *)

(** C3, the code at the failing input.  The envelope "C"/7 arrived without
    contents when the cache had nothing for "C": the worker registered the
    listener and called [getDeltas] for the content.  When the content then
    arrives on "op-content", the listener takes it out of the cache and
    deregisters itself, and the value goes nowhere: the worker is still
    waiting for the promise of [fetchContent], nothing was handed to the
    handler, no worker event makes progress, and the payload is in the cache
    no more. *)
Theorem late_content_is_dropped :
  let s := awaitingContent in
  let s' := step isSystemType_spec parse_any (OnOpContent lateContent) s in
  Cache.peek "C" (contentCache attached) = None /\
  inboundWork s =
    AwaitContent envelope (mkCall "fetchContent" false 1 (Some 1)) true /\
  lateContentHandlers s = [("C", 7)] /\
  inboundWork s' = inboundWork s /\
  lateContentHandlers s' = [] /\
  cc_entries (contentCache s') = [] /\
  effects s' = effects s /\
  processedOf (effects s') = [] /\
  run isSystemType_spec parse_any [InboundRun; Prepared; PostProcessed] s' = s'.
Proof. vm_compute. repeat split. Qed.

(** ** Preservation of a property along the methods *)

Lemma fold_left_keeps {A : Type} (P : DeltaManager -> Prop)
    (f : DeltaManager -> A -> DeltaManager) (l : list A) :
  (forall s x, P s -> P (f s x)) -> forall s, P s -> P (fold_left f l s).
Proof.
  intro Hf. induction l as [|x l IH]; intros s Hs; cbn; [exact Hs|].
  apply IH, Hf, Hs.
Qed.

(** The methods that loop are kept folded; each has its own lemma. *)
Arguments enqueueMessages : simpl never.
Arguments catchUp : simpl never.
Arguments contentCacheSet : simpl never.
Arguments enqueInitalOps : simpl never.
Arguments enqueInitalSignals : simpl never.
Arguments inboundResumed : simpl never.
Arguments signalResumed : simpl never.
Arguments submit : simpl never.
Arguments updateSequenceNumber : simpl never.
Arguments processInboundOp : simpl never.
Arguments inboundError : simpl never.
Arguments fetchMissingDeltas : simpl never.

(** Case analysis on an innermost scrutinee of the goal. *)
Ltac break_goal :=
  match goal with
  | |- context [match ?x with _ => _ end] =>
      lazymatch x with
      | context [match _ with _ => _ end] => fail
      | _ => destruct x eqn:?
      end
  end.

(** ** The latch of [fetching] (C10) *)

Lemma latched_fetchMissingDeltas b reason from to s :
  latched b s -> fetchMissingDeltas reason from to s = log (LogAlreadyFetching reason from) s.
Proof.
  intro H. injection H as Hf _. unfold fetchMissingDeltas. rewrite Hf. reflexivity.
Qed.

Lemma latched_fetchMissingDeltas_keeps b reason from to s :
  latched b s -> latched b (fetchMissingDeltas reason from to s).
Proof. intro H. rewrite (latched_fetchMissingDeltas b) by exact H. exact H. Qed.

Lemma latched_enqueueMessage b m s : latched b s -> latched b (enqueueMessage m s).
Proof.
  intro H. unfold enqueueMessage, handleOutOfOrderMessage.
  repeat first [exact H | apply latched_fetchMissingDeltas_keeps | break_goal].
Qed.

Lemma latched_enqueueMessages b ms s : latched b s -> latched b (enqueueMessages ms s).
Proof.
  unfold enqueueMessages. apply fold_left_keeps.
  intros; apply latched_enqueueMessage; assumption.
Qed.

Lemma latched_catchUp b reason ms s : latched b s -> latched b (catchUp reason ms s).
Proof.
  intro H. unfold catchUp. apply latched_enqueueMessages.
  unfold latched. cbn. apply latched_enqueueMessages. exact H.
Qed.

Lemma latched_lateContentHandler b r clId s :
  latched b s -> latched b (lateContentHandler r clId s).
Proof.
  intro H. unfold lateContentHandler. repeat first [exact H | break_goal].
Qed.

Lemma latched_contentCacheSet b c s : latched b s -> latched b (contentCacheSet c s).
Proof.
  intro H. unfold contentCacheSet. apply fold_left_keeps.
  - intros; apply latched_lateContentHandler; assumption.
  - exact H.
Qed.

Lemma latched_enqueInitalOps b i s : latched b s -> latched b (enqueInitalOps i s).
Proof.
  intro H. unfold enqueInitalOps. destruct i as [ms cs].
  assert (H1 : latched b (fold_left (fun s c => contentCacheSet c s) cs s)).
  { apply fold_left_keeps; [|exact H]. intros; apply latched_contentCacheSet; assumption. }
  destruct ms; [exact H1 | apply latched_catchUp, H1].
Qed.

Lemma latched_enqueInitalSignals b l s : latched b s -> latched b (enqueInitalSignals l s).
Proof.
  intro H. unfold enqueInitalSignals. apply fold_left_keeps; [|exact H].
  intros s0 x H0. exact H0.
Qed.

Lemma latched_inboundResumed b q s : latched b s -> latched b (inboundResumed q s).
Proof.
  intro H. unfold inboundResumed. destruct (Queue.resumes q (_inbound s)); [|exact H].
  apply fold_left_keeps; [|exact H]. intros; apply latched_enqueInitalOps; assumption.
Qed.

Lemma latched_signalResumed b q s : latched b s -> latched b (signalResumed q s).
Proof.
  intro H. unfold signalResumed. destruct (Queue.resumes q (_inboundSignal s)); [|exact H].
  apply fold_left_keeps; [|exact H]. intros; apply latched_enqueInitalSignals; assumption.
Qed.

Lemma latched_submit b isSystemType type contents s :
  latched b s -> latched b (snd (submit isSystemType type contents s)).
Proof.
  intro H. unfold submit, stopSequenceNumberUpdate, log.
  destruct (updateSequenceNumberTimer _); exact H.
Qed.

Lemma latched_updateSequenceNumber b isSystemType type s :
  latched b s -> latched b (updateSequenceNumber isSystemType type s).
Proof.
  intro H. unfold updateSequenceNumber.
  destruct (readonly s); [exact H|].
  destruct (isPropose type); [apply latched_submit, H|].
  destruct (updateSequenceNumberTimer s); exact H.
Qed.

Lemma latched_inboundError b e s : latched b s -> latched b (inboundError e s).
Proof. intro H. unfold inboundError, emit, log. cbn. destruct (listeners s); exact H. Qed.

Lemma latched_processInboundOp b JSON_parse op sync s :
  latched b s -> latched b (processInboundOp JSON_parse op sync s).
Proof.
  intro H. unfold processInboundOp, processMessage.
  repeat first [exact H | apply latched_inboundError | break_goal].
Qed.

(** One method call deeper, or through the assignments. *)
Ltac latch :=
  repeat first
    [ assumption
    | congruence
    | match goal with
      | |- (fetching ?x, if ?b then fetchP ?x else None) = (true, None) => change (latched b x)
      end;
      first [ apply latched_fetchMissingDeltas_keeps
            | apply latched_enqueueMessages
            | apply latched_catchUp
            | apply latched_contentCacheSet
            | apply latched_enqueInitalOps
            | apply latched_enqueInitalSignals
            | apply latched_inboundResumed
            | apply latched_signalResumed
            | apply latched_submit
            | apply latched_updateSequenceNumber
            | apply latched_inboundError
            | apply latched_processInboundOp ]
    | progress unfold latched
    | progress cbn
    | break_goal ].

(** Every event leaves the latch as it is, the success of the call under way
    excepted. *)
Lemma latched_step isSystemType JSON_parse b e s :
  latched b s ->
  b = true \/ isGetDeltasSettled e = false ->
  latched b (step isSystemType JSON_parse e s).
Proof.
  intros H Hb.
  destruct e; unfold step;
    unfold attachOpHandler, inboundSystemResume, signalSystemResume,
      inboundResume, signalResume, connect, connectCore, submitSignal,
      enableReadonlyMode, disableReadonlyMode, close, stopSequenceNumberUpdate,
      connectResolved, processInitialMessages, connectRejected, reconnectTimeout,
      deltaStorageConnected, onOp, onOpContent, onSignal, onDisconnect,
      inboundRun, handleOpContent, mergeAndProcess, callGetDeltas,
      outboundRun, outboundError, signalRun, signalError,
      prepared, postProcessed, handlerRejected, fetchContentSettled,
      getDeltasRejected, submitAsyncResolved, submitAsyncRejected,
      updateSequenceNumberTimeout.
  all: unfold outboundError, signalError, emit, log, logAll.
  all: try solve [latch].
  (* GetDeltasSettled *)
  destruct Hb as [Hb | Hb]; [subst b | discriminate Hb].
  pose proof H as H'. injection H' as _ Hp. unfold getDeltasSettled. rewrite Hp.
  exact H.
Qed.

Lemma latched_run isSystemType JSON_parse b events s :
  latched b s ->
  b = true \/ forallb (fun e => negb (isGetDeltasSettled e)) events = true ->
  latched b (run isSystemType JSON_parse events s).
Proof.
  revert s. induction events as [|e events IH]; intros s H Hb; [exact H|].
  rewrite run_cons. apply IH.
  - apply latched_step; [exact H|].
    destruct Hb as [Hb | Hb]; [left; exact Hb | right].
    cbn in Hb. apply andb_prop in Hb. destruct (isGetDeltasSettled e); [|reflexivity].
    destruct Hb as [Hb _]. discriminate Hb.
  - destruct Hb as [Hb | Hb]; [left; exact Hb | right].
    cbn in Hb. apply andb_prop in Hb. apply Hb.
Qed.

(** C10.  [fetchMissingDeltas] sets [fetching], and only the success
    callback of its [getDeltas] clears it: while the call is under way
    nothing else does.  When the promise then rejects, [fetching] stays set
    whatever happens to the manager afterwards, no [getDeltas] for missing
    deltas is under way again, and every later call of [fetchMissingDeltas]
    logs that a fetch is under way and returns. *)
Theorem gap_fill_latch :
  forall (isSystemType : MessageType -> bool) (JSON_parse : string -> option Contents)
         (s : DeltaManager) (reason : string) (from : Z) (to : option Z)
         (before after : list Event),
    fetching s = false ->
    forallb (fun e => negb (isGetDeltasSettled e)) before = true ->
    let s1 := fetchMissingDeltas reason from to s in
    let s2 := run isSystemType JSON_parse before s1 in
    let s3 := run isSystemType JSON_parse (GetDeltasRejected :: after) s2 in
    fetching s1 = true /\
    fetchP s1 = Some (mkCall reason (closed s) from to) /\
    fetching s2 = true /\
    fetching s3 = true /\
    fetchP s3 = None /\
    (forall reason' from' to',
       fetchMissingDeltas reason' from' to' s3 =
       log (LogAlreadyFetching reason' from') s3).
Proof.
  intros isSystemType JSON_parse s reason from to before after Hf Hbefore s1 s2 s3.
  assert (H1 : fetching s1 = true /\ fetchP s1 = Some (mkCall reason (closed s) from to)).
  { subst s1. unfold fetchMissingDeltas, callGetDeltas. rewrite Hf. cbn.
    destruct (closed s); split; reflexivity. }
  assert (L1 : latched false s1) by (unfold latched; rewrite (proj1 H1); reflexivity).
  assert (L2 : latched false s2)
    by (apply latched_run; [exact L1 | right; exact Hbefore]).
  assert (L3 : latched true s3).
  { subst s3. rewrite run_cons. apply latched_run; [|left; reflexivity].
    unfold latched in *. cbn. injection L2 as L2. rewrite L2. reflexivity. }
  destruct H1 as [H1 H1']. injection L2 as L2. pose proof L3 as L3'.
  injection L3' as L3a L3b.
  repeat split; try assumption.
  intros. apply (latched_fetchMissingDeltas true). exact L3.
Qed.

Lemma gap_fill_latch_witness :
  fetching attached = false /\
  fetching (run isSystemType_spec parse_any
              [GetDeltasRejected; OnOp [exampleMessage 7]; OnOp [exampleMessage 9]]
              (run isSystemType_spec parse_any [OnOp [exampleMessage 3]]
                 (fetchMissingDeltas "HandleOutOfOrderMessage" 0 (Some 5) attached))) = true.
Proof.
  split; [reflexivity|].
  exact (proj1 (proj2 (proj2 (proj2
    (gap_fill_latch isSystemType_spec parse_any attached "HandleOutOfOrderMessage" 0
       (Some 5) [OnOp [exampleMessage 3]]
       [OnOp [exampleMessage 7]; OnOp [exampleMessage 9]] eq_refl eq_refl))))).
Defined.

(** ** Readonly mode (C5) *)

Lemma noOpsOf_app a b : noOpsOf (a ++ b) = noOpsOf a ++ noOpsOf b.
Proof. unfold noOpsOf. apply flat_map_app. Qed.

Lemma noOpsOf_getDeltas_loop to replies :
  forall retry from all, noOpsOf (run_trace (getDeltas_loop to retry from all replies)) = [].
Proof.
  induction replies as [|r replies IH]; intros retry from all; cbn; [reflexivity|].
  destruct (getDeltas_iteration to retry from all r); cbn; [reflexivity | apply IH].
Qed.

Lemma noOpsOf_settle call replies s trace messages :
  settle call replies s = Some (trace, messages) -> noOpsOf trace = [].
Proof.
  unfold settle, getDeltas. intro H.
  destruct (gd_closed call || storageReady s); [|discriminate H].
  destruct (gd_closed call).
  - cbn in H. injection H as <- _. reflexivity.
  - destruct (run_result _) eqn:E in H; [|discriminate H].
    injection H as <- _. apply noOpsOf_getDeltas_loop.
Qed.

Lemma silent_log acks e s :
  noOpsOf [e] = [] -> silent acks s -> silent acks (log e s).
Proof.
  intros He H. unfold silent, log in *. cbn.
  rewrite noOpsOf_app, He, app_nil_r. exact H.
Qed.

Lemma silent_logAll acks es s :
  noOpsOf es = [] -> silent acks s -> silent acks (logAll es s).
Proof.
  intros He H. unfold silent, logAll in *. cbn.
  rewrite noOpsOf_app, He, app_nil_r. exact H.
Qed.

Lemma silent_emit acks e s : silent acks s -> silent acks (emit e s).
Proof.
  intro H. unfold emit. destruct (listeners s); [|exact H].
  apply silent_log; [reflexivity | exact H].
Qed.

Lemma silent_fetchMissingDeltas acks reason from to s :
  silent acks s -> silent acks (fetchMissingDeltas reason from to s).
Proof.
  intro H. unfold fetchMissingDeltas, callGetDeltas.
  destruct (fetching s); [apply silent_log; [reflexivity | exact H]|].
  cbn. destruct (closed s); apply (silent_log acks _ (set_fetching true s));
    solve [reflexivity | exact H].
Qed.

Lemma silent_enqueueMessage acks m s : silent acks s -> silent acks (enqueueMessage m s).
Proof.
  intro H. unfold enqueueMessage, handleOutOfOrderMessage.
  repeat first [ exact H
               | apply silent_fetchMissingDeltas
               | apply silent_log; [reflexivity|]
               | break_goal ].
Qed.

Lemma silent_enqueueMessages acks ms s : silent acks s -> silent acks (enqueueMessages ms s).
Proof.
  unfold enqueueMessages. apply fold_left_keeps.
  intros; apply silent_enqueueMessage; assumption.
Qed.

Lemma silent_catchUp acks reason ms s : silent acks s -> silent acks (catchUp reason ms s).
Proof.
  intro H. unfold catchUp. apply silent_enqueueMessages.
  change (silent acks
            (enqueueMessages ms
               (log (LogCatchUp reason (List.length ms) (List.length (pending s))) s))).
  apply silent_enqueueMessages, silent_log; [reflexivity | exact H].
Qed.

Lemma silent_lateContentHandler acks r clId s :
  silent acks s -> silent acks (lateContentHandler r clId s).
Proof.
  intro H. unfold lateContentHandler. repeat first [exact H | break_goal].
Qed.

Lemma silent_contentCacheSet acks c s : silent acks s -> silent acks (contentCacheSet c s).
Proof.
  intro H. unfold contentCacheSet. apply fold_left_keeps.
  - intros; apply silent_lateContentHandler; assumption.
  - exact H.
Qed.

Lemma silent_enqueInitalOps acks i s : silent acks s -> silent acks (enqueInitalOps i s).
Proof.
  intro H. unfold enqueInitalOps. destruct i as [ms cs].
  assert (H1 : silent acks (fold_left (fun s c => contentCacheSet c s) cs s)).
  { apply fold_left_keeps; [|exact H]. intros; apply silent_contentCacheSet; assumption. }
  destruct ms; [exact H1 | apply silent_catchUp, H1].
Qed.

Lemma silent_enqueInitalSignals acks l s :
  silent acks s -> silent acks (enqueInitalSignals l s).
Proof.
  intro H. unfold enqueInitalSignals. apply fold_left_keeps; [|exact H].
  intros s0 x H0. exact H0.
Qed.

Lemma silent_inboundResumed acks q s : silent acks s -> silent acks (inboundResumed q s).
Proof.
  intro H. unfold inboundResumed. destruct (Queue.resumes q (_inbound s)); [|exact H].
  apply fold_left_keeps; [|exact H]. intros; apply silent_enqueInitalOps; assumption.
Qed.

Lemma silent_signalResumed acks q s : silent acks s -> silent acks (signalResumed q s).
Proof.
  intro H. unfold signalResumed. destruct (Queue.resumes q (_inboundSignal s)); [|exact H].
  apply fold_left_keeps; [|exact H]. intros; apply silent_enqueInitalSignals; assumption.
Qed.

(** A readonly client does not acknowledge: [updateSequenceNumber] returns
    at once. *)
Lemma silent_updateSequenceNumber acks isSystemType type s :
  silent acks s -> updateSequenceNumber isSystemType type s = s.
Proof.
  intro H. injection H as Hr _ _. unfold updateSequenceNumber. rewrite Hr. reflexivity.
Qed.

Lemma silent_updateSequenceNumber_keeps acks isSystemType type s :
  silent acks s -> silent acks (updateSequenceNumber isSystemType type s).
Proof. intro H. rewrite (silent_updateSequenceNumber acks) by exact H. exact H. Qed.

Lemma silent_inboundError acks e s : silent acks s -> silent acks (inboundError e s).
Proof. intro H. unfold inboundError. apply silent_emit. exact H. Qed.

Lemma silent_processInboundOp acks JSON_parse op sync s :
  silent acks s -> silent acks (processInboundOp JSON_parse op sync s).
Proof.
  intro H. unfold processInboundOp, processMessage.
  repeat first [ exact H
               | apply silent_inboundError
               | apply (silent_log acks _ s); [reflexivity|]
               | break_goal ].
Qed.

Arguments noOpsOf : simpl never.

Ltac silent :=
  repeat first
    [ assumption
    | congruence
    | match goal with
      | |- context [noOpsOf (?a ++ ?b)] =>
          rewrite (noOpsOf_app a b);
          let r := eval cbv in (noOpsOf b) in change (noOpsOf b) with r;
          rewrite ?app_nil_r
      end
    | match goal with
      | |- (readonly ?x, updateSequenceNumberTimer ?x, noOpsOf (effects ?x)) = (true, None, ?c) =>
          change (silent c x)
      end;
      first [ apply silent_log; [reflexivity|]
            | apply silent_logAll; [solve [reflexivity | eauto using noOpsOf_settle]|]
            | apply silent_emit
            | apply silent_fetchMissingDeltas
            | apply silent_enqueueMessages
            | apply silent_catchUp
            | apply silent_contentCacheSet
            | apply silent_enqueInitalOps
            | apply silent_enqueInitalSignals
            | apply silent_inboundResumed
            | apply silent_signalResumed
            | apply silent_updateSequenceNumber_keeps
            | apply silent_inboundError
            | apply silent_processInboundOp ]
    | progress unfold silent
    | progress cbn
    | break_goal ].

Lemma silent_step isSystemType JSON_parse acks e s :
  silent acks s ->
  keepsReadonly e = true ->
  silent acks (step isSystemType JSON_parse e s).
Proof.
  intros H Hq. pose proof H as H'. injection H' as Hr Ht Ha.
  destruct e; try discriminate Hq; unfold step;
    unfold attachOpHandler, inboundSystemResume, signalSystemResume,
      inboundResume, signalResume, connect, connectCore, submitSignal,
      enableReadonlyMode, close, stopSequenceNumberUpdate,
      connectResolved, processInitialMessages, connectRejected, reconnectTimeout,
      deltaStorageConnected, onOp, onOpContent, onSignal, onDisconnect,
      inboundRun, handleOpContent, mergeAndProcess, callGetDeltas,
      outboundRun, outboundError, signalRun, signalError,
      prepared, postProcessed, handlerRejected, fetchContentSettled,
      getDeltasSettled, fetchMissingDeltasResolved, getDeltasRejected,
      submitAsyncResolved, submitAsyncRejected, updateSequenceNumberTimeout.
  all: unfold outboundError, signalError.
  all: try rewrite Ht.
  all: silent.
Qed.

Lemma silent_run isSystemType JSON_parse acks events s :
  silent acks s ->
  forallb keepsReadonly events = true ->
  silent acks (run isSystemType JSON_parse events s).
Proof.
  revert s. induction events as [|e events IH]; intros s H Hq; [exact H|].
  cbn in Hq. apply andb_prop in Hq. destruct Hq as [He Hq].
  rewrite run_cons. apply IH; [|exact Hq]. apply silent_step; assumption.
Qed.

(** C5.  A manager that is readonly has no acknowledgement timer armed
    (the constructor starts that way and [enableReadonlyMode] cancels the
    timer).  From such a state, as long as there is no local [submit] and no
    [disableReadonlyMode], whatever happens (any number of messages of any
    type processed, any event of the connection, of the queues or of the
    timers), no [NoOp] is pushed onto the outbound queue, and the manager
    stays readonly. *)
Theorem readonly_suppresses_acks :
  forall (isSystemType : MessageType -> bool) (JSON_parse : string -> option Contents)
         (s : DeltaManager) (events : list Event),
    readonly s = true ->
    updateSequenceNumberTimer s = None ->
    forallb keepsReadonly events = true ->
    let s' := run isSystemType JSON_parse events s in
    noOpsOf (effects s') = noOpsOf (effects s) /\
    readonly s' = true /\
    (forall type, updateSequenceNumber isSystemType type s' = s') /\
    (forall s0, readonly (enableReadonlyMode s0) = true /\
                updateSequenceNumberTimer (enableReadonlyMode s0) = None) /\
    (forall clientType now,
       readonly (create clientType now) = true /\
       updateSequenceNumberTimer (create clientType now) = None).
Proof.
  intros isSystemType JSON_parse s events Hr Ht Hq s'.
  assert (H : silent (noOpsOf (effects s)) s) by (unfold silent; rewrite Hr, Ht; reflexivity).
  pose proof (silent_run isSystemType JSON_parse _ events s H Hq) as H'.
  fold s' in H'. pose proof H' as H''. injection H'' as Hr' _ Ha'.
  split; [exact Ha'|]. split; [exact Hr'|]. split; [|split].
  - intro type. apply (silent_updateSequenceNumber (noOpsOf (effects s))). exact H'.
  - intro s0. split; reflexivity.
  - intros. split; reflexivity.
Qed.

Lemma readonly_suppresses_acks_witness :
  readonly (enableReadonlyMode attached) = true /\
  updateSequenceNumberTimer (enableReadonlyMode attached) = None /\
  noOpsOf (effects (run isSystemType_spec parse_any
                      [OnOp [exampleMessage 1]; InboundRun; Prepared; PostProcessed;
                       UpdateSequenceNumberTimeout]
                      (enableReadonlyMode attached))) =
  noOpsOf (effects (enableReadonlyMode attached)).
Proof.
  split; [reflexivity|]. split; [reflexivity|].
  exact (proj1 (readonly_suppresses_acks isSystemType_spec parse_any
                  (enableReadonlyMode attached)
                  [OnOp [exampleMessage 1]; InboundRun; Prepared; PostProcessed;
                   UpdateSequenceNumberTimeout]
                  eq_refl eq_refl eq_refl)).
Defined.

(** ** Ordered processing (C2) *)

Lemma processedOf_app a b : processedOf (a ++ b) = processedOf a ++ processedOf b.
Proof. unfold processedOf. apply flat_map_app. Qed.

Lemma requestsOf_app a b : requestsOf (a ++ b) = requestsOf a ++ requestsOf b.
Proof. unfold requestsOf. apply flat_map_app. Qed.

Lemma zseq_snoc from n : zseq from (S n) = zseq from n ++ [from + Z.of_nat n].
Proof.
  revert from. induction n as [|n IH]; intro from.
  - cbn. rewrite Z.add_0_r. reflexivity.
  - change (zseq from (S (S n))) with (from :: zseq (from + 1) (S n)).
    rewrite IH. cbn [zseq app].
    replace (from + Z.of_nat (S n)) with (from + 1 + Z.of_nat n) by lia. reflexivity.
Qed.

Lemma zseq_next base lastQueued :
  base <= lastQueued ->
  zseq (base + 1) (Z.to_nat (lastQueued + 1 - base)) =
  zseq (base + 1) (Z.to_nat (lastQueued - base)) ++ [lastQueued + 1].
Proof.
  intro H. replace (Z.to_nat (lastQueued + 1 - base)) with (S (Z.to_nat (lastQueued - base)))
    by lia.
  rewrite zseq_snoc.
  replace (base + 1 + Z.of_nat (Z.to_nat (lastQueued - base))) with (lastQueued + 1) by lia.
  reflexivity.
Qed.

Lemma sequenceNumber_decoded JSON_parse m :
  sm_sequenceNumber (decoded JSON_parse m) = sm_sequenceNumber m.
Proof.
  unfold decoded. destruct (sm_contents m); try reflexivity.
  destruct (truthy _ && _); [|reflexivity]. destruct (JSON_parse text); reflexivity.
Qed.

Lemma processMessage_processable JSON_parse m s :
  processable JSON_parse m = true ->
  sm_sequenceNumber m = baseSequenceNumber s + 1 ->
  handler s = true ->
  processMessage JSON_parse m s =
  Ok (set_inboundWork (AwaitPrepare (decoded JSON_parse m) (clock s))
        (log (HandlerPrepare (decoded JSON_parse m)) s)).
Proof.
  intros Hp Hs Hh. unfold processMessage, processable, decoded in *.
  rewrite Hs, Z.eqb_refl, Hh. cbn [negb].
  destruct (sm_contents m); try discriminate Hp; try reflexivity.
  destruct (truthy (CString text) && negb (isClientLeave (sm_type m))); [|reflexivity].
  destruct (JSON_parse text); [reflexivity | discriminate Hp].
Qed.

(** *** What leaves the invariant alone *)

Lemma ordered_log JSON_parse before e s :
  processedOf [e] = [] -> ordered JSON_parse before s -> ordered JSON_parse before (log e s).
Proof.
  intros He H. unfold ordered, log in *. cbn.
  rewrite processedOf_app, He, app_nil_r. exact H.
Qed.

Lemma ordered_emit JSON_parse before e s :
  ordered JSON_parse before s -> ordered JSON_parse before (emit e s).
Proof.
  intro H. unfold emit. destruct (listeners s); [|exact H].
  apply ordered_log; [reflexivity | exact H].
Qed.

Lemma ordered_submit JSON_parse isSystemType before type contents s :
  ordered JSON_parse before s ->
  ordered JSON_parse before (snd (submit isSystemType type contents s)).
Proof.
  intro H. unfold submit, stopSequenceNumberUpdate, log, ordered in *.
  destruct (updateSequenceNumberTimer _); cbn;
    rewrite !processedOf_app; cbn; rewrite ?app_nil_r; exact H.
Qed.

Lemma ordered_updateSequenceNumber JSON_parse isSystemType before type s :
  ordered JSON_parse before s ->
  ordered JSON_parse before (updateSequenceNumber isSystemType type s).
Proof.
  intro H. unfold updateSequenceNumber.
  destruct (readonly s); [exact H|].
  destruct (isPropose type); [apply ordered_submit, H|].
  destruct (updateSequenceNumberTimer s); [exact H|].
  apply (ordered_log JSON_parse before (SetTimeout 100) s eq_refl) in H. exact H.
Qed.

Lemma ordered_fetchMissingDeltas JSON_parse before reason from to s :
  ordered JSON_parse before s ->
  ordered JSON_parse before (fetchMissingDeltas reason from to s).
Proof.
  intro H. unfold fetchMissingDeltas, callGetDeltas.
  destruct (fetching s); [apply ordered_log; [reflexivity | exact H]|].
  cbn. destruct (closed s);
    apply (ordered_log JSON_parse before _ (set_fetching true s)); solve [reflexivity | exact H].
Qed.

Lemma ordered_observe JSON_parse before m s :
  ordered JSON_parse before s -> ordered JSON_parse before (observe m s).
Proof. intro H. unfold observe. destruct (largestSequenceNumber s); exact H. Qed.

(** *** Admission keeps the invariant *)

Lemma forallb_snoc {A : Type} (f : A -> bool) l x :
  forallb f (l ++ [x]) = forallb f l && f x.
Proof. rewrite forallb_app. cbn. rewrite andb_true_r. reflexivity. Qed.

Lemma ordered_enqueueMessage JSON_parse before m s :
  processable JSON_parse m = true ->
  ordered JSON_parse before s -> ordered JSON_parse before (enqueueMessage m s).
Proof.
  intros Hm H.
  pose proof H as (_ & _ & _ & _ & _ & _ & lastQueued & HL & _).
  assert (Hcases : sm_sequenceNumber m = lastQueued + 1 \/
                   lastQueued + 1 < sm_sequenceNumber m \/
                   sm_sequenceNumber m <= lastQueued) by lia.
  destruct Hcases as [Hc | [Hc | Hc]].
  - rewrite (enqueueMessage_next m s lastQueued HL Hc). cbv zeta.
    apply (ordered_observe JSON_parse before m) in H.
    destruct H as (Hh & Hq & Hi & Hp & Hb & He & L & HL' & Hw).
    rewrite lastQueued_observe, HL in HL'. injection HL' as <-.
    unfold ordered. cbn. rewrite forallb_snoc, Hi, Hm, map_app. cbn.
    repeat (split; [assumption || reflexivity|]).
    exists (sm_sequenceNumber m). split; [reflexivity|]. rewrite Hc.
    destruct (inboundWork (observe m s)).
    + destruct Hw as [Hw1 Hw2]. split; [lia|]. rewrite Hw2. symmetry. apply zseq_next, Hw1.
    + contradiction.
    + destruct Hw as (Hw1 & Hw2 & Hw3). split; [lia|]. split; [exact Hw2|].
      rewrite Hw3.
      replace (baseSequenceNumber (observe m s) + 2)
        with (baseSequenceNumber (observe m s) + 1 + 1) by lia.
      replace (lastQueued + 1 - baseSequenceNumber (observe m s) - 1)
        with (lastQueued + 1 - (baseSequenceNumber (observe m s) + 1)) by lia.
      replace (lastQueued - baseSequenceNumber (observe m s) - 1)
        with (lastQueued - (baseSequenceNumber (observe m s) + 1)) by lia.
      symmetry. apply zseq_next. lia.
    + destruct Hw as [Hw1 Hw2]. split; [lia|]. rewrite Hw2. symmetry. apply zseq_next, Hw1.
    + contradiction.
  - rewrite (enqueueMessage_gap m s lastQueued HL Hc).
    apply ordered_fetchMissingDeltas.
    apply (ordered_observe JSON_parse before m) in H.
    rewrite <- (pending_observe m s).
    destruct H as (Hh & Hq & Hi & Hp & H).
    unfold ordered. cbn. rewrite forallb_snoc, Hp, Hm.
    repeat (split; [assumption || reflexivity|]). exact H.
  - rewrite (enqueueMessage_duplicate m s lastQueued HL Hc).
    apply ordered_log; [reflexivity|]. apply ordered_observe, H.
Qed.

Lemma ordered_enqueueMessages JSON_parse before ms :
  forall s,
    forallb (processable JSON_parse) ms = true ->
    ordered JSON_parse before s -> ordered JSON_parse before (enqueueMessages ms s).
Proof.
  induction ms as [|m ms IH]; intros s Hms H; [exact H|].
  cbn in Hms. apply andb_prop in Hms. destruct Hms as [Hm Hms].
  change (enqueueMessages (m :: ms) s) with (enqueueMessages ms (enqueueMessage m s)).
  apply IH; [exact Hms|]. apply ordered_enqueueMessage; assumption.
Qed.

Lemma forallb_insertSorted f m l :
  forallb f (insertSorted m l) = f m && forallb f l.
Proof.
  induction l as [|x l IH]; cbn; [reflexivity|].
  destruct (sm_sequenceNumber m <=? sm_sequenceNumber x); cbn; [reflexivity|].
  rewrite IH. destruct (f m), (f x); reflexivity.
Qed.

Lemma forallb_sortBySequenceNumber f l :
  forallb f (sortBySequenceNumber l) = forallb f l.
Proof.
  induction l as [|x l IH]; cbn; [reflexivity|].
  rewrite forallb_insertSorted. fold (sortBySequenceNumber l). rewrite IH. reflexivity.
Qed.

Lemma ordered_catchUp JSON_parse before reason ms s :
  forallb (processable JSON_parse) ms = true ->
  ordered JSON_parse before s -> ordered JSON_parse before (catchUp reason ms s).
Proof.
  intros Hms H. unfold catchUp.
  set (s1 := enqueueMessages ms
               (log (LogCatchUp reason (List.length ms) (List.length (pending s))) s)).
  assert (H1 : ordered JSON_parse before s1).
  { apply ordered_enqueueMessages; [exact Hms|]. apply ordered_log; [reflexivity | exact H]. }
  apply ordered_enqueueMessages.
  - rewrite forallb_sortBySequenceNumber. apply H1.
  - destruct H1 as (Hh & Hq & Hi & Hp & H1). unfold ordered. cbn.
    repeat (split; [assumption || reflexivity|]). exact H1.
Qed.

(** *** The worker keeps the invariant *)

Lemma set_inboundWork_emit w e s :
  set_inboundWork w (emit e s) = emit e (set_inboundWork w s).
Proof. unfold emit. cbn. destruct (listeners s); reflexivity. Qed.

Lemma set_inboundWork_updateSequenceNumber isSystemType w type s :
  set_inboundWork w (updateSequenceNumber isSystemType type s) =
  updateSequenceNumber isSystemType type (set_inboundWork w s).
Proof.
  unfold updateSequenceNumber, submit, stopSequenceNumberUpdate, log. cbn.
  destruct (readonly s); [reflexivity|].
  destruct (isPropose type); cbn; destruct (updateSequenceNumberTimer s); reflexivity.
Qed.

Lemma zseq_cons_inv x l from n :
  x :: l = zseq from n -> x = from /\ l = zseq (from + 1) (Nat.pred n) /\ (0 < n)%nat.
Proof.
  destruct n as [|n]; cbn; intro H; [discriminate H|].
  injection H as Hx Hl. repeat split; [exact Hx | exact Hl | lia].
Qed.

Lemma ordered_inboundRun JSON_parse before s :
  ordered JSON_parse before s -> ordered JSON_parse before (inboundRun JSON_parse s).
Proof.
  intro H. unfold inboundRun.
  destruct (inboundWork s) eqn:W; try exact H.
  destruct (Queue.ready (_inbound s)) as [op|] eqn:R; [|exact H].
  unfold Queue.ready in R.
  destruct (Queue.paused (_inbound s) || q_halted (_inbound s)); [discriminate R|].
  destruct (q_items (_inbound s)) as [|op' rest] eqn:I; [discriminate R|].
  cbn in R. injection R as ->.
  destruct H as (Hh & Hq & Hi & Hp & Hb & He & L & HL & Hw).
  rewrite W, I in Hw. rewrite I in Hi. cbn in Hi, Hw.
  apply andb_prop in Hi. destruct Hi as [Hop Hrest].
  destruct Hw as [Hw1 Hw2]. apply zseq_cons_inv in Hw2.
  destruct Hw2 as (Hseq & Hmap & Hn).
  assert (Hu : isUndefined (sm_contents op) = false).
  { unfold processable in Hop. destruct (sm_contents op); [discriminate Hop| | |]; reflexivity. }
  rewrite Hu. unfold processInboundOp.
  rewrite processMessage_processable; [|exact Hop|exact Hseq|exact Hh].
  unfold ordered, log. cbn. rewrite I. cbn.
  rewrite processedOf_app. cbn. rewrite app_nil_r, sequenceNumber_decoded.
  repeat (split; [assumption|]).
  exists L. split; [exact HL|]. split; [lia|]. split; [exact Hseq|].
  rewrite Hmap. f_equal; lia.
Qed.

Lemma ordered_prepared JSON_parse isSystemType before s :
  ordered JSON_parse before s -> ordered JSON_parse before (prepared isSystemType s).
Proof.
  intro H. unfold prepared.
  destruct (inboundWork s) as [| | m startTime | |] eqn:W; try exact H.
  match goal with |- context [HandlerProcess ?x] => set (m' := x) end.
  assert (Hm' : sm_sequenceNumber m' = sm_sequenceNumber m)
    by (subst m'; destruct (sm_traces m); reflexivity).
  set (core := set_inboundWork (AwaitPostProcess m')
                 (log (HandlerProcess m')
                    (set_baseSequenceNumber (sm_sequenceNumber m')
                       (set_minSequenceNumber (sm_minimumSequenceNumber m') s)))).
  assert (Hcore : ordered JSON_parse before core).
  { destruct H as (Hh & Hq & Hi & Hp & Hb & He & L & HL & Hw).
    rewrite W in Hw. destruct Hw as (Hw1 & Hw2 & Hw3).
    subst core. unfold ordered, log. cbn.
    rewrite processedOf_app, He, Hm', Hw2. cbn.
    repeat (split; [assumption || lia|]). split.
    - rewrite <- app_assoc. f_equal.
      replace (Z.to_nat (baseSequenceNumber s + 1)) with (S (Z.to_nat (baseSequenceNumber s)))
        by lia.
      rewrite zseq_snoc. repeat f_equal. lia.
    - exists L. split; [exact HL|]. split; [lia|]. rewrite Hw3. f_equal; lia. }
  match goal with
  | |- ordered _ _ (set_inboundWork _ (log ?e (emit ?x ?u))) =>
      change (ordered JSON_parse before (log e (set_inboundWork (AwaitPostProcess m') (emit x u))))
  end.
  apply ordered_log; [reflexivity|].
  rewrite set_inboundWork_emit. apply ordered_emit.
  destruct (isOperation (sm_type m') || isPropose (sm_type m')).
  - rewrite set_inboundWork_updateSequenceNumber.
    apply ordered_updateSequenceNumber. exact Hcore.
  - exact Hcore.
Qed.

Lemma ordered_postProcessed JSON_parse before s :
  ordered JSON_parse before s -> ordered JSON_parse before (postProcessed s).
Proof.
  intro H. unfold postProcessed.
  destruct (inboundWork s) eqn:W; try exact H.
  unfold ordered in *. cbn. rewrite W in H. exact H.
Qed.

Lemma ordered_work JSON_parse isSystemType before e s :
  isWork e = true ->
  ordered JSON_parse before s ->
  ordered JSON_parse before (step isSystemType JSON_parse e s).
Proof.
  intros He H. destruct e; try discriminate He; unfold step.
  - apply ordered_inboundRun, H.
  - apply ordered_prepared, H.
  - apply ordered_postProcessed, H.
  - exact H.
Qed.

(** *** Requests to storage are made by [getDeltas] alone *)

Arguments requestsOf : simpl never.

Lemma asked_log requests e s :
  requestsOf [e] = [] -> asked requests s -> asked requests (log e s).
Proof.
  intros He H. unfold asked, log in *. cbn.
  rewrite requestsOf_app, He, app_nil_r. exact H.
Qed.

Lemma asked_emit requests e s : asked requests s -> asked requests (emit e s).
Proof.
  intro H. unfold emit. destruct (listeners s); [|exact H].
  apply asked_log; [reflexivity | exact H].
Qed.

Lemma asked_fetchMissingDeltas requests reason from to s :
  asked requests s -> asked requests (fetchMissingDeltas reason from to s).
Proof.
  intro H. unfold fetchMissingDeltas, callGetDeltas.
  destruct (fetching s); [apply asked_log; [reflexivity | exact H]|].
  cbn. destruct (closed s); apply (asked_log requests _ (set_fetching true s));
    solve [reflexivity | exact H].
Qed.

Lemma asked_enqueueMessage requests m s :
  asked requests s -> asked requests (enqueueMessage m s).
Proof.
  intro H. unfold enqueueMessage, handleOutOfOrderMessage.
  repeat first [ exact H
               | apply asked_fetchMissingDeltas
               | apply asked_log; [reflexivity|]
               | break_goal ].
Qed.

Lemma asked_enqueueMessages requests ms s :
  asked requests s -> asked requests (enqueueMessages ms s).
Proof.
  unfold enqueueMessages. apply fold_left_keeps.
  intros; apply asked_enqueueMessage; assumption.
Qed.

Lemma asked_catchUp requests reason ms s :
  asked requests s -> asked requests (catchUp reason ms s).
Proof.
  intro H. unfold catchUp. apply asked_enqueueMessages.
  change (asked requests
            (enqueueMessages ms
               (log (LogCatchUp reason (List.length ms) (List.length (pending s))) s))).
  apply asked_enqueueMessages, asked_log; [reflexivity | exact H].
Qed.

Lemma asked_lateContentHandler requests r clId s :
  asked requests s -> asked requests (lateContentHandler r clId s).
Proof.
  intro H. unfold lateContentHandler. repeat first [exact H | break_goal].
Qed.

Lemma asked_contentCacheSet requests c s :
  asked requests s -> asked requests (contentCacheSet c s).
Proof.
  intro H. unfold contentCacheSet. apply fold_left_keeps.
  - intros; apply asked_lateContentHandler; assumption.
  - exact H.
Qed.

Lemma asked_enqueInitalOps requests i s :
  asked requests s -> asked requests (enqueInitalOps i s).
Proof.
  intro H. unfold enqueInitalOps. destruct i as [ms cs].
  assert (H1 : asked requests (fold_left (fun s c => contentCacheSet c s) cs s)).
  { apply fold_left_keeps; [|exact H]. intros; apply asked_contentCacheSet; assumption. }
  destruct ms; [exact H1 | apply asked_catchUp, H1].
Qed.

Lemma asked_enqueInitalSignals requests l s :
  asked requests s -> asked requests (enqueInitalSignals l s).
Proof.
  intro H. unfold enqueInitalSignals. apply fold_left_keeps; [|exact H].
  intros s0 x H0. exact H0.
Qed.

Lemma asked_inboundResumed requests q s :
  asked requests s -> asked requests (inboundResumed q s).
Proof.
  intro H. unfold inboundResumed. destruct (Queue.resumes q (_inbound s)); [|exact H].
  apply fold_left_keeps; [|exact H]. intros; apply asked_enqueInitalOps; assumption.
Qed.

Lemma asked_signalResumed requests q s :
  asked requests s -> asked requests (signalResumed q s).
Proof.
  intro H. unfold signalResumed. destruct (Queue.resumes q (_inboundSignal s)); [|exact H].
  apply fold_left_keeps; [|exact H]. intros; apply asked_enqueInitalSignals; assumption.
Qed.

Lemma asked_submit requests isSystemType type contents s :
  asked requests s -> asked requests (snd (submit isSystemType type contents s)).
Proof.
  intro H. unfold submit, stopSequenceNumberUpdate, log, asked in *.
  destruct (updateSequenceNumberTimer _); cbn;
    rewrite !requestsOf_app; cbn; rewrite ?app_nil_r; exact H.
Qed.

Lemma asked_updateSequenceNumber requests isSystemType type s :
  asked requests s -> asked requests (updateSequenceNumber isSystemType type s).
Proof.
  intro H. unfold updateSequenceNumber.
  destruct (readonly s); [exact H|].
  destruct (isPropose type); [apply asked_submit, H|].
  destruct (updateSequenceNumberTimer s); [exact H|].
  apply (asked_log requests (SetTimeout 100) s eq_refl) in H. exact H.
Qed.

Lemma asked_inboundError requests e s :
  asked requests s -> asked requests (inboundError e s).
Proof. intro H. unfold inboundError. apply asked_emit. exact H. Qed.

Lemma asked_processInboundOp requests JSON_parse op sync s :
  asked requests s -> asked requests (processInboundOp JSON_parse op sync s).
Proof.
  intro H. unfold processInboundOp, processMessage.
  repeat first [ exact H
               | apply asked_inboundError
               | apply (asked_log requests _ s); [reflexivity|]
               | break_goal ].
Qed.

Ltac asked :=
  repeat first
    [ assumption
    | congruence
    | match goal with
      | |- context [requestsOf (?a ++ ?b)] =>
          rewrite (requestsOf_app a b);
          let r := eval cbv in (requestsOf b) in change (requestsOf b) with r;
          rewrite ?app_nil_r
      end
    | match goal with
      | |- requestsOf (effects ?x) = ?c => change (asked c x)
      end;
      first [ apply asked_emit
            | apply asked_fetchMissingDeltas
            | apply asked_enqueueMessages
            | apply asked_catchUp
            | apply asked_contentCacheSet
            | apply asked_enqueInitalOps
            | apply asked_enqueInitalSignals
            | apply asked_inboundResumed
            | apply asked_signalResumed
            | apply asked_submit
            | apply asked_updateSequenceNumber
            | apply asked_inboundError
            | apply asked_processInboundOp ]
    | progress unfold asked
    | progress cbn
    | break_goal ].

(** An event other than the settling of a [getDeltas] makes no request. *)
Lemma asked_step isSystemType JSON_parse requests e s :
  isSettled e = false ->
  asked requests s ->
  asked requests (step isSystemType JSON_parse e s).
Proof.
  intros He H. pose proof H as H'. unfold asked in H'.
  destruct e; try discriminate He; unfold step;
    unfold attachOpHandler, inboundSystemResume, signalSystemResume,
      inboundResume, signalResume, connect, connectCore, submitSignal,
      enableReadonlyMode, disableReadonlyMode, close, stopSequenceNumberUpdate,
      connectResolved, processInitialMessages, connectRejected, reconnectTimeout,
      deltaStorageConnected, onOp, onOpContent, onSignal, onDisconnect,
      inboundRun, handleOpContent, mergeAndProcess, callGetDeltas,
      outboundRun, outboundError, signalRun, signalError,
      prepared, postProcessed, handlerRejected, getDeltasRejected,
      submitAsyncResolved, submitAsyncRejected, updateSequenceNumberTimeout.
  all: unfold outboundError, signalError, emit, log.
  all: asked.
Qed.

(** *** The worker leaves admission alone *)

Lemma admission_submit isSystemType type contents s :
  admission (snd (submit isSystemType type contents s)) = admission s.
Proof.
  unfold submit, stopSequenceNumberUpdate, log, admission.
  destruct (updateSequenceNumberTimer _); reflexivity.
Qed.

Lemma admission_updateSequenceNumber isSystemType type s :
  admission (updateSequenceNumber isSystemType type s) = admission s.
Proof.
  unfold updateSequenceNumber.
  destruct (readonly s); [reflexivity|].
  destruct (isPropose type); [apply admission_submit|].
  destruct (updateSequenceNumberTimer s); reflexivity.
Qed.

Lemma admission_emit e s : admission (emit e s) = admission s.
Proof. unfold emit. destruct (listeners s); reflexivity. Qed.

Lemma admission_work_ordered JSON_parse isSystemType before e s :
  isWork e = true ->
  ordered JSON_parse before s ->
  admission (step isSystemType JSON_parse e s) = admission s.
Proof.
  intros He H. destruct e; try discriminate He; unfold step.
  - (* InboundRun *)
    unfold inboundRun.
    destruct (inboundWork s) eqn:W; try reflexivity.
    destruct (Queue.ready (_inbound s)) as [op|] eqn:R; [|reflexivity].
    unfold Queue.ready in R.
    destruct (Queue.paused (_inbound s) || q_halted (_inbound s)); [discriminate R|].
    destruct (q_items (_inbound s)) as [|op' rest] eqn:I; [discriminate R|].
    cbn in R. injection R as ->.
    destruct H as (Hh & Hq & Hi & Hp & Hb & He' & L & HL & Hw).
    rewrite W, I in Hw. rewrite I in Hi. cbn in Hi, Hw.
    apply andb_prop in Hi. destruct Hi as [Hop Hrest].
    destruct Hw as [Hw1 Hw2]. apply zseq_cons_inv in Hw2.
    destruct Hw2 as (Hseq & Hmap & Hn).
    assert (Hu : isUndefined (sm_contents op) = false).
    { unfold processable in Hop. destruct (sm_contents op); [discriminate Hop| | |];
        reflexivity. }
    rewrite Hu. unfold processInboundOp.
    rewrite processMessage_processable; [|exact Hop|exact Hseq|exact Hh].
    reflexivity.
  - (* Prepared *)
    unfold prepared. destruct (inboundWork s); try reflexivity.
    match goal with
    | |- admission (set_inboundWork _ (log _ (emit ?x ?u))) = _ =>
        change (admission (emit x u) = admission s)
    end.
    rewrite admission_emit.
    destruct (isOperation _ || isPropose _); [rewrite admission_updateSequenceNumber|];
      reflexivity.
  - (* PostProcessed *)
    unfold postProcessed. destruct (inboundWork s); reflexivity.
  - reflexivity.
Qed.

(** *** Admission depends on the admission state alone *)

Ltac same_admission :=
  cbn;
  repeat first
    [ match goal with
      | E : ?l = ?r |- context [?l] => rewrite E
      end
    | break_goal; cbn ];
  congruence.

Lemma admission_enqueueMessage_cong m s1 s2 :
  admission s1 = admission s2 ->
  admission (enqueueMessage m s1) = admission (enqueueMessage m s2).
Proof.
  intro H. unfold admission in H. injection H as ? ? ? ? ? ? ? ? ? ?.
  unfold enqueueMessage, handleOutOfOrderMessage, fetchMissingDeltas, callGetDeltas,
    admission.
  destruct (largestSequenceNumber s1), (largestSequenceNumber s2); same_admission.
Qed.

Lemma admission_enqueueMessages_cong ms :
  forall s1 s2,
    admission s1 = admission s2 ->
    admission (enqueueMessages ms s1) = admission (enqueueMessages ms s2).
Proof.
  induction ms as [|m ms IH]; intros s1 s2 H; [exact H|].
  change (admission (enqueueMessages ms (enqueueMessage m s1)) =
          admission (enqueueMessages ms (enqueueMessage m s2))).
  apply IH, admission_enqueueMessage_cong, H.
Qed.

Lemma admission_catchUp_cong reason ms s1 s2 :
  admission s1 = admission s2 ->
  admission (catchUp reason ms s1) = admission (catchUp reason ms s2).
Proof.
  intro H. unfold catchUp.
  set (t1 := enqueueMessages ms (log _ s1)). set (t2 := enqueueMessages ms (log _ s2)).
  assert (Ht : admission t1 = admission t2)
    by (apply admission_enqueueMessages_cong; exact H).
  assert (Hp : pending t1 = pending t2) by (unfold admission in Ht; congruence).
  rewrite Hp. apply admission_enqueueMessages_cong.
  unfold admission in *. cbn. congruence.
Qed.

Lemma admission_onOp_cong isSystemType JSON_parse ms s1 s2 :
  admission s1 = admission s2 ->
  admission (step isSystemType JSON_parse (OnOp ms) s1) =
  admission (step isSystemType JSON_parse (OnOp ms) s2).
Proof.
  intro H. unfold step, connected, onOp.
  assert (Hc : connection s1 = connection s2) by (unfold admission in H; congruence).
  assert (Hh : handler s1 = handler s2) by (unfold admission in H; congruence).
  rewrite Hc, Hh. destruct (connection s2); [|exact H].
  destruct (handler s2); [|exact H].
  apply admission_enqueueMessages_cong, H.
Qed.

Lemma admission_getDeltasSettled_cong isSystemType JSON_parse replies s1 s2 :
  admission s1 = admission s2 ->
  admission (step isSystemType JSON_parse (GetDeltasSettled replies) s1) =
  admission (step isSystemType JSON_parse (GetDeltasSettled replies) s2).
Proof.
  intro H. unfold step, getDeltasSettled, settle, storageReady.
  assert (Hf : fetchP s1 = fetchP s2) by (unfold admission in H; congruence).
  assert (Hs : deltaStorageP s1 = deltaStorageP s2) by (unfold admission in H; congruence).
  rewrite Hf, Hs. destruct (fetchP s2) as [call|]; [|exact H].
  destruct (gd_closed call || _); [|exact H].
  destruct (run_result _); [|exact H].
  unfold fetchMissingDeltasResolved. apply admission_catchUp_cong.
  unfold admission in *. cbn. congruence.
Qed.

(** *** The reordering scenario *)

Section Reordering.

Variable isSystemType : MessageType -> bool.
Variable JSON_parse : string -> option Contents.
Variables m1 m2 m3 : ISequencedDocumentMessage.
Variable details : IConnectionDetails.
Hypothesis sequenceNumber1 : sm_sequenceNumber m1 = 1.
Hypothesis sequenceNumber2 : sm_sequenceNumber m2 = 2.
Hypothesis sequenceNumber3 : sm_sequenceNumber m3 = 3.

Lemma admission_canonical delivered fetched :
  admission (canonical (expected m3 details delivered fetched)) =
  expected m3 details delivered fetched.
Proof. destruct delivered, fetched; reflexivity. Qed.

Lemma admission_deliver delivered k fetched s :
  (0 < k)%nat -> (delivered + k <= 3)%nat ->
  (delivered = O -> fetched = false) ->
  admission s = expected m3 details delivered fetched ->
  admission (step isSystemType JSON_parse (OnOp (firstn k (skipn delivered [m3; m1; m2]))) s) =
  expected m3 details (delivered + k) fetched.
Proof.
  intros Hk Hdk Hf H.
  rewrite <- admission_canonical in H.
  rewrite (admission_onOp_cong isSystemType JSON_parse _ _ _ H).
  destruct m1, m2, m3. cbn in sequenceNumber1, sequenceNumber2, sequenceNumber3. subst.
  destruct delivered as [|[|[|?]]]; destruct k as [|[|[|[|?]]]]; try lia;
    destruct fetched; try (specialize (Hf eq_refl); discriminate Hf);
    vm_compute; reflexivity.
Qed.

Lemma admission_fetch delivered s :
  (0 < delivered)%nat -> (delivered <= 3)%nat ->
  admission s = expected m3 details delivered false ->
  admission (step isSystemType JSON_parse (GetDeltasSettled [Deltas [m1; m2]]) s) =
  expected m3 details delivered true.
Proof.
  intros Hd Hd' H.
  rewrite <- admission_canonical in H.
  rewrite (admission_getDeltasSettled_cong isSystemType JSON_parse _ _ _ H).
  destruct m1, m2, m3. cbn in sequenceNumber1, sequenceNumber2, sequenceNumber3. subst.
  destruct delivered as [|[|[|[|?]]]]; try lia; vm_compute; reflexivity.
Qed.

Hypothesis processable1 : processable JSON_parse m1 = true.
Hypothesis processable2 : processable JSON_parse m2 = true.
Hypothesis processable3 : processable JSON_parse m3 = true.

Lemma processable_delivery delivered k :
  forallb (processable JSON_parse) (firstn k (skipn delivered [m3; m1; m2])) = true.
Proof.
  destruct delivered as [|[|[|[|?]]]]; destruct k as [|[|[|[|?]]]]; cbn;
    rewrite ?processable1, ?processable2, ?processable3; reflexivity.
Qed.

Lemma ordered_onOp before ms s :
  forallb (processable JSON_parse) ms = true ->
  ordered JSON_parse before s -> ordered JSON_parse before (step isSystemType JSON_parse (OnOp ms) s).
Proof.
  intros Hms H. unfold step, onOp.
  destruct (connected s); [|exact H]. destruct (handler s); [|exact H].
  apply ordered_enqueueMessages; assumption.
Qed.

(** Storage answers the request for the gap with the messages 1 and 2. *)
Lemma getDeltasSettled_answer reason s :
  fetchP s = Some (mkCall reason false 0 (Some 3)) ->
  deltaStorageP s = StorageResolved ->
  step isSystemType JSON_parse (GetDeltasSettled [Deltas [m1; m2]]) s =
  fetchMissingDeltasResolved reason [m1; m2]
    (set_fetchP None (logAll [StorageGet 0 3] s)).
Proof.
  intros Hf Hs. unfold step, getDeltasSettled, settle, storageReady.
  rewrite Hf, Hs. cbn. rewrite sequenceNumber2. reflexivity.
Qed.

Lemma inScenario_deliver before requests delivered k fetched s :
  (0 < k)%nat -> (delivered + k <= 3)%nat ->
  inScenario JSON_parse m3 details before requests delivered fetched s ->
  inScenario JSON_parse m3 details before requests (delivered + k) fetched
    (step isSystemType JSON_parse (OnOp (firstn k (skipn delivered [m3; m1; m2]))) s).
Proof.
  intros Hk Hdk (Ha & Ho & Hr & Hf). split; [|split; [|split]].
  - apply admission_deliver; assumption.
  - apply ordered_onOp; [apply processable_delivery | exact Ho].
  - apply asked_step; [reflexivity | exact Hr].
  - intro H0. exfalso. lia.
Qed.

Lemma inScenario_fetch before requests delivered s :
  (0 < delivered)%nat -> (delivered <= 3)%nat ->
  inScenario JSON_parse m3 details before requests delivered false s ->
  inScenario JSON_parse m3 details before requests delivered true
    (step isSystemType JSON_parse (GetDeltasSettled [Deltas [m1; m2]]) s).
Proof.
  intros Hd Hd' (Ha & Ho & Hr & Hf).
  assert (Hcall : fetchP s = Some (mkCall "HandleOutOfOrderMessage" false 0 (Some 3)) /\
                  deltaStorageP s = StorageResolved).
  { destruct delivered; [lia|]. unfold admission, expected in Ha. cbn in Ha.
    injection Ha as _ _ _ Hp _ _ Hs _ _ _. split; assumption. }
  destruct Hcall as [Hp Hs].
  split; [|split; [|split]].
  - apply admission_fetch; assumption.
  - rewrite (getDeltasSettled_answer _ s Hp Hs). unfold fetchMissingDeltasResolved.
    apply ordered_catchUp; [cbn; rewrite processable1, processable2; reflexivity|].
    unfold ordered, logAll in *. cbn. rewrite processedOf_app. cbn.
    rewrite app_nil_r. exact Ho.
  - rewrite (getDeltasSettled_answer _ s Hp Hs). unfold fetchMissingDeltasResolved.
    apply asked_catchUp. unfold asked, logAll in *. cbn.
    rewrite requestsOf_app, Hr, app_nil_r. reflexivity.
  - intro H0. exfalso. lia.
Qed.

Lemma inScenario_work before requests delivered fetched e s :
  isWork e = true ->
  inScenario JSON_parse m3 details before requests delivered fetched s ->
  inScenario JSON_parse m3 details before requests delivered fetched (step isSystemType JSON_parse e s).
Proof.
  intros He (Ha & Ho & Hr & Hf). split; [|split; [|split]].
  - rewrite (admission_work_ordered JSON_parse isSystemType before e s He Ho).
    exact Ha.
  - apply ordered_work; assumption.
  - apply asked_step; [destruct e; try discriminate He; reflexivity | exact Hr].
  - exact Hf.
Qed.

Lemma schedule_bound delivered fetched events :
  schedule m1 m2 m3 delivered fetched events -> (delivered <= 3)%nat.
Proof. induction 1; lia. Qed.

(** Along a schedule the manager stays in the scenario, and ends with all
    three messages delivered and the fetch answered. *)
Lemma inScenario_schedule before requests delivered fetched events :
  schedule m1 m2 m3 delivered fetched events ->
  forall s,
    inScenario JSON_parse m3 details before requests delivered fetched s ->
    inScenario JSON_parse m3 details before requests 3 true (run isSystemType JSON_parse events s).
Proof.
  induction 1 as [| d f k events Hk Hdk _ IH | d events Hd Hs IH | d f e events He _ IH];
    intros s H.
  - exact H.
  - rewrite run_cons. apply IH. apply inScenario_deliver; assumption.
  - rewrite run_cons. apply IH. apply inScenario_fetch; try assumption.
    exact (schedule_bound _ _ _ Hs).
  - rewrite run_cons. apply IH. apply inScenario_work; assumption.
Qed.
End Reordering.

(** *** The worker drains the queue *)

Lemma base_emit e s : baseSequenceNumber (emit e s) = baseSequenceNumber s.
Proof. unfold emit. destruct (listeners s); reflexivity. Qed.

Lemma base_updateSequenceNumber isSystemType type s :
  baseSequenceNumber (updateSequenceNumber isSystemType type s) = baseSequenceNumber s.
Proof.
  unfold updateSequenceNumber, submit, stopSequenceNumberUpdate.
  destruct (readonly s); [reflexivity|].
  destruct (isPropose type); cbn; destruct (updateSequenceNumberTimer s); reflexivity.
Qed.

Lemma ordered_lastQueued JSON_parse before s lastQueued :
  ordered JSON_parse before s ->
  lastQueuedSequenceNumber s = Some lastQueued ->
  baseSequenceNumber s <= lastQueued.
Proof.
  intros (_ & _ & _ & _ & _ & _ & L & HL & Hw) H. rewrite H in HL. injection HL as <-.
  destruct (inboundWork s); try contradiction; lia.
Qed.

Lemma inboundRun_busy JSON_parse s :
  inboundWork s <> Idle -> inboundRun JSON_parse s = s.
Proof. intro H. unfold inboundRun. destruct (inboundWork s); congruence. Qed.

Lemma inboundRun_nothing JSON_parse before s :
  ordered JSON_parse before s ->
  inboundWork s = Idle ->
  lastQueuedSequenceNumber s = Some (baseSequenceNumber s) ->
  inboundRun JSON_parse s = s.
Proof.
  intros (_ & _ & _ & _ & _ & _ & L & HL & Hw) W H.
  rewrite H in HL. injection HL as <-. rewrite W in Hw. destruct Hw as [_ Hw].
  rewrite Z.sub_diag in Hw. cbn in Hw. apply map_eq_nil in Hw.
  unfold inboundRun, Queue.ready. rewrite W, Hw.
  destruct (Queue.paused _ || _); reflexivity.
Qed.

Lemma inboundRun_takes JSON_parse before s lastQueued :
  ordered JSON_parse before s ->
  inboundWork s = Idle ->
  Queue.paused (_inbound s) = false ->
  lastQueuedSequenceNumber s = Some lastQueued ->
  baseSequenceNumber s < lastQueued ->
  baseSequenceNumber (inboundRun JSON_parse s) = baseSequenceNumber s /\
  exists m t, inboundWork (inboundRun JSON_parse s) = AwaitPrepare m t.
Proof.
  intros (Hh & Hq & Hi & Hp & Hb & He & L & HL & Hw) W Hpaused H Hlt.
  rewrite H in HL. injection HL as <-. rewrite W in Hw. destruct Hw as [_ Hw].
  destruct (q_items (_inbound s)) as [|op rest] eqn:I.
  { exfalso. cbn in Hw.
    destruct (Z.to_nat (lastQueued - baseSequenceNumber s)) eqn:E; [lia | discriminate Hw]. }
  cbn in Hi, Hw. apply andb_prop in Hi. destruct Hi as [Hop _].
  apply zseq_cons_inv in Hw. destruct Hw as (Hseq & _).
  assert (Hu : isUndefined (sm_contents op) = false).
  { unfold processable in Hop. destruct (sm_contents op); [discriminate Hop| | |]; reflexivity. }
  unfold inboundRun, Queue.ready. rewrite W, Hpaused, Hq, I. cbn [orb hd_error].
  rewrite Hu. unfold processInboundOp.
  rewrite processMessage_processable; [|exact Hop|exact Hseq|exact Hh].
  split; [reflexivity|]. eexists. eexists. reflexivity.
Qed.

Lemma prepared_advances JSON_parse isSystemType before s m t :
  ordered JSON_parse before s ->
  inboundWork s = AwaitPrepare m t ->
  baseSequenceNumber (prepared isSystemType s) = baseSequenceNumber s + 1 /\
  exists m', inboundWork (prepared isSystemType s) = AwaitPostProcess m'.
Proof.
  intros (_ & _ & _ & _ & _ & _ & L & HL & Hw) W.
  rewrite W in Hw. destruct Hw as (_ & Hseq & _).
  unfold prepared. rewrite W. split; [|eexists; reflexivity].
  match goal with
  | |- baseSequenceNumber (set_inboundWork _ (log _ (emit ?x ?u))) = _ =>
      change (baseSequenceNumber (emit x u) = baseSequenceNumber s + 1)
  end.
  rewrite base_emit.
  destruct (isOperation _ || isPropose _); [rewrite base_updateSequenceNumber|];
    cbn; rewrite <- Hseq; destruct (sm_traces m); reflexivity.
Qed.

Lemma prepared_idle isSystemType s :
  (forall m t, inboundWork s <> AwaitPrepare m t) -> prepared isSystemType s = s.
Proof.
  intro H. unfold prepared. destruct (inboundWork s) eqn:W; try reflexivity.
  exfalso. exact (H _ _ eq_refl).
Qed.

Lemma postProcessed_done s m :
  inboundWork s = AwaitPostProcess m ->
  baseSequenceNumber (postProcessed s) = baseSequenceNumber s /\
  inboundWork (postProcessed s) = Idle.
Proof. intro W. unfold postProcessed. rewrite W. split; reflexivity. Qed.

Lemma postProcessed_idle s :
  (forall m, inboundWork s <> AwaitPostProcess m) -> postProcessed s = s.
Proof.
  intro H. unfold postProcessed. destruct (inboundWork s) eqn:W; try reflexivity.
  exfalso. exact (H _ eq_refl).
Qed.

Section Draining.

Variable isSystemType : MessageType -> bool.
Variable JSON_parse : string -> option Contents.
Variable before : list Z.

Lemma running_work a e s :
  isWork e = true -> running JSON_parse before a s -> running JSON_parse before a (step isSystemType JSON_parse e s).
Proof.
  intros He (Ho & Ha & Hp). split; [|split].
  - apply ordered_work; assumption.
  - rewrite (admission_work_ordered JSON_parse isSystemType before e s He Ho). exact Ha.
  - exact Hp.
Qed.

Lemma running_unpaused a s : running JSON_parse before a s -> Queue.paused (_inbound s) = false.
Proof.
  intros (_ & Ha & Hp). rewrite <- Ha in Hp. unfold admission in Hp. cbn in Hp.
  injection Hp as Hp1 Hp2. unfold Queue.paused. rewrite Hp1, Hp2. reflexivity.
Qed.

Lemma running_lastQueued a s : running JSON_parse before a s -> lastQueuedSequenceNumber s = fst (fst (fst (fst (fst a)))).
Proof. intros (_ & Ha & _). rewrite <- Ha. reflexivity. Qed.

(** After one round the worker is idle and the base has not moved back;
    from idle, a round processes the next message, if there is one. *)
Lemma workRound_progress a s lastQueued :
  running JSON_parse before a s ->
  lastQueuedSequenceNumber s = Some lastQueued ->
  let s' := run isSystemType JSON_parse workRound s in
  running JSON_parse before a s' /\ inboundWork s' = Idle /\
  baseSequenceNumber s <= baseSequenceNumber s' /\
  (inboundWork s = Idle -> baseSequenceNumber s < lastQueued ->
   baseSequenceNumber s' = baseSequenceNumber s + 1).
Proof.
  intros H HL s'. subst s'. unfold workRound. rewrite !run_cons. cbn [run fold_left].
  pose proof (running_work a InboundRun s eq_refl H) as H1.
  pose proof (running_unpaused a s H) as Hpaused.
  pose proof H as (Ho & _).
  pose proof (ordered_lastQueued JSON_parse before s lastQueued Ho HL) as Hle.
  cbn [step] in *.
  destruct (inboundWork s) as [| | m t | m |] eqn:W.
  - (* idle *)
    destruct (Z.eq_dec (baseSequenceNumber s) lastQueued) as [Heq | Hne].
    + rewrite (inboundRun_nothing JSON_parse before s Ho W) by (rewrite HL, Heq; reflexivity).
      rewrite prepared_idle by (rewrite W; discriminate).
      rewrite postProcessed_idle by (rewrite W; discriminate).
      split; [exact H|]. split; [exact W|]. split; [lia|]. intros _ Hlt. lia.
    + destruct (inboundRun_takes JSON_parse before s lastQueued Ho W Hpaused HL)
        as (Hb1 & m & t & W1); [lia|].
      set (s1 := inboundRun JSON_parse s) in *.
      pose proof (running_work a Prepared s1 eq_refl H1) as H2. cbn [step] in H2.
      destruct (prepared_advances JSON_parse isSystemType before s1 m t (proj1 H1) W1)
        as (Hb2 & m' & W2).
      set (s2 := prepared isSystemType s1) in *.
      pose proof (running_work a PostProcessed s2 eq_refl H2) as H3. cbn [step] in H3.
      destruct (postProcessed_done s2 m' W2) as (Hb3 & W3).
      split; [exact H3|]. split; [exact W3|]. split; [lia|]. intros _ _. lia.
  - destruct Ho as (_ & _ & _ & _ & _ & _ & L & _ & Hw). rewrite W in Hw. contradiction.
  - (* the handler is preparing *)
    rewrite inboundRun_busy in * by (rewrite W; discriminate).
    pose proof (running_work a Prepared s eq_refl H) as H2. cbn [step] in H2.
    destruct (prepared_advances JSON_parse isSystemType before s m t Ho W)
      as (Hb2 & m' & W2).
    set (s2 := prepared isSystemType s) in *.
    pose proof (running_work a PostProcessed s2 eq_refl H2) as H3. cbn [step] in H3.
    destruct (postProcessed_done s2 m' W2) as (Hb3 & W3).
    split; [exact H3|]. split; [exact W3|]. split; [lia|]. intro Hc. discriminate Hc.
  - (* the handler is post-processing *)
    rewrite inboundRun_busy in * by (rewrite W; discriminate).
    rewrite prepared_idle by (rewrite W; discriminate).
    pose proof (running_work a PostProcessed s eq_refl H) as H3. cbn [step] in H3.
    destruct (postProcessed_done s m W) as (Hb3 & W3).
    split; [exact H3|]. split; [exact W3|]. split; [lia|]. intro Hc. discriminate Hc.
  - destruct Ho as (_ & _ & _ & _ & _ & _ & L & _ & Hw). rewrite W in Hw. contradiction.
Qed.

Lemma workRounds_idle n :
  forall a s lastQueued,
    running JSON_parse before a s ->
    lastQueuedSequenceNumber s = Some lastQueued ->
    inboundWork s = Idle ->
    lastQueued - baseSequenceNumber s <= Z.of_nat n ->
    let s' := run isSystemType JSON_parse (workRounds n) s in
    running JSON_parse before a s' /\ baseSequenceNumber s' = lastQueued /\ inboundWork s' = Idle.
Proof.
  induction n as [|n IH]; intros a s lastQueued H HL W Hn; cbn zeta.
  - cbn. pose proof (ordered_lastQueued JSON_parse before s lastQueued (proj1 H) HL).
    split; [exact H|]. split; [lia | exact W].
  - cbn [workRounds]. rewrite run_app.
    destruct (workRound_progress a s lastQueued H HL) as (H' & W' & Hle & Hstep).
    set (s1 := run isSystemType JSON_parse workRound s) in *.
    assert (HL' : lastQueuedSequenceNumber s1 = Some lastQueued).
    { rewrite (running_lastQueued a s1 H'), <- (running_lastQueued a s H). exact HL. }
    apply IH; try assumption.
    pose proof (ordered_lastQueued JSON_parse before s lastQueued (proj1 H) HL).
    destruct (Z.eq_dec (baseSequenceNumber s) lastQueued); [lia|].
    rewrite Hstep by (assumption || lia). lia.
Qed.

(** However far the worker had come, [n + 1] rounds process all that was
    admitted, [n] bounding the number of messages left. *)
Lemma workRounds_drain n a s lastQueued :
  running JSON_parse before a s ->
  lastQueuedSequenceNumber s = Some lastQueued ->
  lastQueued - baseSequenceNumber s <= Z.of_nat n ->
  let s' := run isSystemType JSON_parse (workRounds (S n)) s in
  running JSON_parse before a s' /\ baseSequenceNumber s' = lastQueued /\ inboundWork s' = Idle.
Proof.
  intros H HL Hn. cbn zeta. cbn [workRounds]. rewrite run_app.
  destruct (workRound_progress a s lastQueued H HL) as (H' & W' & Hle & _).
  set (s1 := run isSystemType JSON_parse workRound s) in *.
  assert (HL' : lastQueuedSequenceNumber s1 = Some lastQueued).
  { rewrite (running_lastQueued a s1 H'), <- (running_lastQueued a s H). exact HL. }
  apply workRounds_idle; try assumption. lia.
Qed.
End Draining.

Lemma asked_run isSystemType JSON_parse requests events :
  forall s,
    forallb (fun e => negb (isSettled e)) events = true ->
    asked requests s ->
    asked requests (run isSystemType JSON_parse events s).
Proof.
  induction events as [|e events IH]; intros s He H; [exact H|].
  cbn in He. apply andb_prop in He. destruct He as [He Hes].
  rewrite run_cons. apply IH; [exact Hes|].
  apply asked_step; [|exact H]. destruct (isSettled e); [discriminate He | reflexivity].
Qed.

Lemma admission_final m3 details s :
  admission s = expected m3 details 3 true ->
  lastQueuedSequenceNumber s = Some 3 /\ pending s = [].
Proof.
  unfold admission, expected. cbn. intro H.
  injection H as HL Hp _ _ _ _ _ _ _ _. split; assumption.
Qed.

(** C2.  Reordering tolerance.  The handler is attached at 0, the manager
    connected, nothing is pending and no fetch under way, the inbound queue
    is empty and running.  The messages 3, 1, 2 (which [processMessage]
    takes without throwing) are delivered on "op", in that order, in one
    array or several; the [getDeltas] that the gap at 3 starts is answered
    by storage with the messages 1 and 2, at any time after it started; the
    worker of the inbound queue works whenever it does.  Then, once the
    worker has gone through the queue, the handler has processed exactly 1,
    2, 3, in that order, exactly one request went to storage, for the range
    from 0 to 3, and nothing is left pending or queued.  Before that, what
    was processed is a beginning of 1, 2, 3. *)
Theorem reordering_tolerance :
  forall (isSystemType : MessageType -> bool) (JSON_parse : string -> option Contents)
         (m1 m2 m3 : ISequencedDocumentMessage) (details : IConnectionDetails)
         (s : DeltaManager) (events : list Event),
    sm_sequenceNumber m1 = 1 ->
    sm_sequenceNumber m2 = 2 ->
    sm_sequenceNumber m3 = 3 ->
    forallb (processable JSON_parse) [m1; m2; m3] = true ->
    (* the handler is attached at 0 *)
    handler s = true ->
    baseSequenceNumber s = 0 ->
    lastQueuedSequenceNumber s = Some 0 ->
    (* connected, not closed, delta storage resolved *)
    connection s = Some details ->
    deltaStorageP s = StorageResolved ->
    closed s = false ->
    (* nothing under way *)
    pending s = [] ->
    fetching s = false ->
    fetchP s = None ->
    inboundWork s = Idle ->
    _inbound s = mkQueue false false false [] ->
    schedule m1 m2 m3 0 false events ->
    let s' := run isSystemType JSON_parse (events ++ workRounds 4) s in
    processedOf (effects s') = processedOf (effects s) ++ [1; 2; 3] /\
    requestsOf (effects s') = requestsOf (effects s) ++ [(0, 3)] /\
    baseSequenceNumber s' = 3 /\
    pending s' = [] /\
    q_items (_inbound s') = [] /\
    exists k, (k <= 3)%nat /\
      processedOf (effects (run isSystemType JSON_parse events s)) =
      processedOf (effects s) ++ zseq 1 k.
Proof.
  intros isSystemType JSON_parse m1 m2 m3 details s events
    H1 H2 H3 Hp Hh Hb HL Hc Hs Hcl Hpend Hf HfP HW Hq Hsched s'.
  cbn in Hp. apply andb_prop in Hp. destruct Hp as [Hp1 Hp].
  apply andb_prop in Hp. destruct Hp as [Hp2 Hp].
  apply andb_prop in Hp. destruct Hp as [Hp3 _].
  set (before := processedOf (effects s)).
  set (requests := requestsOf (effects s)).
  assert (Hstart : inScenario JSON_parse m3 details before requests 0 false s).
  { split; [|split; [|split]].
    - unfold admission, expected. rewrite HL, Hpend, Hf, HfP, Hh, Hc, Hs, Hcl, Hq.
      reflexivity.
    - unfold ordered. rewrite Hh, Hq, Hpend, Hb, HL, HW. cbn.
      subst before. rewrite app_nil_r. repeat (split; [reflexivity || lia|]).
      exists 0. repeat split; lia.
    - unfold asked. subst requests. rewrite app_nil_r. reflexivity.
    - reflexivity. }
  pose proof (inScenario_schedule isSystemType JSON_parse m1 m2 m3 details H1 H2 H3
                Hp1 Hp2 Hp3 before requests 0 false events Hsched s Hstart)
    as (Ha & Ho & Hr & _).
  subst s'. rewrite run_app.
  set (s1 := run isSystemType JSON_parse events s) in *. clearbody s1.
  assert (HL1 : lastQueuedSequenceNumber s1 = Some 3)
    by exact (proj1 (admission_final m3 details s1 Ha)).
  assert (Hbase1 : 0 <= baseSequenceNumber s1 <= 3).
  { pose proof (ordered_lastQueued JSON_parse before s1 3 Ho HL1).
    destruct Ho as (_ & _ & _ & _ & Hb0 & _). lia. }
  destruct (workRounds_drain isSystemType JSON_parse before 3
              (expected m3 details 3 true) s1 3) as ((Ho' & Ha' & _) & Hb' & HW').
  { split; [exact Ho|]. split; [exact Ha | reflexivity]. }
  { exact HL1. }
  { lia. }
  set (s2 := run isSystemType JSON_parse (workRounds 4) s1) in *.
  assert (Hr' : asked (requests ++ [(0, 3)]) s2)
    by (apply asked_run; [reflexivity | exact Hr]).
  clearbody s2.
  split; [|split; [exact Hr'|split; [exact Hb'|split; [|split]]]].
  - destruct Ho' as (_ & _ & _ & _ & _ & He & _). rewrite He, Hb'. reflexivity.
  - exact (proj2 (admission_final m3 details s2 Ha')).
  - destruct Ho' as (_ & _ & _ & _ & _ & _ & L & HL' & Hw).
    assert (L = 3)
      by (pose proof (proj1 (admission_final m3 details s2 Ha')); congruence).
    subst L. rewrite HW', Hb' in Hw. destruct Hw as [_ Hw].
    change (zseq (3 + 1) (Z.to_nat (3 - 3))) with (@nil Z) in Hw.
    apply map_eq_nil in Hw. exact Hw.
  - exists (Z.to_nat (baseSequenceNumber s1)). split; [lia|].
    destruct Ho as (_ & _ & _ & _ & _ & He & _). exact He.
Qed.

Lemma reordering_tolerance_witness :
  let m := exampleMessage in
  let events := [OnOp [m 3]; OnOp [m 1]; GetDeltasSettled [Deltas [m 1; m 2]];
                 InboundRun; OnOp [m 2]] in
  schedule (m 1) (m 2) (m 3) 0 false events /\
  processedOf (effects (run isSystemType_spec parse_any (events ++ workRounds 4) attached)) =
  processedOf (effects attached) ++ [1; 2; 3].
Proof.
  cbv zeta.
  assert (Hs : schedule (exampleMessage 1) (exampleMessage 2) (exampleMessage 3) 0 false
                 [OnOp [exampleMessage 3]; OnOp [exampleMessage 1];
                  GetDeltasSettled [Deltas [exampleMessage 1; exampleMessage 2]];
                  InboundRun; OnOp [exampleMessage 2]]).
  { apply (schedule_deliver _ _ _ 0 false 1); [lia | lia |].
    apply (schedule_deliver _ _ _ 1 false 1); [lia | lia |].
    apply schedule_fetch; [lia|].
    apply schedule_work; [reflexivity|].
    apply (schedule_deliver _ _ _ 2 true 1); [lia | lia |].
    apply schedule_done. }
  split; [exact Hs|].
  exact (proj1 (reordering_tolerance isSystemType_spec parse_any
                  (exampleMessage 1) (exampleMessage 2) (exampleMessage 3) exampleDetails
                  attached
                  [OnOp [exampleMessage 3]; OnOp [exampleMessage 1];
                   GetDeltasSettled [Deltas [exampleMessage 1; exampleMessage 2]];
                   InboundRun; OnOp [exampleMessage 2]]
                  eq_refl eq_refl eq_refl eq_refl eq_refl eq_refl eq_refl
                  eq_refl eq_refl eq_refl eq_refl eq_refl eq_refl eq_refl eq_refl Hs)).
Defined.

(** * Further properties *)

(** ** [getDeltas] *)

Lemma fetchDelay_bounds retry : 0 <= retry -> 0 <= fetchDelay retry <= MaxFetchDelay.
Proof.
  intro H. unfold fetchDelay, MaxFetchDelay, MissingFetchDelay.
  destruct (retry =? 0); [lia|].
  assert (0 < 2 ^ retry) by (apply Z.pow_pos_nonneg; lia). lia.
Qed.

Lemma getDeltas_iteration_retry to retry from all reply retry' from' all' delay :
  0 <= retry ->
  getDeltas_iteration to retry from all reply = Again retry' from' all' delay ->
  0 <= retry' /\ delay = fetchDelay retry'.
Proof.
  intros H. unfold getDeltas_iteration. destruct reply as [deltas|].
  - destruct (match to with Some t => _ | None => _ end); [discriminate|].
    intro E. injection E as <- _ _ <-. destruct (Nat.eqb _ 0); split; (lia || reflexivity).
  - intro E. injection E as <- _ _ <-. split; [lia | reflexivity].
Qed.

(** X1.  The sleeps and the windows of [getDeltas].  Every sleep between two
    requests lasts between 0 and [MaxFetchDelay] ms, and every request asks
    for a window of at most [MaxBatchDeltas] that does not pass the upper
    bound of the call. *)
Theorem getDeltas_bounds :
  forall (to : option Z) (replies : list StorageReply) (retry from : Z)
         (all : list ISequencedDocumentMessage),
    0 <= retry ->
    let trace := run_trace (getDeltas_loop to retry from all replies) in
    Forall (fun delay => 0 <= delay <= MaxFetchDelay) (delaysOf trace) /\
    Forall (fun request =>
              snd request <= fst request + MaxBatchDeltas /\
              forall bound, to = Some bound -> snd request <= bound)
           (requestsOf trace).
Proof.
  intros to replies. induction replies as [|reply replies IH]; intros retry from all H.
  - cbn. split; [constructor|]. constructor; [|constructor]. cbn. unfold fetchTo.
    split; [destruct to; lia|]. intros bound ->. lia.
  - cbn -[fetchTo]. assert (Hreq : fetchTo from to <= from + MaxBatchDeltas /\
                           forall bound, to = Some bound -> fetchTo from to <= bound).
    { unfold fetchTo. split; [destruct to; lia|]. intros bound ->. lia. }
    destruct (getDeltas_iteration to retry from all reply) as [|retry' from' all' delay] eqn:E.
    + cbn. split; [constructor|]. constructor; [exact Hreq | constructor].
    + destruct (getDeltas_iteration_retry _ _ _ _ _ _ _ _ _ H E) as [H' ->].
      destruct (IH retry' from' all' H') as [IHd IHr].
      cbn -[fetchTo]. split.
      * constructor; [apply fetchDelay_bounds, H' | exact IHd].
      * constructor; [exact Hreq | exact IHr].
Qed.

Lemma getDeltas_bounds_witness :
  0 <= 0 /\
  Forall (fun delay => 0 <= delay <= MaxFetchDelay)
    (delaysOf (run_trace (getDeltas_loop (Some 9) 0 0 []
                            [Failure; Deltas []; Deltas [exampleMessage 4]; Failure]))).
Proof.
  assert (H : 0 <= 0) by lia. split; [exact H|].
  exact (proj1 (getDeltas_bounds (Some 9)
                  [Failure; Deltas []; Deltas [exampleMessage 4]; Failure] 0 0 [] H)).
Defined.



Lemma last_cons_default (A : Type) (x : A) (l : list A) (d : A) :
  last (x :: l) d = last l x.
Proof.
  assert (H : forall (k : list A) (y d1 d2 : A), last (y :: k) d1 = last (y :: k) d2).
  { induction k as [|z k IH]; intros y d1 d2; [reflexivity|].
    change (last (z :: k) d1 = last (z :: k) d2). apply IH. }
  destruct l as [|y l]; [reflexivity|].
  change (last (y :: l) d = last (y :: l) x). apply H.
Qed.

Lemma getDeltas_loop_bounded :
  forall (bound : Z) (replies : list StorageReply) (retry from : Z)
         (all : list ISequencedDocumentMessage),
    from + 1 <> bound ->
    (forallb (fun reply => negb (endsAt (bound - 1) reply)) replies = true ->
     run_result (getDeltas_loop (Some bound) retry from all replies) = None) /\
    (forall messages,
       run_result (getDeltas_loop (Some bound) retry from all replies) = Some messages ->
       exists before m,
         messages = before ++ [m] /\ sm_sequenceNumber m = bound - 1).
Proof.
  intros bound replies.
  induction replies as [|reply replies IH]; intros retry from all Hfrom.
  - split; [reflexivity | discriminate].
  - cbn -[fetchTo]. unfold getDeltas_iteration.
    destruct reply as [[|d deltas]|].
    + (* an empty answer *)
      cbn -[fetchTo]. replace (bound =? from + 1) with false
        by (symmetry; apply Z.eqb_neq; lia).
      cbn -[fetchTo]. destruct (IH (retry + 1) from (all ++ []) Hfrom) as [IH1 IH2].
      split; [intro H; apply IH1; exact H | exact IH2].
    + (* a batch *)
      cbn -[fetchTo].
      destruct (bound =? sm_sequenceNumber (last deltas d) + 1) eqn:E.
      * apply Z.eqb_eq in E. split.
        -- intro H. exfalso. apply andb_prop in H. destruct H as [H _].
           replace (sm_sequenceNumber (last deltas d) =? bound - 1) with true in H
             by (symmetry; apply Z.eqb_eq; lia).
           discriminate H.
        -- intros messages H. cbn in H. injection H as <-.
           exists (all ++ removelast (d :: deltas)), (last deltas d). split; [|lia].
           rewrite <- app_assoc. f_equal.
           rewrite <- (last_cons_default _ d deltas d).
           apply app_removelast_last. discriminate.
      * apply Z.eqb_neq in E. cbn -[fetchTo].
        assert (Hfrom' : sm_sequenceNumber (last deltas d) + 1 <> bound) by lia.
        destruct (IH 0 (sm_sequenceNumber (last deltas d)) (all ++ d :: deltas) Hfrom')
          as [IH1 IH2].
        split; [|exact IH2]. intro H. apply andb_prop in H. apply IH1, H.
    + (* a failed request *)
      cbn -[fetchTo]. destruct (IH (retry + 1) from all Hfrom) as [IH1 IH2].
      split; [intro H; apply IH1; exact H | exact IH2].
Qed.

(** X3.  A call with an upper bound resolves only on an answer that ends just
    below the bound.  Unless the call starts at [to - 1], [getDeltas(from,
    to)] resolves only when storage answers with a batch whose last message
    is numbered [to - 1]; empty answers, failures and batches ending
    elsewhere (at [to] itself, say) keep it retrying.  So the
    [getDeltas(seqNumber, seqNumber)] of [fetchContent] does not resolve on an
    answer that holds just the message [seqNumber]. *)
Theorem getDeltas_resolves_below_bound :
  forall (bound : Z) (replies : list StorageReply) (retry from : Z)
         (all : list ISequencedDocumentMessage),
    from + 1 <> bound ->
    (forallb (fun reply => negb (endsAt (bound - 1) reply)) replies = true ->
     run_result (getDeltas_loop (Some bound) retry from all replies) = None) /\
    (forall messages,
       run_result (getDeltas_loop (Some bound) retry from all replies) = Some messages ->
       exists before m,
         messages = before ++ [m] /\ sm_sequenceNumber m = bound - 1).
Proof. exact getDeltas_loop_bounded. Qed.

Lemma getDeltas_resolves_below_bound_witness :
  5 + 1 <> 5 /\
  run_result (getDeltas false 5 (Some 5)
                [Deltas [exampleMessage 5]; Deltas []; Deltas [exampleMessage 5]]) = None.
Proof.
  assert (H : 5 + 1 <> 5) by lia. split; [exact H|].
  exact (proj1 (getDeltas_resolves_below_bound 5
                  [Deltas [exampleMessage 5]; Deltas []; Deltas [exampleMessage 5]]
                  0 5 [] H) eq_refl).
Defined.
(** ** Admission of arbitrary deliveries *)

(** One turn of the loop of [enqueueMessages]: the three ways it can go. *)
Lemma enqueueMessage_cases m s lastQueued :
  lastQueuedSequenceNumber s = Some lastQueued ->
  let s' := enqueueMessage m s in
  (sm_sequenceNumber m = lastQueued + 1 /\
   lastQueuedSequenceNumber s' = Some (lastQueued + 1) /\
   q_items (_inbound s') = q_items (_inbound s) ++ [m] /\
   pending s' = pending s /\ fetching s' = fetching s) \/
  (lastQueued + 1 < sm_sequenceNumber m /\
   lastQueuedSequenceNumber s' = Some lastQueued /\
   q_items (_inbound s') = q_items (_inbound s) /\
   pending s' = pending s ++ [m] /\ fetching s' = true) \/
  (sm_sequenceNumber m <= lastQueued /\
   lastQueuedSequenceNumber s' = Some lastQueued /\
   q_items (_inbound s') = q_items (_inbound s) /\
   pending s' = pending s /\ fetching s' = fetching s).
Proof.
  intros HL s'. subst s'.
  assert (Hcases : sm_sequenceNumber m = lastQueued + 1 \/
                   lastQueued + 1 < sm_sequenceNumber m \/
                   sm_sequenceNumber m <= lastQueued) by lia.
  destruct Hcases as [Hc | [Hc | Hc]].
  - left. rewrite (enqueueMessage_next m s lastQueued HL Hc). cbv zeta.
    split; [exact Hc|]. split; [cbn; rewrite Hc; reflexivity|].
    split; [cbn; rewrite inbound_observe; reflexivity|].
    split; [apply pending_observe|].
    unfold observe. destruct (largestSequenceNumber s); reflexivity.
  - right; left. rewrite (enqueueMessage_gap m s lastQueued HL Hc).
    rewrite lastQueued_fetchMissingDeltas, inbound_fetchMissingDeltas,
      pending_fetchMissingDeltas.
    split; [exact Hc|]. split; [cbn; rewrite lastQueued_observe; exact HL|].
    split; [cbn; rewrite inbound_observe; reflexivity|].
    split; [reflexivity|].
    unfold fetchMissingDeltas, callGetDeltas.
    destruct (fetching (set_pending (pending s ++ [m]) (observe m s))) eqn:F; [exact F|].
    cbn. destruct (closed (observe m s)); reflexivity.
  - right; right. rewrite (enqueueMessage_duplicate m s lastQueued HL Hc).
    split; [exact Hc|]. split; [cbn; rewrite lastQueued_observe; exact HL|].
    split; [cbn; rewrite inbound_observe; reflexivity|].
    split; [apply pending_observe|].
    unfold observe. destruct (largestSequenceNumber s); reflexivity.
Qed.

Lemma enqueueMessages_cons m ms s :
  enqueueMessages (m :: ms) s = enqueueMessages ms (enqueueMessage m s).
Proof. reflexivity. Qed.

Lemma enqueueMessages_nil s : enqueueMessages [] s = s.
Proof. reflexivity. Qed.

(** What [enqueueMessages] does to the queue, whatever it is given. *)
Lemma enqueueMessages_queue ms : forall s lastQueued,
  lastQueuedSequenceNumber s = Some lastQueued ->
  exists added,
    q_items (_inbound (enqueueMessages ms s)) = q_items (_inbound s) ++ added /\
    map sm_sequenceNumber added = zseq (lastQueued + 1) (List.length added) /\
    lastQueuedSequenceNumber (enqueueMessages ms s) =
      Some (lastQueued + Z.of_nat (List.length added)) /\
    (forall m, In m added -> In m ms).
Proof.
  induction ms as [|m ms IH]; intros s L HL.
  - exists []. rewrite enqueueMessages_nil, app_nil_r. cbn. rewrite Z.add_0_r.
    repeat split; try assumption. intros m [].
  - rewrite enqueueMessages_cons.
    destruct (enqueueMessage_cases m s L HL)
      as [(Hm & HL' & Hq & _) | [(Hm & HL' & Hq & _) | (Hm & HL' & Hq & _)]].
    + destruct (IH _ _ HL') as (added & Hq' & Hn & HL'' & Hin).
      exists (m :: added). rewrite Hq', Hq, <- app_assoc. cbn [app List.length map zseq].
      repeat split.
      * rewrite Hn, Hm. reflexivity.
      * rewrite HL''. f_equal. lia.
      * intros x [<- | Hx]; [left; reflexivity | right; apply Hin, Hx].
    + destruct (IH _ _ HL') as (added & Hq' & Hn & HL'' & Hin).
      exists added. rewrite Hq', Hq. repeat split; try assumption.
      intros x Hx. right. apply Hin, Hx.
    + destruct (IH _ _ HL') as (added & Hq' & Hn & HL'' & Hin).
      exists added. rewrite Hq', Hq. repeat split; try assumption.
      intros x Hx. right. apply Hin, Hx.
Qed.

Lemma In_insertSorted x m l : In x (insertSorted m l) <-> x = m \/ In x l.
Proof.
  induction l as [|y l IH]; cbn.
  - split; intros [H | H]; auto.
  - destruct (sm_sequenceNumber m <=? sm_sequenceNumber y); cbn.
    + split; intros [H | H]; auto.
    + rewrite IH. split; intros [H | [H | H]]; auto.
Qed.

Lemma In_sortBySequenceNumber x l : In x (sortBySequenceNumber l) <-> In x l.
Proof.
  induction l as [|y l IH]; cbn; [reflexivity|].
  fold (sortBySequenceNumber l). rewrite In_insertSorted, IH.
  split; intros [H | H]; auto.
Qed.

Lemma sorted_insertSorted m l :
  sortedBySequenceNumber l = true -> sortedBySequenceNumber (insertSorted m l) = true.
Proof.
  induction l as [|y l IH]; intro H; [reflexivity|].
  cbn [insertSorted]. cbn [sortedBySequenceNumber] in H.
  apply andb_prop in H. destruct H as [Hy Hl].
  destruct (sm_sequenceNumber m <=? sm_sequenceNumber y) eqn:E.
  - cbn [sortedBySequenceNumber forallb]. rewrite E, Hy, Hl. cbn.
    rewrite andb_true_r. rewrite forallb_forall in *. intros x Hx.
    specialize (Hy x Hx). apply Z.leb_le in Hy, E. apply Z.leb_le. lia.
  - cbn [sortedBySequenceNumber]. rewrite (IH Hl), andb_true_r.
    rewrite forallb_insertSorted, Hy, andb_true_r.
    apply Z.leb_gt in E. apply Z.leb_le. lia.
Qed.

Lemma sorted_sortBySequenceNumber l :
  sortedBySequenceNumber (sortBySequenceNumber l) = true.
Proof.
  induction l as [|x l IH]; [reflexivity|].
  cbn. fold (sortBySequenceNumber l). apply sorted_insertSorted, IH.
Qed.

Lemma sorted_snoc l m :
  sortedBySequenceNumber l = true ->
  (forall x, In x l -> sm_sequenceNumber x <= sm_sequenceNumber m) ->
  sortedBySequenceNumber (l ++ [m]) = true.
Proof.
  induction l as [|y l IH]; intros H Hm; [reflexivity|].
  cbn [sortedBySequenceNumber app] in *. apply andb_prop in H. destruct H as [Hy Hl].
  rewrite forallb_app, Hy. cbn.
  rewrite (IH Hl (fun x Hx => Hm x (or_intror Hx))), !andb_true_r.
  apply Z.leb_le, Hm. left. reflexivity.
Qed.

(** A pass of [enqueueMessages] over sorted messages, from a state whose
    pending messages lie beyond a gap and below the messages to come. *)
Lemma enqueueMessages_sorted ms : forall s lastQueued,
  lastQueuedSequenceNumber s = Some lastQueued ->
  sortedBySequenceNumber ms = true ->
  sortedBySequenceNumber (pending s) = true ->
  (forall p, In p (pending s) -> lastQueued + 1 < sm_sequenceNumber p) ->
  (forall p m, In p (pending s) -> In m ms -> sm_sequenceNumber p <= sm_sequenceNumber m) ->
  (pending s <> [] -> fetching s = true) ->
  let s' := enqueueMessages ms s in
  exists lastQueued',
    lastQueuedSequenceNumber s' = Some lastQueued' /\
    sortedBySequenceNumber (pending s') = true /\
    (forall p, In p (pending s') -> lastQueued' + 1 < sm_sequenceNumber p) /\
    (pending s' <> [] -> fetching s' = true).
Proof.
  induction ms as [|m ms IH]; intros s L HL Hms Hp Hgap Hle Hf.
  - exists L. repeat split; assumption.
  - cbv zeta. rewrite enqueueMessages_cons.
    cbn [sortedBySequenceNumber] in Hms. apply andb_prop in Hms.
    destruct Hms as [Hm Hms]. rewrite forallb_forall in Hm.
    assert (Hempty : sm_sequenceNumber m <= L + 1 -> pending s = [])
      by (intro Hc; destruct (pending s) as [|p ps] eqn:P; [reflexivity|];
          exfalso;
          pose proof (Hgap p (or_introl eq_refl));
          pose proof (Hle p m (or_introl eq_refl) (or_introl eq_refl)); lia).
    destruct (enqueueMessage_cases m s L HL)
      as [(Hc & HL' & _ & HP & HF) | [(Hc & HL' & _ & HP & HF) | (Hc & HL' & _ & HP & HF)]].
    + assert (P : pending s = []) by (apply Hempty; lia).
      apply (IH _ _ HL' Hms); rewrite HP, P;
        [reflexivity | intros p [] | intros p x [] | intro X; contradiction X; reflexivity].
    + apply (IH _ _ HL' Hms); rewrite HP.
      * apply sorted_snoc; [exact Hp|]. intros x Hx. apply Hle; [exact Hx | left; reflexivity].
      * intros p Hin. apply in_app_or in Hin. destruct Hin as [Hin | [<- | []]];
          [apply Hgap, Hin | exact Hc].
      * intros p x Hin Hx. apply in_app_or in Hin. destruct Hin as [Hin | [<- | []]].
        -- apply Hle; [exact Hin | right; exact Hx].
        -- apply Z.leb_le, Hm, Hx.
      * intros _. exact HF.
    + assert (P : pending s = []) by (apply Hempty; lia).
      apply (IH _ _ HL' Hms); rewrite HP, P;
        [reflexivity | intros p [] | intros p x [] | intro X; contradiction X; reflexivity].
Qed.

(** What [enqueueMessages] does to [pending], whatever it is given. *)
Lemma enqueueMessages_pending ms : forall s lastQueued,
  lastQueuedSequenceNumber s = Some lastQueued ->
  let s' := enqueueMessages ms s in
  exists lastQueued',
    lastQueuedSequenceNumber s' = Some lastQueued' /\ lastQueued <= lastQueued' /\
    (forall p, In p (pending s) -> In p (pending s')) /\
    (forall m, In m ms -> sm_sequenceNumber m <= lastQueued' \/ In m (pending s')) /\
    (forall p, In p (pending s') -> In p (pending s) \/ In p ms).
Proof.
  induction ms as [|m ms IH]; intros s L HL.
  - exists L. cbn. repeat split; try assumption; try lia; auto.
  - cbv zeta. rewrite enqueueMessages_cons.
    destruct (enqueueMessage_cases m s L HL)
      as [(Hc & HL' & _ & HP & _) | [(Hc & HL' & _ & HP & _) | (Hc & HL' & _ & HP & _)]];
      destruct (IH _ _ HL') as (L' & HL'' & Hle & Hkeep & Hms & Hfrom);
      exists L'; (split; [exact HL''|]); (split; [lia|]); rewrite HP in *.
    + split; [exact Hkeep|]. split.
      * intros x [<- | Hx]; [left; lia | apply Hms, Hx].
      * intros p Hp. destruct (Hfrom p Hp) as [H | H]; [left; exact H | right; right; exact H].
    + split; [intros p Hp; apply Hkeep, in_or_app; left; exact Hp|]. split.
      * intros x [<- | Hx]; [right; apply Hkeep, in_or_app; right; left; reflexivity
                            | apply Hms, Hx].
      * intros p Hp. destruct (Hfrom p Hp) as [H | H].
        -- apply in_app_or in H. destruct H as [H | [<- | []]];
             [left; exact H | right; left; reflexivity].
        -- right; right; exact H.
    + split; [exact Hkeep|]. split.
      * intros x [<- | Hx]; [left; lia | apply Hms, Hx].
      * intros p Hp. destruct (Hfrom p Hp) as [H | H]; [left; exact H | right; right; exact H].
Qed.

(** X4.  Only the next numbers enter the inbound queue.  Whatever messages
    [enqueueMessages] is given, in whatever order and with whatever
    repetitions, the inbound queue keeps what it held and grows by
    messages taken from those given whose numbers are exactly the ones that
    follow [lastQueuedSequenceNumber], one by one, and
    [lastQueuedSequenceNumber] ends at the last of them. *)
Theorem enqueueMessages_admits_consecutively :
  forall (messages : list ISequencedDocumentMessage) (s : DeltaManager) (lastQueued : Z),
    lastQueuedSequenceNumber s = Some lastQueued ->
    exists added,
      q_items (_inbound (enqueueMessages messages s)) = q_items (_inbound s) ++ added /\
      map sm_sequenceNumber added = zseq (lastQueued + 1) (List.length added) /\
      lastQueuedSequenceNumber (enqueueMessages messages s) =
        Some (lastQueued + Z.of_nat (List.length added)) /\
      (forall m, In m added -> In m messages).
Proof. intros messages s lastQueued H. exact (enqueueMessages_queue messages s lastQueued H). Qed.

Lemma enqueueMessages_admits_consecutively_witness :
  lastQueuedSequenceNumber
    (attachOpHandler 0 false (create None 0)) = Some 0 /\
  exists added,
    q_items (_inbound (enqueueMessages
                         [exampleMessage 3; exampleMessage 1; exampleMessage 1;
                          exampleMessage 2]
                         (attachOpHandler 0 false (create None 0)))) =
      q_items (_inbound (attachOpHandler 0 false (create None 0))) ++ added /\
    map sm_sequenceNumber added = zseq (0 + 1) (List.length added).
Proof.
  split; [reflexivity|].
  destruct (enqueueMessages_admits_consecutively
              [exampleMessage 3; exampleMessage 1; exampleMessage 1; exampleMessage 2]
              (attachOpHandler 0 false (create None 0)) 0 eq_refl)
    as (added & H1 & H2 & _).
  exists added. split; [exact H1 | exact H2].
Defined.

Lemma catchUp_unfold reason ms s :
  catchUp reason ms s =
  let s1 := enqueueMessages ms
              (log (LogCatchUp reason (List.length ms) (List.length (pending s))) s) in
  enqueueMessages (sortBySequenceNumber (pending s1)) (set_pending [] s1).
Proof. reflexivity. Qed.

(** X5.  What [catchUp] leaves pending lies beyond a gap.  After [catchUp],
    every message still in [pending] has a number above the one that
    follows [lastQueuedSequenceNumber], [pending] is in non-decreasing order
    of sequence number, and if a message is left pending [fetching] is set
    (a fetch for the gap was started unless one was under way). *)
Theorem catchUp_pending_is_beyond_the_gap :
  forall (reason : string) (messages : list ISequencedDocumentMessage)
         (s : DeltaManager) (lastQueued : Z),
    lastQueuedSequenceNumber s = Some lastQueued ->
    let s' := catchUp reason messages s in
    exists lastQueued',
      lastQueuedSequenceNumber s' = Some lastQueued' /\
      sortedBySequenceNumber (pending s') = true /\
      (forall p, In p (pending s') -> lastQueued' + 1 < sm_sequenceNumber p) /\
      (pending s' <> [] -> fetching s' = true).
Proof.
  intros reason ms s L HL. cbv zeta. rewrite catchUp_unfold. cbv zeta.
  set (s0 := log _ s).
  assert (HL0 : lastQueuedSequenceNumber s0 = Some L) by exact HL.
  destruct (enqueueMessages_pending ms s0 L HL0) as (L1 & HL1 & _).
  set (s1 := enqueueMessages ms s0) in *.
  apply (enqueueMessages_sorted (sortBySequenceNumber (pending s1)) (set_pending [] s1) L1).
  - exact HL1.
  - apply sorted_sortBySequenceNumber.
  - reflexivity.
  - intros p [].
  - intros p m [].
  - intro X. contradiction X. reflexivity.
Qed.

Lemma catchUp_pending_is_beyond_the_gap_witness :
  lastQueuedSequenceNumber (attachOpHandler 0 false (create None 0)) = Some 0 /\
  exists lastQueued',
    lastQueuedSequenceNumber
      (catchUp "test" [exampleMessage 7; exampleMessage 1; exampleMessage 5]
         (attachOpHandler 0 false (create None 0))) = Some lastQueued' /\
    sortedBySequenceNumber
      (pending (catchUp "test" [exampleMessage 7; exampleMessage 1; exampleMessage 5]
                  (attachOpHandler 0 false (create None 0)))) = true.
Proof.
  split; [reflexivity|].
  destruct (catchUp_pending_is_beyond_the_gap "test"
              [exampleMessage 7; exampleMessage 1; exampleMessage 5]
              (attachOpHandler 0 false (create None 0)) 0 eq_refl)
    as (L & H1 & H2 & _).
  exists L. split; [exact H1 | exact H2].
Defined.

(** X6.  [catchUp] loses no message that is still to come.  Every message
    given to [catchUp], and every message that was pending before, is
    afterwards either covered by [lastQueuedSequenceNumber] (it was queued,
    or its number had been queued before) or still in [pending]; and
    [pending] holds nothing but such messages. *)
Theorem catchUp_loses_nothing :
  forall (reason : string) (messages : list ISequencedDocumentMessage)
         (s : DeltaManager) (lastQueued : Z),
    lastQueuedSequenceNumber s = Some lastQueued ->
    let s' := catchUp reason messages s in
    exists lastQueued',
      lastQueuedSequenceNumber s' = Some lastQueued' /\ lastQueued <= lastQueued' /\
      (forall m, In m (messages ++ pending s) ->
                 sm_sequenceNumber m <= lastQueued' \/ In m (pending s')) /\
      (forall p, In p (pending s') -> In p (messages ++ pending s)).
Proof.
  intros reason ms s L HL. cbv zeta. rewrite catchUp_unfold. cbv zeta.
  set (s0 := log _ s).
  assert (HL0 : lastQueuedSequenceNumber s0 = Some L) by exact HL.
  destruct (enqueueMessages_pending ms s0 L HL0) as (L1 & HL1 & Hle1 & Hkeep1 & Hms1 & Hfrom1).
  set (s1 := enqueueMessages ms s0) in *.
  assert (HL1' : lastQueuedSequenceNumber (set_pending [] s1) = Some L1) by exact HL1.
  destruct (enqueueMessages_pending (sortBySequenceNumber (pending s1)) (set_pending [] s1)
              L1 HL1') as (L2 & HL2 & Hle2 & _ & Hms2 & Hfrom2).
  exists L2. split; [exact HL2|]. split; [lia|]. split.
  - intros m Hm.
    assert (Hmid : sm_sequenceNumber m <= L1 \/ In m (pending s1)).
    { apply in_app_or in Hm. destruct Hm as [Hm | Hm];
        [apply Hms1, Hm | right; apply Hkeep1, Hm]. }
    destruct Hmid as [Hmid | Hmid]; [left; lia|].
    apply Hms2, In_sortBySequenceNumber, Hmid.
  - intros p Hp. destruct (Hfrom2 p Hp) as [H | H]; [cbn in H; destruct H|].
    apply (proj1 (In_sortBySequenceNumber _ _)) in H. apply in_or_app.
    destruct (Hfrom1 p H) as [H1 | H1]; [right; exact H1 | left; exact H1].
Qed.

Lemma catchUp_loses_nothing_witness :
  lastQueuedSequenceNumber (attachOpHandler 0 false (create None 0)) = Some 0 /\
  exists lastQueued',
    lastQueuedSequenceNumber
      (catchUp "test" [exampleMessage 7; exampleMessage 1; exampleMessage 5]
         (attachOpHandler 0 false (create None 0))) = Some lastQueued' /\
    0 <= lastQueued'.
Proof.
  split; [reflexivity|].
  destruct (catchUp_loses_nothing "test"
              [exampleMessage 7; exampleMessage 1; exampleMessage 5]
              (attachOpHandler 0 false (create None 0)) 0 eq_refl)
    as (L & H1 & H2 & _).
  exists L. split; [exact H1 | exact H2].
Defined.

Lemma largest_enqueueMessage m s :
  largestSequenceNumber (enqueueMessage m s) =
  option_map (fun largest => Z.max largest (sm_sequenceNumber m)) (largestSequenceNumber s).
Proof.
  rewrite <- largest_observe. unfold enqueueMessage. fold (observe m s).
  destruct (lastQueuedSequenceNumber (observe m s)) as [L|]; [|reflexivity].
  destruct (negb (sm_sequenceNumber m =? L + 1)); [|reflexivity].
  unfold handleOutOfOrderMessage.
  destruct (lastQueuedSequenceNumber (observe m s)) as [L'|]; [|reflexivity].
  destruct (sm_sequenceNumber m <=? L'); [reflexivity|].
  rewrite largest_fetchMissingDeltas. reflexivity.
Qed.

Lemma largestOf_le start ms : start <= largestOf start ms.
Proof.
  revert start. induction ms as [|m ms IH]; intro start; cbn; [lia|].
  specialize (IH (Z.max start (sm_sequenceNumber m))). unfold largestOf in IH. lia.
Qed.

Lemma largestOf_mono a b ms : a <= b -> largestOf a ms <= largestOf b ms.
Proof.
  revert a b. induction ms as [|m ms IH]; intros a b H; cbn; [exact H|].
  apply IH. lia.
Qed.

(** X7.  [largestSequenceNumber] is the largest number seen.  Once it is
    set, after [enqueueMessages] it is the maximum of its former value and
    of the numbers of all the messages given, whether they were queued, left
    pending or dropped as duplicates; and [lastQueuedSequenceNumber], if it
    was not above it, is still not above it. *)
Theorem largestSequenceNumber_is_the_maximum :
  forall (messages : list ISequencedDocumentMessage) (s : DeltaManager)
         (largest lastQueued : Z),
    largestSequenceNumber s = Some largest ->
    lastQueuedSequenceNumber s = Some lastQueued ->
    lastQueued <= largest ->
    let s' := enqueueMessages messages s in
    largestSequenceNumber s' = Some (largestOf largest messages) /\
    exists lastQueued',
      lastQueuedSequenceNumber s' = Some lastQueued' /\
      lastQueued' <= largestOf largest messages.
Proof.
  induction messages as [|m ms IH]; intros s G L HG HL Hle.
  - cbn. split; [exact HG|]. exists L. split; [exact HL | exact Hle].
  - cbv zeta. rewrite enqueueMessages_cons.
    assert (HG' : largestSequenceNumber (enqueueMessage m s) =
                  Some (Z.max G (sm_sequenceNumber m)))
      by (rewrite largest_enqueueMessage, HG; reflexivity).
    destruct (enqueueMessage_cases m s L HL)
      as [(Hc & HL' & _) | [(Hc & HL' & _) | (Hc & HL' & _)]];
      apply (IH _ _ _ HG' HL'); lia.
Qed.

Lemma largestSequenceNumber_is_the_maximum_witness :
  largestSequenceNumber (attachOpHandler 0 false (create None 0)) = Some 0 /\
  lastQueuedSequenceNumber (attachOpHandler 0 false (create None 0)) = Some 0 /\
  0 <= 0 /\
  largestSequenceNumber
    (enqueueMessages [exampleMessage 4; exampleMessage 9; exampleMessage 1]
       (attachOpHandler 0 false (create None 0))) =
  Some (largestOf 0 [exampleMessage 4; exampleMessage 9; exampleMessage 1]).
Proof.
  assert (H : 0 <= 0) by lia.
  split; [reflexivity|]. split; [reflexivity|]. split; [exact H|].
  exact (proj1 (largestSequenceNumber_is_the_maximum
                  [exampleMessage 4; exampleMessage 9; exampleMessage 1]
                  (attachOpHandler 0 false (create None 0)) 0 0 eq_refl eq_refl H)).
Defined.
(** ** Local submissions and acknowledgements *)

Lemma submit_counters isSystemType type contents s :
  clientSequenceNumber (snd (submit isSystemType type contents s)) =
    clientSequenceNumber s + 1 /\
  baseSequenceNumber (snd (submit isSystemType type contents s)) = baseSequenceNumber s.
Proof.
  unfold submit, stopSequenceNumberUpdate. cbn.
  destruct (updateSequenceNumberTimer s); cbn; split; reflexivity.
Qed.

Lemma createOutboundMessage_header isSystemType type core :
  dm_clientSequenceNumber (createOutboundMessage isSystemType type core) =
    dm_clientSequenceNumber core /\
  dm_referenceSequenceNumber (createOutboundMessage isSystemType type core) =
    dm_referenceSequenceNumber core /\
  dm_type (createOutboundMessage isSystemType type core) = dm_type core.
Proof.
  unfold createOutboundMessage. destruct (isSystemType type); repeat split; reflexivity.
Qed.

(** X8.  [submit] numbers the local messages consecutively.  Any series
    of calls of [submit] returns the numbers that follow
    [clientSequenceNumber], one by one, and appends to the outbound queue, in
    the order of the calls, one envelope per call that carries the number
    returned, the type given and, as reference sequence number, the
    [baseSequenceNumber] of the manager. *)
Theorem submit_numbers_consecutively :
  forall (isSystemType : MessageType -> bool)
         (calls : list (MessageType * option string)) (s : DeltaManager),
    let result := submitAll isSystemType calls s in
    fst result = zseq (clientSequenceNumber s + 1) (List.length calls) /\
    clientSequenceNumber (snd result) = clientSequenceNumber s + Z.of_nat (List.length calls) /\
    exists added,
      q_items (_outbound (snd result)) = q_items (_outbound s) ++ added /\
      map dm_clientSequenceNumber added = fst result /\
      map dm_type added = map fst calls /\
      map dm_referenceSequenceNumber added = map (fun _ => baseSequenceNumber s) calls.
Proof.
  intros isSystemType calls. induction calls as [|[type contents] calls IH]; intro s.
  - cbn. split; [reflexivity|]. split; [lia|]. exists []. rewrite app_nil_r.
    repeat split; reflexivity.
  - cbn [submitAll].
    destruct (submit isSystemType type contents s) as [number s1] eqn:E.
    destruct (submit_pushes isSystemType type contents s) as (Hn & Hq & _).
    destruct (submit_counters isSystemType type contents s) as (Hc & Hb).
    rewrite E in Hn, Hq, Hc, Hb. cbn [fst snd] in Hn, Hq, Hc, Hb.
    specialize (IH s1). cbv zeta in IH.
    destruct (submitAll isSystemType calls s1) as [numbers s2] eqn:E2.
    cbn [fst snd] in *. destruct IH as (IHn & IHc & added & IHq & IHa & IHt & IHr).
    split; [rewrite IHn, Hn, Hc; reflexivity|].
    split; [rewrite IHc, Hc; cbn [List.length]; lia|].
    exists (envelopeOf isSystemType type contents s :: added).
    destruct (createOutboundMessage_header isSystemType type
                (mkDocument (clientSequenceNumber s + 1) (ofNullable contents)
                   (baseSequenceNumber s) [mkTrace "start" (clientType s) (clock s)]
                   type None)) as (H1 & H2 & H3).
    split; [rewrite IHq, Hq, <- app_assoc; reflexivity|].
    unfold envelopeOf. cbn [map]. rewrite H1, H2, H3, IHa, IHt, IHr, Hn, Hb.
    repeat split; reflexivity.
Qed.

Lemma iter_updateSequenceNumber isSystemType type k s :
  readonly s = false ->
  updateSequenceNumberTimer s = None ->
  isPropose type = false ->
  Nat.iter (S k) (updateSequenceNumber isSystemType type) s =
  let armed := set_updateSequenceNumberTimer (Some type) (log (SetTimeout 100) s) in
  match k with
  | O => armed
  | S _ => set_updateHasBeenRequested true armed
  end.
Proof.
  intros Hr Ht Hp. induction k as [|k IH].
  - cbn. unfold updateSequenceNumber. rewrite Hr, Hp, Ht. reflexivity.
  - change (Nat.iter (S (S k)) (updateSequenceNumber isSystemType type) s)
      with (updateSequenceNumber isSystemType type
              (Nat.iter (S k) (updateSequenceNumber isSystemType type) s)).
    rewrite IH. cbv zeta. unfold updateSequenceNumber.
    destruct k; cbn; rewrite Hr, Hp; reflexivity.
Qed.

(** X9.  Acknowledgements are coalesced.  On a manager that is not
    readonly and has no acknowledgement under way, any burst of one or more
    calls of [updateSequenceNumber] for a type other than [Propose] arms a
    single 100 ms timer and pushes nothing.  After a burst of one call the
    timer sends the [NoOp]; after a longer burst the timer only arms itself
    again, and the second timer sends it.  Either way the burst is answered
    by exactly one [NoOp], with [null] contents, which refers to the
    [baseSequenceNumber] of the time it is sent. *)
Theorem acknowledgements_are_coalesced :
  forall (isSystemType : MessageType -> bool) (type : MessageType) (k : nat)
         (s : DeltaManager),
    readonly s = false ->
    updateSequenceNumberTimer s = None ->
    updateHasBeenRequested s = false ->
    isPropose type = false ->
    let burst := Nat.iter (S k) (updateSequenceNumber isSystemType type) s in
    let fired := updateSequenceNumberTimeout isSystemType burst in
    let ack := envelopeOf isSystemType NoOp None s in
    effects burst = effects s ++ [SetTimeout 100] /\
    _outbound burst = _outbound s /\
    updateSequenceNumberTimer burst = Some type /\
    match k with
    | O =>
        effects fired = effects s ++ [SetTimeout 100; OutboundPush ack] /\
        q_items (_outbound fired) = q_items (_outbound s) ++ [ack] /\
        updateSequenceNumberTimer fired = None
    | S _ =>
        effects fired = effects s ++ [SetTimeout 100; SetTimeout 100] /\
        _outbound fired = _outbound s /\
        let again := updateSequenceNumberTimeout isSystemType fired in
        effects again =
          effects s ++ [SetTimeout 100; SetTimeout 100; OutboundPush ack] /\
        q_items (_outbound again) = q_items (_outbound s) ++ [ack] /\
        updateSequenceNumberTimer again = None
    end.
Proof.
  intros isSystemType type k s Hr Ht Hf Hp. cbv zeta.
  rewrite (iter_updateSequenceNumber isSystemType type k s Hr Ht Hp). cbv zeta.
  destruct k as [|k].
  - split; [reflexivity|]. split; [reflexivity|]. split; [reflexivity|].
    unfold updateSequenceNumberTimeout, submit, stopSequenceNumberUpdate, envelopeOf.
    cbn. rewrite Hf. cbn. rewrite <- app_assoc. repeat split; reflexivity.
  - split; [reflexivity|]. split; [reflexivity|]. split; [reflexivity|].
    unfold updateSequenceNumberTimeout, updateSequenceNumber, submit,
      stopSequenceNumberUpdate, envelopeOf.
    cbn. rewrite Hr, Hp. cbn. rewrite <- !app_assoc. repeat split; reflexivity.
Qed.

Lemma acknowledgements_are_coalesced_witness :
  let s := snd (submit isSystemType_spec Operation (Some "op") (create None 0)) in
  readonly s = false /\
  effects (updateSequenceNumberTimeout isSystemType_spec
             (updateSequenceNumberTimeout isSystemType_spec
                (Nat.iter 5 (updateSequenceNumber isSystemType_spec Operation) s))) =
  effects s ++ [SetTimeout 100; SetTimeout 100;
                OutboundPush (envelopeOf isSystemType_spec NoOp None s)].
Proof.
  cbv zeta. split; [reflexivity|].
  exact (proj1 (proj2 (proj2 (proj2 (proj2 (proj2
    (acknowledgements_are_coalesced isSystemType_spec Operation 4
       (snd (submit isSystemType_spec Operation (Some "op") (create None 0)))
       eq_refl eq_refl eq_refl eq_refl))))))).
Defined.


(** ** What the admission of messages leaves alone *)

Lemma callsOf_app a b : callsOf (a ++ b) = callsOf a ++ callsOf b.
Proof. unfold callsOf. apply filter_app. Qed.

Lemma callsOf_getDeltas_loop to replies :
  forall retry from all, callsOf (run_trace (getDeltas_loop to retry from all replies)) = [].
Proof.
  induction replies as [|r replies IH]; intros retry from all; cbn; [reflexivity|].
  destruct (getDeltas_iteration to retry from all r); cbn; [reflexivity | apply IH].
Qed.

Lemma callsOf_settle call replies s trace messages :
  settle call replies s = Some (trace, messages) -> callsOf trace = [].
Proof.
  unfold settle, getDeltas. intro H.
  destruct (gd_closed call || storageReady s); [|discriminate H].
  destruct (gd_closed call).
  - cbn in H. injection H as <- _. reflexivity.
  - destruct (run_result _) eqn:E in H; [|discriminate H].
    injection H as <- _. apply callsOf_getDeltas_loop.
Qed.

Lemma session_log e s : callsOf [e] = [] -> session (log e s) = session s.
Proof.
  intro He. unfold session, log. cbn. rewrite callsOf_app, He, app_nil_r. reflexivity.
Qed.

Lemma session_logAll es s : callsOf es = [] -> session (logAll es s) = session s.
Proof.
  intro He. unfold session, logAll. cbn. rewrite callsOf_app, He, app_nil_r. reflexivity.
Qed.

Lemma session_emit e s : session (emit e s) = session s.
Proof.
  unfold emit. destruct (listeners s); [|reflexivity]. apply session_log. reflexivity.
Qed.

Lemma session_fetchMissingDeltas reason from to s :
  session (fetchMissingDeltas reason from to s) = session s.
Proof.
  unfold fetchMissingDeltas, callGetDeltas.
  destruct (fetching s); [apply session_log; reflexivity|].
  cbn. destruct (closed s).
  - exact (session_log LogGetDeltasClosedConnection (set_fetching true s) eq_refl).
  - exact (session_log (LogGetDeltasStart reason from to) (set_fetching true s) eq_refl).
Qed.

Lemma session_enqueueMessage m s : session (enqueueMessage m s) = session s.
Proof.
  unfold enqueueMessage, handleOutOfOrderMessage.
  repeat first [ reflexivity
               | rewrite session_fetchMissingDeltas
               | rewrite session_log by reflexivity
               | break_goal ].
Qed.

Lemma fold_left_session {A : Type} (f : DeltaManager -> A -> DeltaManager) (l : list A) :
  (forall s x, session (f s x) = session s) ->
  forall s, session (fold_left f l s) = session s.
Proof.
  intro Hf. induction l as [|x l IH]; intro s; cbn; [reflexivity|].
  rewrite IH. apply Hf.
Qed.

Lemma session_enqueueMessages ms s : session (enqueueMessages ms s) = session s.
Proof.
  unfold enqueueMessages. apply fold_left_session. intros; apply session_enqueueMessage.
Qed.

Lemma session_catchUp reason ms s : session (catchUp reason ms s) = session s.
Proof.
  rewrite catchUp_unfold. cbv zeta. rewrite session_enqueueMessages.
  transitivity (session (enqueueMessages ms
    (log (LogCatchUp reason (List.length ms) (List.length (pending s))) s)));
    [reflexivity|].
  rewrite session_enqueueMessages. apply session_log. reflexivity.
Qed.

Lemma session_lateContentHandler r clId s :
  session (lateContentHandler r clId s) = session s.
Proof. unfold lateContentHandler. repeat first [reflexivity | break_goal]. Qed.

Lemma session_contentCacheSet c s : session (contentCacheSet c s) = session s.
Proof.
  unfold contentCacheSet. rewrite fold_left_session; [reflexivity|].
  intros; apply session_lateContentHandler.
Qed.

Lemma session_enqueInitalOps i s : session (enqueInitalOps i s) = session s.
Proof.
  unfold enqueInitalOps. destruct i as [ms cs].
  assert (H : session (fold_left (fun s c => contentCacheSet c s) cs s) = session s)
    by (apply fold_left_session; intros; apply session_contentCacheSet).
  destruct ms; [exact H | rewrite session_catchUp; exact H].
Qed.

Lemma session_enqueInitalSignals l s : session (enqueInitalSignals l s) = session s.
Proof. unfold enqueInitalSignals. apply fold_left_session. reflexivity. Qed.

Lemma session_inboundResumed q s : session (inboundResumed q s) = session s.
Proof.
  unfold inboundResumed. destruct (Queue.resumes q (_inbound s)); [|reflexivity].
  rewrite fold_left_session; [reflexivity|]. intros; apply session_enqueInitalOps.
Qed.

Lemma session_signalResumed q s : session (signalResumed q s) = session s.
Proof.
  unfold signalResumed. destruct (Queue.resumes q (_inboundSignal s)); [|reflexivity].
  rewrite fold_left_session; [reflexivity|]. intros; apply session_enqueInitalSignals.
Qed.

Lemma session_processInitialMessages ms cs sigs s :
  session (processInitialMessages ms cs sigs s) = session s.
Proof.
  unfold processInitialMessages.
  set (s1 := if negb (handler s) || Queue.paused (_inbound s) then _ else _).
  assert (H1 : session s1 = session s)
    by (subst s1; destruct (negb (handler s) || Queue.paused (_inbound s));
        [reflexivity | apply session_enqueInitalOps]).
  destruct (negb (handler s1) || Queue.paused (_inboundSignal s1));
    [exact H1 | rewrite session_enqueInitalSignals; exact H1].
Qed.

(** A view of the state that is a function of [session] is left alone too. *)
Ltac session_frame view_session :=
  erewrite view_session by
    first [ apply session_log; reflexivity
          | apply session_logAll; solve [reflexivity | eauto using callsOf_settle]
          | apply session_emit
          | apply session_fetchMissingDeltas
          | apply session_enqueueMessages
          | apply session_catchUp
          | apply session_contentCacheSet
          | apply session_enqueInitalOps
          | apply session_enqueInitalSignals
          | apply session_inboundResumed
          | apply session_signalResumed
          | apply session_processInitialMessages ].

(** ** The acknowledgement throttle is consistent *)

Lemma ackState_session x y : session x = session y -> ackState x = ackState y.
Proof. unfold session, ackState. intro H. injection H. intros. congruence. Qed.

Arguments ackState : simpl never.

Ltac ack_frame :=
  repeat first
    [ reflexivity
    | match goal with
      | |- ackState _ = _ => session_frame ackState_session
      | |- (readonly ?x, updateSequenceNumberTimer ?x, updateHasBeenRequested ?x) = ?c =>
          change (ackState x = c); session_frame ackState_session
      end
    | progress unfold ackState
    | progress cbn
    | break_goal ].

Lemma ackState_inboundError e s : ackState (inboundError e s) = ackState s.
Proof. unfold inboundError. ack_frame. Qed.

Lemma ackState_processInboundOp JSON_parse op sync s :
  ackState (processInboundOp JSON_parse op sync s) = ackState s.
Proof.
  unfold processInboundOp, processMessage.
  repeat first [ reflexivity | rewrite ackState_inboundError | break_goal ].
Qed.

Lemma ackState_step isSystemType JSON_parse e s :
  touchesAck e = false ->
  ackState (step isSystemType JSON_parse e s) = ackState s.
Proof.
  intro He.
  destruct e; try discriminate He; unfold step;
    unfold attachOpHandler, inboundSystemResume, signalSystemResume,
      inboundResume, signalResume, connect, connectCore, submitSignal,
      connectResolved, connectRejected, reconnectTimeout,
      deltaStorageConnected, onOp, onOpContent, onSignal, onDisconnect,
      inboundRun, handleOpContent, mergeAndProcess, callGetDeltas,
      outboundRun, outboundError, signalRun, signalError,
      postProcessed, handlerRejected, fetchContentSettled,
      getDeltasSettled, fetchMissingDeltasResolved, getDeltasRejected,
      submitAsyncResolved, submitAsyncRejected.
  all: unfold outboundError, signalError, mergeAndProcess.
  all: repeat first
    [ reflexivity
    | rewrite ackState_processInboundOp
    | rewrite ackState_inboundError
    | match goal with
      | |- ackState _ = _ => session_frame ackState_session
      | |- (readonly ?x, updateSequenceNumberTimer ?x, updateHasBeenRequested ?x) = ?c =>
          change (ackState x = c);
          first [ rewrite ackState_processInboundOp
                | rewrite ackState_inboundError
                | session_frame ackState_session ]
      end
    | progress unfold ackState
    | progress cbn
    | break_goal ].
Qed.
Lemma throttled_ackState x y : ackState x = ackState y -> throttled y -> throttled x.
Proof.
  unfold ackState, throttled. intros H Hy. injection H as -> -> ->. exact Hy.
Qed.

Lemma throttled_submit isSystemType type contents s :
  throttled (snd (submit isSystemType type contents s)).
Proof.
  unfold throttled, submit, stopSequenceNumberUpdate. cbn.
  destruct (updateSequenceNumberTimer s); cbn; split; intro H;
    solve [reflexivity | discriminate H].
Qed.

Lemma throttled_updateSequenceNumber isSystemType type s :
  throttled s -> throttled (updateSequenceNumber isSystemType type s).
Proof.
  intro H. unfold updateSequenceNumber.
  destruct (readonly s) eqn:Hr; [exact H|].
  destruct (isPropose type); [apply throttled_submit|].
  destruct (updateSequenceNumberTimer s) eqn:Ht; unfold throttled; cbn;
    rewrite ?Hr, ?Ht; split; intro X; discriminate X.
Qed.

Lemma throttled_updateSequenceNumberTimeout isSystemType s :
  throttled s -> throttled (updateSequenceNumberTimeout isSystemType s).
Proof.
  intro H. unfold updateSequenceNumberTimeout.
  destruct (updateSequenceNumberTimer s) as [type|] eqn:Ht; [|exact H].
  cbn. destruct (updateHasBeenRequested s) eqn:Hf; cbn.
  - apply throttled_updateSequenceNumber. unfold throttled. cbn.
    split; reflexivity.
  - apply throttled_submit.
Qed.

Lemma throttled_stopSequenceNumberUpdate s :
  updateSequenceNumberTimer (stopSequenceNumberUpdate s) = None /\
  updateHasBeenRequested (stopSequenceNumberUpdate s) = false /\
  readonly (stopSequenceNumberUpdate s) = readonly s.
Proof.
  unfold stopSequenceNumberUpdate.
  destruct (updateSequenceNumberTimer s); cbn; repeat split; reflexivity.
Qed.

Lemma throttled_step isSystemType JSON_parse e s :
  throttled s -> throttled (step isSystemType JSON_parse e s).
Proof.
  intro H. destruct (touchesAck e) eqn:He.
  - destruct e; try discriminate He; unfold step.
    + apply throttled_submit.
    + unfold enableReadonlyMode, throttled. cbn.
      destruct (throttled_stopSequenceNumberUpdate s) as (Ht & Hf & _).
      split; intros _; assumption.
    + unfold disableReadonlyMode, throttled. cbn.
      split; [intro X; discriminate X | apply H].
    + unfold close.
      set (s1 := stopSequenceNumberUpdate (set_closed true s)).
      destruct (throttled_stopSequenceNumberUpdate (set_closed true s)) as (Ht & Hf & _).
      fold s1 in Ht, Hf.
      assert (H1 : throttled s1) by (split; intros _; assumption).
      refine (throttled_ackState _ s1 _ H1).
      destruct (connection s1); reflexivity.
    + unfold prepared. destruct (inboundWork s) as [| | message startTime | |]; try exact H.
      set (message' := match sm_traces message with [] => message | _ => _ end).
      set (s1 := log (HandlerProcess message')
                   (set_baseSequenceNumber (sm_sequenceNumber message')
                      (set_minSequenceNumber (sm_minimumSequenceNumber message') s))).
      assert (H1 : throttled s1) by (refine (throttled_ackState _ s _ H); reflexivity).
      set (s2 := if isOperation (sm_type message') || isPropose (sm_type message')
                 then updateSequenceNumber isSystemType (sm_type message') s1 else s1).
      assert (H2 : throttled s2)
        by (subst s2; destruct (isOperation (sm_type message') || isPropose (sm_type message'));
            [apply throttled_updateSequenceNumber, H1 | exact H1]).
      refine (throttled_ackState _ s2 _ H2).
      clearbody s2. ack_frame.
    + apply throttled_updateSequenceNumberTimeout, H.
  - refine (throttled_ackState _ s _ H). apply ackState_step, He.
Qed.

(** X11.  The acknowledgement throttle stays consistent.  Whatever happens
    to a manager, a readonly manager has no acknowledgement timer armed,
    and [updateHasBeenRequested] is set only while a timer is armed: the
    property holds of a new manager and every event keeps it.  (So the
    timer, when it fires, never finds the manager readonly.) *)
Theorem acknowledgement_throttle_is_consistent :
  forall (isSystemType : MessageType -> bool) (JSON_parse : string -> option Contents)
         (clientType : option string) (now : Z) (events : list Event),
    throttled (run isSystemType JSON_parse events (create clientType now)).
Proof.
  intros isSystemType JSON_parse clientType now events.
  assert (H : throttled (create clientType now)) by (split; reflexivity).
  revert H. generalize (create clientType now).
  induction events as [|e events IH]; intros s H; [exact H|].
  rewrite run_cons. apply IH, throttled_step, H.
Qed.
(** ** Delivery to the handler is in order *)

Lemma processedOf_callsOf trace : processedOf (callsOf trace) = processedOf trace.
Proof.
  induction trace as [|e trace IH]; [reflexivity|].
  change (e :: trace) with ([e] ++ trace).
  rewrite callsOf_app, !processedOf_app, IH. destruct e; reflexivity.
Qed.

Lemma delivery_session x y : session x = session y -> delivery x = delivery y.
Proof.
  unfold session, delivery. intro H.
  rewrite <- (processedOf_callsOf (effects x)), <- (processedOf_callsOf (effects y)).
  injection H. intros. congruence.
Qed.

Arguments delivery : simpl never.
Arguments processedOf : simpl never.

Lemma delivery_submit isSystemType type contents s :
  delivery (snd (submit isSystemType type contents s)) = delivery s.
Proof.
  unfold submit, stopSequenceNumberUpdate, delivery. cbn.
  destruct (updateSequenceNumberTimer s); cbn;
    rewrite ?processedOf_app; cbn; rewrite ?app_nil_r; reflexivity.
Qed.

Lemma delivery_updateSequenceNumber isSystemType type s :
  delivery (updateSequenceNumber isSystemType type s) = delivery s.
Proof.
  unfold updateSequenceNumber.
  destruct (readonly s); [reflexivity|].
  destruct (isPropose type); [apply delivery_submit|].
  unfold delivery. destruct (updateSequenceNumberTimer s); cbn;
    rewrite ?processedOf_app; cbn; rewrite ?app_nil_r; reflexivity.
Qed.

Ltac delivery_frame :=
  repeat first
    [ reflexivity
    | rewrite delivery_submit
    | rewrite delivery_updateSequenceNumber
    | match goal with
      | |- context [processedOf (?a ++ ?b)] =>
          rewrite (processedOf_app a b);
          let r := eval cbv in (processedOf b) in change (processedOf b) with r;
          rewrite ?app_nil_r
      end
    | match goal with
      | |- delivery _ = _ => session_frame delivery_session
      | |- (baseSequenceNumber ?x, inboundWork ?x, processedOf (effects ?x)) = ?c =>
          change (delivery x = c);
          first [ rewrite delivery_submit
                | rewrite delivery_updateSequenceNumber
                | session_frame delivery_session ]
      end
    | progress unfold delivery
    | progress cbn
    | break_goal ].

Lemma delivery_step isSystemType JSON_parse e s :
  isAttachOpHandler e = false ->
  isInboundWork e = false ->
  delivery (step isSystemType JSON_parse e s) = delivery s.
Proof.
  intros Ha Hw.
  destruct e; try discriminate Ha; try discriminate Hw; unfold step;
    unfold inboundResume, signalResume, connect, connectCore, submitSignal,
      enableReadonlyMode, disableReadonlyMode, close, stopSequenceNumberUpdate,
      connectResolved, connectRejected, reconnectTimeout,
      deltaStorageConnected, onOp, onOpContent, onSignal, onDisconnect,
      outboundRun, outboundError, signalRun, signalError,
      getDeltasSettled, fetchMissingDeltasResolved, getDeltasRejected,
      submitAsyncResolved, submitAsyncRejected, updateSequenceNumberTimeout.
  all: unfold outboundError, signalError.
  all: delivery_frame.
Qed.

Lemma deliveredInOrder_delivery before start x y :
  delivery x = delivery y ->
  deliveredInOrder before start y -> deliveredInOrder before start x.
Proof.
  unfold delivery, deliveredInOrder, expectsNext. intros H Hy.
  injection H as -> -> ->. exact Hy.
Qed.

Lemma workerStarts_inboundError e s : workerStarts s (inboundError e s).
Proof.
  unfold workerStarts, inboundError, expectsNext.
  assert (H : delivery (emit (EvtError e)
                 (set__inbound (Queue.halt (_inbound s)) (set_inboundWork Idle s))) =
              delivery (set__inbound (Queue.halt (_inbound s)) (set_inboundWork Idle s)))
    by (session_frame delivery_session; reflexivity).
  unfold delivery in H. injection H as -> -> ->. cbn. repeat split; reflexivity.
Qed.

Lemma workerStarts_processInboundOp JSON_parse op sync s :
  workerStarts s (processInboundOp JSON_parse op sync s).
Proof.
  unfold processInboundOp, processMessage.
  destruct (negb (sm_sequenceNumber op =? baseSequenceNumber s + 1)) eqn:Hseq.
  - destruct sync; [apply workerStarts_inboundError|].
    unfold workerStarts, expectsNext. cbn. repeat split; reflexivity.
  - apply negb_false_iff, Z.eqb_eq in Hseq.
    set (decoded := match sm_contents op with CString _ => _ | _ => _ end).
    assert (Hd : forall m, decoded = Some m -> sm_sequenceNumber m = sm_sequenceNumber op).
    { subst decoded. intros m. destruct (sm_contents op) as [| |text|]; try congruence.
      destruct (truthy (CString text) && negb (isClientLeave (sm_type op))); [|congruence].
      destruct (JSON_parse text); cbn; [|discriminate]. intro E. injection E as <-.
      reflexivity. }
    destruct decoded as [m|].
    + destruct (handler s).
      * unfold workerStarts, expectsNext. cbn.
        rewrite processedOf_app, app_nil_r, (Hd m eq_refl), Hseq.
        repeat split; reflexivity.
      * destruct sync; [apply workerStarts_inboundError|].
        unfold workerStarts, expectsNext. cbn. repeat split; reflexivity.
    + destruct sync; [apply workerStarts_inboundError|].
      unfold workerStarts, expectsNext. cbn. repeat split; reflexivity.
Qed.

Lemma workerStarts_from s0 s s' :
  baseSequenceNumber s = baseSequenceNumber s0 ->
  processedOf (effects s) = processedOf (effects s0) ->
  workerStarts s s' -> workerStarts s0 s'.
Proof. unfold workerStarts. intros <- <- H. exact H. Qed.

Lemma workerStarts_handleOpContent JSON_parse op s :
  workerStarts s (handleOpContent JSON_parse op s).
Proof.
  unfold handleOpContent, mergeAndProcess, callGetDeltas.
  repeat first
    [ match goal with
      | |- workerStarts _ (processInboundOp _ _ _ ?x) =>
          apply (workerStarts_from s x); [reflexivity | reflexivity |];
          apply workerStarts_processInboundOp
      | |- workerStarts _ (inboundError _ ?x) =>
          apply (workerStarts_from s x); [reflexivity | reflexivity |];
          apply workerStarts_inboundError
      | |- workerStarts _ (set_inboundWork (AwaitContent _ _ _) _) =>
          unfold workerStarts, expectsNext; cbn;
          rewrite ?processedOf_app, ?app_nil_r; repeat split; reflexivity
      end
    | break_goal ].
Qed.

Lemma workerStarts_delivered before start s s' :
  workerStarts s s' ->
  deliveredInOrder before start s -> deliveredInOrder before start s'.
Proof.
  unfold workerStarts, deliveredInOrder. intros (Hb & Hp & He) (_ & k & Hk & Hpk).
  split; [exact He|]. exists k. rewrite Hb, Hp. split; assumption.
Qed.

Lemma workerStarts_refl s : expectsNext s -> workerStarts s s.
Proof. intro H. repeat split. exact H. Qed.

Lemma workerStarts_inboundRun JSON_parse s :
  expectsNext s -> workerStarts s (inboundRun JSON_parse s).
Proof.
  intro H. unfold inboundRun.
  destruct (inboundWork s) eqn:W; try (apply workerStarts_refl, H).
  destruct (Queue.ready (_inbound s)) as [op|]; [|apply workerStarts_refl, H].
  destruct (isUndefined (sm_contents op)).
  - apply (workerStarts_from s (set__inbound (Queue.shift (_inbound s)) s));
      [reflexivity | reflexivity | apply workerStarts_handleOpContent].
  - apply (workerStarts_from s (set__inbound (Queue.shift (_inbound s)) s));
      [reflexivity | reflexivity | apply workerStarts_processInboundOp].
Qed.

Lemma workerStarts_fetchContentSettled JSON_parse replies s :
  expectsNext s -> workerStarts s (fetchContentSettled JSON_parse replies s).
Proof.
  intro H. unfold fetchContentSettled, mergeAndProcess.
  destruct (inboundWork s) eqn:W; try (apply workerStarts_refl, H).
  destruct (settle call replies s) as [[trace messages]|] eqn:E;
    [|apply workerStarts_refl, H].
  assert (Ht : processedOf trace = [])
    by (rewrite <- processedOf_callsOf, (callsOf_settle _ _ _ _ _ E); reflexivity).
  assert (Hl : processedOf (effects (logAll trace s)) = processedOf (effects s))
    by (unfold logAll; cbn; rewrite processedOf_app, Ht, app_nil_r; reflexivity).
  repeat first
    [ match goal with
      | |- workerStarts _ (processInboundOp _ _ _ ?x) =>
          apply (workerStarts_from s x); [reflexivity | exact Hl |];
          apply workerStarts_processInboundOp
      | |- workerStarts _ (inboundError _ ?x) =>
          apply (workerStarts_from s x); [reflexivity | exact Hl |];
          apply workerStarts_inboundError
      end
    | break_goal ].
Qed.

Lemma deliveredInOrder_prepared isSystemType before start s :
  deliveredInOrder before start s -> deliveredInOrder before start (prepared isSystemType s).
Proof.
  intros H. unfold prepared.
  destruct (inboundWork s) as [| | message startTime | |] eqn:W; try exact H.
  destruct H as (He & k & Hk & Hp). unfold expectsNext in He. rewrite W in He.
  set (message' := match sm_traces message with [] => message | _ => _ end).
  assert (Hm : sm_sequenceNumber message' = sm_sequenceNumber message)
    by (subst message'; destruct (sm_traces message); reflexivity).
  set (s1 := log (HandlerProcess message')
               (set_baseSequenceNumber (sm_sequenceNumber message')
                  (set_minSequenceNumber (sm_minimumSequenceNumber message') s))).
  set (s2 := if isOperation (sm_type message') || isPropose (sm_type message')
             then updateSequenceNumber isSystemType (sm_type message') s1 else s1).
  assert (H2 : delivery s2 = delivery s1)
    by (subst s2; destruct (isOperation (sm_type message') || isPropose (sm_type message'));
        [apply delivery_updateSequenceNumber | reflexivity]).
  assert (H3 : delivery (emit (EvtProcessTime (clock s2 - startTime)) s2) = delivery s1)
    by (session_frame delivery_session; exact H2).
  clearbody s2.
  set (s3 := emit (EvtProcessTime (clock s2 - startTime)) s2) in *. clearbody s3.
  unfold delivery in H3. injection H3 as Hb3 _ Hp3.
  split; [exact I|]. exists (S k). rewrite zseq_snoc.
  replace (start + 1 + Z.of_nat k) with (sm_sequenceNumber message') by lia.
  replace (start + Z.of_nat (S k)) with (sm_sequenceNumber message') by lia.
  cbn. rewrite processedOf_app, app_nil_r, Hb3, Hp3. subst s1. cbn.
  rewrite processedOf_app, Hp, app_assoc. split; reflexivity.
Qed.

Lemma deliveredInOrder_step isSystemType JSON_parse before start e s :
  isAttachOpHandler e = false ->
  deliveredInOrder before start s ->
  deliveredInOrder before start (step isSystemType JSON_parse e s).
Proof.
  intros Ha H. destruct (isInboundWork e) eqn:Hw.
  - pose proof H as (He & _).
    destruct e; try discriminate Hw; unfold step.
    + apply (workerStarts_delivered before start s); [|exact H].
      apply workerStarts_inboundRun, He.
    + apply deliveredInOrder_prepared, H.
    + unfold postProcessed. destruct (inboundWork s) eqn:W; try exact H.
      destruct H as (_ & k & Hk & Hp). split; [exact I|]. exists k. split; assumption.
    + unfold handlerRejected.
      destruct (inboundWork s) eqn:W; try exact H;
        (apply (workerStarts_delivered before start s); [|exact H]);
        apply workerStarts_inboundError.
    + apply (workerStarts_delivered before start s); [|exact H].
      apply workerStarts_fetchContentSettled, He.
  - refine (deliveredInOrder_delivery before start _ s _ H).
    apply delivery_step; assumption.
Qed.

(** X12.  The handler processes the messages in order.  Take a manager in
    which the message handed to [handler.prepare], if any, is the one that
    follows [baseSequenceNumber] (as in a new manager, where nothing is
    handed over yet).  Whatever happens next, short of a call of
    [attachOpHandler] (messages delivered in any order, repeated or with numbers
    missing, content that arrives or not, answers of storage, failures of the
    handler, reconnections, [close]), the numbers of the messages that
    [handler.process] is called with are the ones that follow
    [baseSequenceNumber], one by one without a gap or a repetition, and
    [baseSequenceNumber] is the last of them. *)
Theorem handler_processes_in_order :
  forall (isSystemType : MessageType -> bool) (JSON_parse : string -> option Contents)
         (events : list Event) (s : DeltaManager),
    forallb (fun e => negb (isAttachOpHandler e)) events = true ->
    expectsNext s ->
    let s' := run isSystemType JSON_parse events s in
    exists k : nat,
      processedOf (effects s') =
        processedOf (effects s) ++ zseq (baseSequenceNumber s + 1) k /\
      baseSequenceNumber s' = baseSequenceNumber s + Z.of_nat k.
Proof.
  intros isSystemType JSON_parse events s Hev He. cbv zeta.
  assert (H : deliveredInOrder (processedOf (effects s)) (baseSequenceNumber s) s).
  { split; [exact He|]. exists 0%nat. cbn. rewrite app_nil_r. split; [lia | reflexivity]. }
  assert (H' : deliveredInOrder (processedOf (effects s)) (baseSequenceNumber s)
                 (run isSystemType JSON_parse events s)).
  { revert H Hev. generalize (processedOf (effects s)), (baseSequenceNumber s).
    generalize s at 1 2. clear He.
    induction events as [|e events IH]; intros s0 before start H Hev; [exact H|].
    cbn [forallb] in Hev. apply andb_prop in Hev. destruct Hev as [Ha Hev].
    rewrite run_cons. apply IH; [|exact Hev].
    apply deliveredInOrder_step; [apply negb_true_iff, Ha | exact H]. }
  destruct H' as (_ & k & Hk & Hp). exists k. split; assumption.
Qed.

Lemma handler_processes_in_order_witness :
  let events :=
    [InboundResume; OnOp [exampleMessage 2; exampleMessage 1]; InboundRun; Prepared;
     PostProcessed; Close; InboundRun; Prepared] in
  forallb (fun e => negb (isAttachOpHandler e)) events = true /\
  expectsNext attached /\
  exists k : nat,
    processedOf (effects (run isSystemType_spec parse_any events attached)) =
      processedOf (effects attached) ++ zseq (baseSequenceNumber attached + 1) k.
Proof.
  cbv zeta.
  assert (He : expectsNext attached) by (vm_compute; exact I).
  split; [reflexivity|]. split; [exact He|].
  destruct (handler_processes_in_order isSystemType_spec parse_any
              [InboundResume; OnOp [exampleMessage 2; exampleMessage 1]; InboundRun;
               Prepared; PostProcessed; Close; InboundRun; Prepared]
              attached eq_refl He) as (k & H & _).
  exists k. exact H.
Defined.
(** ** Connections and the outbound queue *)

Lemma session_fields x y :
  session x = session y ->
  clientSequenceNumber x = clientSequenceNumber y /\
  _outbound x = _outbound y /\
  connecting x = connecting y /\
  connection x = connection y /\
  deltaStorageP x = deltaStorageP y /\
  connects x = connects y /\
  outboundWork x = outboundWork y /\
  baseSequenceNumber x = baseSequenceNumber y /\
  callsOf (effects x) = callsOf (effects y).
Proof. unfold session. intro H. injection H. intros. repeat split; assumption. Qed.

Lemma session_connectResolved n details s delay :
  nth_error (connects s) n = Some delay ->
  session (connectResolved n details s) =
  session
    (let s := set_connects (removeNth n (connects s)) s in
     let s := set_connection (Some details) s in
     let s := set__outbound (Queue.systemResume (_outbound s)) s in
     let s := set_clientSequenceNumber 0 s in
     match connecting s with
     | ConnectingPending => set_connecting ConnectingDone s
     | _ => s
     end).
Proof.
  intro H. unfold connectResolved. rewrite H. cbv zeta.
  rewrite session_emit, session_processInitialMessages. reflexivity.
Qed.

Lemma connectResolved_fields n details s delay :
  nth_error (connects s) n = Some delay ->
  let s' := connectResolved n details s in
  clientSequenceNumber s' = 0 /\
  _outbound s' = Queue.systemResume (_outbound s) /\
  connection s' = Some details /\
  connecting s' = match connecting s with
                  | ConnectingPending => ConnectingDone
                  | c => c
                  end /\
  deltaStorageP s' = deltaStorageP s /\
  connects s' = removeNth n (connects s) /\
  callsOf (effects s') = callsOf (effects s).
Proof.
  intro H. cbv zeta.
  destruct (session_fields _ _ (session_connectResolved n details s delay H))
    as (Hc & Ho & Hg & Hn & Hd & Hs & _ & _ & He).
  rewrite Hc, Ho, Hg, Hn, Hd, Hs, He. clear.
  destruct s as [? ? ? ? ? ? ? ? ? ? ? ? ? pending_connect ? ? ? ? ? ? ? ? ? ? ? ? ? ? ? ? ?].
  destruct pending_connect; vm_compute; repeat split; reflexivity.
Qed.

(** X13.  The client sequence numbers start again at 1 with every
    connection, and what is queued keeps its numbers.  When a call of
    [Connect] resolves, [clientSequenceNumber] is set to 0 while the outbound
    queue keeps the messages it holds (it is only resumed): the next
    [submit] returns 1 and its envelope is queued behind them, whatever
    numbers they carry. *)
Theorem numbering_restarts_on_connection :
  forall (isSystemType : MessageType -> bool) (n : nat) (details : IConnectionDetails)
         (type : MessageType) (contents : option string) (s : DeltaManager) (delay : Z),
    nth_error (connects s) n = Some delay ->
    let s' := connectResolved n details s in
    clientSequenceNumber s' = 0 /\
    q_items (_outbound s') = q_items (_outbound s) /\
    fst (submit isSystemType type contents s') = 1 /\
    map dm_clientSequenceNumber
      (q_items (_outbound (snd (submit isSystemType type contents s')))) =
    map dm_clientSequenceNumber (q_items (_outbound s)) ++ [1].
Proof.
  intros isSystemType n details type contents s delay H. cbv zeta.
  destruct (connectResolved_fields n details s delay H) as (Hc' & Ho & _).
  assert (Ho' : q_items (_outbound (connectResolved n details s)) = q_items (_outbound s))
    by (rewrite Ho; reflexivity).
  destruct (submit_pushes isSystemType type contents (connectResolved n details s))
    as (Hn & Hq & _).
  split; [exact Hc'|]. split; [exact Ho'|]. split; [rewrite Hn, Hc'; reflexivity|].
  rewrite Hq, map_app, Ho'. cbn [map].
  destruct (createOutboundMessage_header isSystemType type
              (mkDocument (clientSequenceNumber (connectResolved n details s) + 1)
                 (ofNullable contents) (baseSequenceNumber (connectResolved n details s))
                 [mkTrace "start" (clientType (connectResolved n details s))
                    (clock (connectResolved n details s))] type None)) as (H1 & _).
  rewrite H1. cbn [dm_clientSequenceNumber]. rewrite Hc'. reflexivity.
Qed.

Lemma numbering_restarts_on_connection_witness :
  let s := snd (submit isSystemType_spec Operation (Some "early")
                  (connect "open" (create None 0))) in
  nth_error (connects s) 0 = Some InitialReconnectDelay /\
  map dm_clientSequenceNumber
    (q_items (_outbound (snd (submit isSystemType_spec Operation (Some "late")
                                (connectResolved 0 exampleDetails s))))) =
  map dm_clientSequenceNumber (q_items (_outbound s)) ++ [1].
Proof.
  cbv zeta. split; [reflexivity|].
  exact (proj2 (proj2 (proj2
    (numbering_restarts_on_connection isSystemType_spec 0 exampleDetails Operation
       (Some "late")
       (snd (submit isSystemType_spec Operation (Some "early")
               (connect "open" (create None 0))))
       InitialReconnectDelay eq_refl)))).
Defined.

(** X14.  [connect] is shared only while it is pending.  A second call of
    [connect] before the first connection is there changes nothing: no second
    [Connect], and the promise of delta storage is kept.  Once the first
    connection is there ([connecting] was set to [null]), a further call
    starts over: it asks for delta storage again, which leaves [getDeltas]
    waiting for the new promise, and starts another [Connect] beside the
    connection in place. *)
Theorem connect_is_shared_while_pending :
  forall (reason reason' : string) (n : nat) (details : IConnectionDetails)
         (s : DeltaManager) (delay : Z),
    connect reason' (connect reason s) = connect reason s /\
    (nth_error (connects (connect reason s)) n = Some delay ->
     let s1 := connectResolved n details (deltaStorageConnected true (connect reason s)) in
     let s2 := connect reason' s1 in
     connecting s1 = ConnectingDone /\
     connection s2 = Some details /\
     storageReady s2 = false /\
     connects s2 = connects s1 ++ [InitialReconnectDelay] /\
     callsOf (effects s2) =
       callsOf (effects s1) ++ [ConnectToDeltaStorage; Connect reason']).
Proof.
  intros reason reason' n details s delay.
  assert (Hp : connecting (connect reason s) = ConnectingPending)
    by (unfold connect; destruct (connecting s) eqn:E; cbn; solve [reflexivity | exact E]).
  split.
  - unfold connect at 1. rewrite Hp. reflexivity.
  - intro Hn. cbv zeta.
    set (s0 := deltaStorageConnected true (connect reason s)).
    assert (Hp0 : connecting s0 = ConnectingPending)
      by (subst s0; unfold deltaStorageConnected;
          destruct (deltaStorageP (connect reason s)); exact Hp).
    assert (Hn0 : nth_error (connects s0) n = Some delay)
      by (subst s0; unfold deltaStorageConnected;
          destruct (deltaStorageP (connect reason s)); exact Hn).
    destruct (connectResolved_fields n details s0 delay Hn0)
      as (_ & _ & Hd & Hc & _).
    rewrite Hp0 in Hc.
    clearbody s0. set (s1 := connectResolved n details s0) in *. clearbody s1.
    split; [exact Hc|].
    unfold connect. rewrite Hc. unfold connectCore, storageReady, log.
    destruct s1. cbn in *. rewrite !callsOf_app, <- app_assoc.
    repeat split; try reflexivity. exact Hd.
Qed.

Lemma connect_is_shared_while_pending_witness :
  nth_error (connects (connect "open" (create None 0))) 0 = Some InitialReconnectDelay /\
  storageReady
    (connect "again"
       (connectResolved 0 exampleDetails
          (deltaStorageConnected true (connect "open" (create None 0))))) = false.
Proof.
  split; [reflexivity|].
  exact (proj1 (proj2 (proj2
    (proj2 (connect_is_shared_while_pending "open" "again" 0 exampleDetails
              (create None 0) InitialReconnectDelay) eq_refl)))).
Defined.

Lemma callsOf_log e s :
  isCall e = true -> callsOf (effects (log e s)) = callsOf (effects s) ++ [e].
Proof. intro H. unfold log. cbn. rewrite callsOf_app. cbn. rewrite H. reflexivity. Qed.



(** ** Fetching the content of an operation *)

Lemma within_empty_window n replies :
  forallb (within n n) replies = true ->
  forallb (fun reply => negb (endsAt (n - 1) reply)) replies = true.
Proof.
  intro H. rewrite forallb_forall in *. intros reply Hin. specialize (H reply Hin).
  destruct reply as [[|d deltas]|]; try reflexivity.
  cbn in H. apply andb_prop in H. destruct H as [H _].
  apply andb_prop in H. destruct H as [H1 H2].
  apply Z.ltb_lt in H1, H2. lia.
Qed.

Lemma fetchContent_waits JSON_parse replies s op call viaWaitForContent :
  inboundWork s = AwaitContent op call viaWaitForContent ->
  gd_closed call = false ->
  gd_to call = Some (gd_from call) ->
  forallb (within (gd_from call) (gd_from call)) replies = true ->
  fetchContentSettled JSON_parse replies s = s.
Proof.
  intros HW Hc Ht Hr. unfold fetchContentSettled. rewrite HW.
  unfold settle, getDeltas. rewrite Hc, Ht. cbn [orb].
  destruct (storageReady s); [|reflexivity].
  assert (Hn : gd_from call + 1 <> gd_from call) by lia.
  rewrite (proj1 (getDeltas_loop_bounded (gd_from call) replies 0 (gd_from call) [] Hn)
             (within_empty_window _ _ Hr)).
  reflexivity.
Qed.

(** X16.  The fetch of a content cannot complete inside its own window.
    When the inbound worker takes an operation without contents and the
    cache has nothing for its client, or only later content, the worker
    waits for [fetchContent], which calls [getDeltas(seqNumber, seqNumber)].
    As long as storage answers with messages inside the window asked for
    (both ends excluded, as [getDeltas] itself assumes when it takes up from
    the last number fetched), with empty answers or with failures, that call
    does not resolve, and the worker keeps waiting. *)
Theorem fetchContent_waits_within_its_window :
  forall (JSON_parse : string -> option Contents) (op : ISequencedDocumentMessage)
         (s : DeltaManager) (replies : list StorageReply),
    closed s = false ->
    match Cache.peek (sm_clientId op) (contentCache s) with
    | None => True
    | Some opContent => cm_clientSequenceNumber opContent > sm_clientSequenceNumber op
    end ->
    let s' := handleOpContent JSON_parse op s in
    (exists call viaWaitForContent,
       inboundWork s' = AwaitContent op call viaWaitForContent /\
       gd_from call = sm_sequenceNumber op /\
       gd_to call = Some (sm_sequenceNumber op)) /\
    (forallb (within (sm_sequenceNumber op) (sm_sequenceNumber op)) replies = true ->
     fetchContentSettled JSON_parse replies s' = s').
Proof.
  intros JSON_parse op s replies Hc Hp. cbv zeta.
  assert (H : exists call viaWaitForContent,
            inboundWork (handleOpContent JSON_parse op s) =
              AwaitContent op call viaWaitForContent /\
            gd_from call = sm_sequenceNumber op /\
            gd_to call = Some (sm_sequenceNumber op) /\
            gd_closed call = false).
  { unfold handleOpContent, callGetDeltas.
    destruct (Cache.peek (sm_clientId op) (contentCache s)) as [opContent|].
    - replace (cm_clientSequenceNumber opContent >? sm_clientSequenceNumber op) with true
        by (symmetry; apply Z.gtb_lt; lia).
      cbn. rewrite Hc. eexists _, _. repeat split; reflexivity.
    - cbn. rewrite Hc. eexists _, _. repeat split; reflexivity. }
  destruct H as (call & via & HW & Hf & Ht & Hcl).
  split; [exists call, via; repeat split; assumption|].
  intro Hr. apply (fetchContent_waits JSON_parse replies _ op call via HW Hcl).
  - rewrite Ht, Hf. reflexivity.
  - rewrite Hf. exact Hr.
Qed.

Lemma fetchContent_waits_within_its_window_witness :
  let op := sm_with_contents CUndefined (exampleMessage 1) in
  closed attached = false /\
  fetchContentSettled parse_any [Deltas []; Failure; Deltas []]
    (handleOpContent parse_any op attached) =
  handleOpContent parse_any op attached.
Proof.
  cbv zeta. split; [reflexivity|].
  exact (proj2
    (fetchContent_waits_within_its_window parse_any
       (sm_with_contents CUndefined (exampleMessage 1)) attached
       [Deltas []; Failure; Deltas []] eq_refl I) eq_refl).
Defined.
(** ** The worker of the signal queue *)

(** X17.  Signals reach the handler in order, parsed.  With the handler
    attached and the signal queue running, a "signal" event of the
    connection queues the signal behind those waiting, and the worker hands
    the signals of the queue to [handler.processSignal] in that order, each
    with its string content replaced by what [JSON.parse] made of it, as long
    as every content parses; the queue is empty in the end. *)
Theorem signals_are_processed_in_order :
  forall (isSystemType : MessageType -> bool) (JSON_parse : string -> option Contents)
         (s : DeltaManager) (signal : ISignalMessage) (parsed : list ISignalMessage),
    handler s = true ->
    Queue.paused (_inboundSignal s) = false ->
    q_halted (_inboundSignal s) = false ->
    map (parsedSignal JSON_parse) (q_items (_inboundSignal s) ++ [signal]) =
      map Some parsed ->
    let s1 := onSignal signal s in
    let s' := run isSystemType JSON_parse
                (map (fun _ => SignalRun) (q_items (_inboundSignal s1))) s1 in
    q_items (_inboundSignal s1) = q_items (_inboundSignal s) ++ [signal] /\
    effects s' = effects s ++ map HandlerProcessSignal parsed /\
    q_items (_inboundSignal s') = [].
Proof.
  intros isSystemType JSON_parse s signal parsed Hh Hp Hhalt Hparse. cbv zeta.
  assert (Hq1 : q_items (_inboundSignal (onSignal signal s)) =
                q_items (_inboundSignal s) ++ [signal])
    by (unfold onSignal; rewrite Hh; reflexivity).
  split; [exact Hq1|].
  assert (Hgen : forall items parsed s0,
            handler s0 = true ->
            Queue.paused (_inboundSignal s0) = false ->
            q_halted (_inboundSignal s0) = false ->
            q_items (_inboundSignal s0) = items ->
            map (parsedSignal JSON_parse) items = map Some parsed ->
            effects (run isSystemType JSON_parse (map (fun _ => SignalRun) items) s0) =
              effects s0 ++ map HandlerProcessSignal parsed /\
            q_items (_inboundSignal
                       (run isSystemType JSON_parse (map (fun _ => SignalRun) items) s0)) = []).
  { clear. induction items as [|m items IH]; intros parsed s0 Hh Hp Hhalt Hq Hparse.
    - destruct parsed; [|discriminate Hparse]. cbn. rewrite app_nil_r.
      split; [reflexivity | exact Hq].
    - destruct parsed as [|p parsed]; [discriminate Hparse|].
      cbn [map] in Hparse. injection Hparse as Hm Hparse.
      cbn [map]. rewrite run_cons. cbn [step]. unfold signalRun.
      assert (Hr : Queue.ready (_inboundSignal s0) = Some m)
        by (unfold Queue.ready; rewrite Hp, Hhalt, Hq; reflexivity).
      rewrite Hr. unfold parsedSignal in Hm.
      destruct (sig_content m) as [| |text|] eqn:Hc; try discriminate Hm.
      cbn [parseSignal]. destruct (JSON_parse text) as [content|]; [|discriminate Hm].
      cbn in Hm. injection Hm as <-. cbn. rewrite Hh.
      set (s1 := log _ _).
      assert (Hh1 : handler s1 = true) by exact Hh.
      assert (Hp1 : Queue.paused (_inboundSignal s1) = false) by exact Hp.
      assert (Hhalt1 : q_halted (_inboundSignal s1) = false) by exact Hhalt.
      assert (Hq1 : q_items (_inboundSignal s1) = items)
        by (subst s1; cbn; rewrite Hq; reflexivity).
      destruct (IH parsed s1 Hh1 Hp1 Hhalt1 Hq1 Hparse) as (IHe & IHq).
      rewrite IHe, IHq. subst s1. cbn. rewrite <- app_assoc. split; reflexivity. }
  assert (Hs1 : onSignal signal s =
                set__inboundSignal (Queue.push signal (_inboundSignal s)) s)
    by (unfold onSignal; rewrite Hh; reflexivity).
  destruct (Hgen (q_items (_inboundSignal (onSignal signal s))) parsed (onSignal signal s))
    as (He & Hq); try (rewrite Hs1; assumption); try reflexivity.
  split; [rewrite He, Hs1; reflexivity | exact Hq].
Qed.

Lemma signals_are_processed_in_order_witness :
  let s := onSignal (mkSignal "A" (CString "1"))
             (run isSystemType_spec parse_any [SignalResume] attached) in
  handler s = true /\
  Queue.paused (_inboundSignal s) = false /\
  q_items (_inboundSignal s) = [mkSignal "A" (CString "1")] /\
  effects (run isSystemType_spec parse_any [SignalRun; SignalRun]
             (onSignal (mkSignal "B" (CString "2")) s)) =
  effects s ++ map HandlerProcessSignal
                 [mkSignal "A" (CValue "1"); mkSignal "B" (CValue "2")].
Proof.
  cbv zeta. split; [reflexivity|]. split; [reflexivity|]. split; [reflexivity|].
  exact (proj1 (proj2
    (signals_are_processed_in_order isSystemType_spec parse_any
       (onSignal (mkSignal "A" (CString "1"))
          (run isSystemType_spec parse_any [SignalResume] attached))
       (mkSignal "B" (CString "2"))
       [mkSignal "A" (CValue "1"); mkSignal "B" (CValue "2")]
       eq_refl eq_refl eq_refl eq_refl))).
Defined.
(** ** Contents are merged by client and client sequence number *)

Lemma peek_found clientId cache c :
  Cache.peek clientId cache = Some c ->
  In c (cc_entries cache) /\ cm_clientId c = clientId.
Proof.
  unfold Cache.peek. intro H. apply find_some in H. destruct H as [Hin Heq].
  split; [exact Hin | apply String.eqb_eq, Heq].
Qed.

Lemma remove_first_subset clientId l c :
  In c (Cache.remove_first clientId l) -> In c l.
Proof.
  induction l as [|x l IH]; cbn; [intros []|].
  destruct (String.eqb (cm_clientId x) clientId); cbn.
  - intro H. right. exact H.
  - intros [H | H]; [left; exact H | right; apply IH, H].
Qed.

Lemma drain_found fuel clientId n entries : forall next cache result cache',
  (forall c, next = Some c -> In c entries /\ cm_clientId c = clientId) ->
  (forall c, In c (cc_entries cache) -> In c entries) ->
  drain fuel clientId n next cache = (Some result, cache') ->
  In result entries /\ cm_clientId result = clientId.
Proof.
  induction fuel as [|fuel IH]; intros next cache result cache' Hnext Hcache H.
  - cbn in H. injection H as Hn _. apply Hnext, Hn.
  - cbn in H. destruct next as [c|]; [|discriminate H].
    destruct (cm_clientSequenceNumber c <? n).
    + refine (IH _ _ _ _ _ _ H).
      * intros c' Hc'. apply peek_found in Hc'. destruct Hc' as [Hin Hid].
        split; [apply Hcache, Hin | exact Hid].
      * cbn. intros c' Hc'. apply Hcache, (remove_first_subset clientId), Hc'.
    + injection H as Hn _. apply Hnext. rewrite <- Hn. reflexivity.
Qed.

Lemma inboundWork_inboundError e s : inboundWork (inboundError e s) = Idle.
Proof.
  unfold inboundError, emit.
  destruct (listeners (set__inbound (Queue.halt (_inbound s)) (set_inboundWork Idle s)));
    reflexivity.
Qed.

Lemma processInboundOp_prepares JSON_parse op sync s m t :
  inboundWork (processInboundOp JSON_parse op sync s) = AwaitPrepare m t ->
  m = decoded JSON_parse op.
Proof.
  unfold processInboundOp, processMessage, decoded.
  assert (Hfail : forall e,
            inboundWork (if sync then inboundError e s else set_inboundWork Stuck s) =
              AwaitPrepare m t -> m = decoded JSON_parse op)
    by (intros e H; destruct sync; [rewrite inboundWork_inboundError in H|];
        discriminate H).
  unfold decoded in Hfail.
  destruct (negb (sm_sequenceNumber op =? baseSequenceNumber s + 1)); [apply Hfail|].
  destruct (sm_contents op) as [| |text|].
  - destruct (handler s); [|apply Hfail]. cbn. intro H. injection H as <- _. reflexivity.
  - destruct (handler s); [|apply Hfail]. cbn. intro H. injection H as <- _. reflexivity.
  - destruct (truthy (CString text) && negb (isClientLeave (sm_type op))).
    + destruct (JSON_parse text); cbn; [|apply Hfail].
      destruct (handler s); [|apply Hfail]. cbn. intro H. injection H as <- _. reflexivity.
    + destruct (handler s); [|apply Hfail]. cbn. intro H. injection H as <- _. reflexivity.
  - destruct (handler s); [|apply Hfail]. cbn. intro H. injection H as <- _. reflexivity.
Qed.

(** X18.  An operation is completed only with the content of its own
    client and client sequence number.  When [handleOpContent] hands an
    operation to [handler.prepare] straight away, the contents it carries
    are those of a content message that was in the cache under the client id
    and client sequence number of the operation; and when the operation is
    handed over after a fetch, its contents are those of the first message
    fetched, which carries that client id and client sequence number.  In
    both cases the message handed over is the operation itself with these
    contents, decoded.  (ContentCache modelled from the spec.) *)
Theorem content_is_merged_by_key :
  forall (JSON_parse : string -> option Contents) (op m : ISequencedDocumentMessage)
         (t : Z) (s : DeltaManager),
    (inboundWork (handleOpContent JSON_parse op s) = AwaitPrepare m t ->
     exists c,
       In c (cc_entries (contentCache s)) /\
       cm_clientId c = sm_clientId op /\
       cm_clientSequenceNumber c = sm_clientSequenceNumber op /\
       m = decoded JSON_parse (sm_with_contents (cm_contents c) op)) /\
    (forall call viaWaitForContent replies,
       inboundWork s = AwaitContent op call viaWaitForContent ->
       inboundWork (fetchContentSettled JSON_parse replies s) = AwaitPrepare m t ->
       exists trace message rest,
         settle call replies s = Some (trace, message :: rest) /\
         sm_clientId message = sm_clientId op /\
         sm_clientSequenceNumber message = sm_clientSequenceNumber op /\
         m = decoded JSON_parse (sm_with_contents (sm_contents message) op)).
Proof.
  intros JSON_parse op m t s. split.
  - unfold handleOpContent, mergeAndProcess, callGetDeltas.
    destruct (Cache.peek (sm_clientId op) (contentCache s)) as [opContent|] eqn:Hpeek;
      [|cbn; discriminate].
    destruct (peek_found _ _ _ Hpeek) as [Hin Hid].
    destruct (cm_clientSequenceNumber opContent >? sm_clientSequenceNumber op) eqn:Hgt;
      [cbn; discriminate|].
    destruct (cm_clientSequenceNumber opContent <? sm_clientSequenceNumber op) eqn:Hlt.
    + unfold Cache.get. rewrite Hpeek.
      destruct (drain _ _ _ _ _) as [[next|] cache'] eqn:Hdrain.
      * destruct (sm_clientSequenceNumber op =? cm_clientSequenceNumber next) eqn:Heq.
        -- intro H. apply processInboundOp_prepares in H.
           assert (Hnext : forall c, Some opContent = Some c ->
                     In c (cc_entries (contentCache s)) /\ cm_clientId c = sm_clientId op)
             by (intros c Hc; injection Hc as <-; split; assumption).
           assert (Hsub : forall c,
                     In c (cc_entries
                             (mkCache (cc_capacity (contentCache s))
                                (Cache.remove_first (sm_clientId op)
                                   (cc_entries (contentCache s))))) ->
                     In c (cc_entries (contentCache s)))
             by (intros c Hc; exact (remove_first_subset _ _ c Hc)).
           destruct (drain_found _ _ _ (cc_entries (contentCache s)) _ _ _ _
                       Hnext Hsub Hdrain) as [Hin' Hid'].
           exists next. apply Z.eqb_eq in Heq. repeat split; try assumption.
           symmetry. exact Heq.
        -- rewrite inboundWork_inboundError. discriminate.
      * rewrite inboundWork_inboundError. discriminate.
    + unfold Cache.get. rewrite Hpeek.
      intro H. apply processInboundOp_prepares in H.
      exists opContent. rewrite Z.gtb_ltb in Hgt. rewrite Z.ltb_ge in Hgt, Hlt.
      repeat split; try assumption. lia.
  - intros call via replies HW. unfold fetchContentSettled, mergeAndProcess. rewrite HW.
    destruct (settle call replies s) as [[trace messages]|] eqn:Hsettle;
      [|rewrite HW; discriminate].
    destruct messages as [|message rest]; [rewrite inboundWork_inboundError; discriminate|].
    destruct (negb (String.eqb (sm_clientId message) (sm_clientId op))) eqn:Hid;
      [rewrite inboundWork_inboundError; discriminate|].
    destruct (negb (sm_clientSequenceNumber message =? sm_clientSequenceNumber op)) eqn:Hseq;
      [rewrite inboundWork_inboundError; discriminate|].
    intro H. apply processInboundOp_prepares in H. cbn in H.
    apply negb_false_iff in Hid, Hseq. apply String.eqb_eq in Hid. apply Z.eqb_eq in Hseq.
    exists trace, message, rest. repeat split; assumption.
Qed.

Lemma content_is_merged_by_key_witness :
  let s := onOpContent (mkContent "A" 1 (CString "x")) attached in
  let op := sm_with_contents CUndefined (exampleMessage 1) in
  inboundWork (handleOpContent parse_any op s) =
    AwaitPrepare (decoded parse_any (sm_with_contents (CString "x") op)) (clock s) /\
  exists c,
    In c (cc_entries (contentCache s)) /\
    cm_clientSequenceNumber c = sm_clientSequenceNumber op.
Proof.
  cbv zeta.
  assert (H : inboundWork
                (handleOpContent parse_any (sm_with_contents CUndefined (exampleMessage 1))
                   (onOpContent (mkContent "A" 1 (CString "x")) attached)) =
              AwaitPrepare
                (decoded parse_any
                   (sm_with_contents (CString "x")
                      (sm_with_contents CUndefined (exampleMessage 1))))
                (clock (onOpContent (mkContent "A" 1 (CString "x")) attached)))
    by (vm_compute; reflexivity).
  split; [exact H|].
  destruct (proj1 (content_is_merged_by_key parse_any _ _ _ _) H)
    as (c & Hin & _ & Hseq & _).
  exists c. split; [exact Hin | exact Hseq].
Defined.

(** ** Clients that do not reconnect *)

Lemma emit_cases e s : emit e s = s \/ emit e s = log (Emit e) s.
Proof. unfold emit. destruct (listeners s); [right | left]; reflexivity. Qed.

(** X19.  Only browser clients reconnect.  When the connection of a
    client of another type is lost or nacked, no new connection is asked
    for and no timer is set; the three queues are paused by the system and
    emptied, so their workers are handed nothing more. *)
Theorem other_clients_do_not_reconnect :
  forall (JSON_parse : string -> option Contents) (wasNack : bool) (s : DeltaManager),
    reconnect s = false ->
    let s' := onDisconnect wasNack s in
    callsOf (effects s') = callsOf (effects s) /\
    delaysOf (effects s') = delaysOf (effects s) /\
    connects s' = connects s /\
    reconnectTimers s' = reconnectTimers s /\
    (q_systemPaused (_inbound s') = true /\ q_items (_inbound s') = []) /\
    (q_systemPaused (_outbound s') = true /\ q_items (_outbound s') = []) /\
    (q_systemPaused (_inboundSignal s') = true /\ q_items (_inboundSignal s') = []) /\
    inboundRun JSON_parse s' = s' /\ outboundRun s' = s' /\ signalRun JSON_parse s' = s'.
Proof.
  intros JSON_parse wasNack s Hr. cbv zeta. unfold onDisconnect.
  set (s1 := set__outbound _ (set__outbound _ s)).
  assert (Hr1 : reconnect (emit (EvtDisconnect wasNack) s1) = false)
    by (destruct (emit_cases (EvtDisconnect wasNack) s1) as [-> | ->]; exact Hr).
  rewrite Hr1. cbn [negb].
  unfold inboundRun, outboundRun, signalRun, Queue.ready, Queue.paused.
  destruct (emit_cases (EvtDisconnect wasNack) s1) as [-> | ->]; subst s1; cbn;
    rewrite ?callsOf_app, ?app_nil_r; unfold delaysOf; rewrite ?flat_map_app; cbn;
    rewrite ?app_nil_r, ?orb_true_r; cbn;
    destruct (inboundWork s), (outboundWork s); repeat split; reflexivity.
Qed.

Lemma other_clients_do_not_reconnect_witness :
  reconnect (create (Some "node") 0) = false /\
  connects (onDisconnect false (create (Some "node") 0)) = connects (create (Some "node") 0).
Proof.
  split; [reflexivity|].
  exact (proj1 (proj2 (proj2
    (other_clients_do_not_reconnect parse_any false (create (Some "node") 0) eq_refl)))).
Defined.
(** * The document service factory *)

Section FactoryProperties.
Import RouterliciousDocumentServiceFactory.

Lemma missing_false url : missing url = false -> exists text, url = Some text.
Proof. destruct url as [text|]; [exists text; reflexivity | discriminate]. Qed.

(** X20.  What [createDocumentService] asks of a resolved url.  The
  promise resolves exactly when the url is of type "prague" and its
  orderer url, its delta storage url and its token are there and not empty,
  with [DocumentService2] if the factory was built with
  [useDocumentService2] and with [DocumentService] otherwise.  The storage
  url is not looked at: whether it is there or not the outcome is the
  same, and a service is built with whatever was given. *)
Theorem createDocumentService_needs :
forall (ErrorTracking GitCache Credentials : Type)
       (factory : Factory ErrorTracking GitCache Credentials)
       (resolvedUrl : ResolvedUrl),
  ((exists service, createDocumentService factory resolvedUrl = Resolved service) <->
   type resolvedUrl = "prague" /\
   missing (ordererUrl (endpoints resolvedUrl)) = false /\
   missing (deltaStorageUrl (endpoints resolvedUrl)) = false /\
   missing (jwt resolvedUrl) = false) /\
  (forall service,
     createDocumentService factory resolvedUrl = Resolved service ->
     isDocumentService2 service = useDocumentService2 factory) /\
  (forall url,
     createDocumentService factory (withStorageUrl url resolvedUrl) =
     servingStorage url (createDocumentService factory resolvedUrl)).
Proof.
intros ErrorTracking GitCache Credentials factory [type [storage orderer deltaStorage] jwt].
unfold createDocumentService, withStorageUrl, servingStorage, missing. cbn.
destruct (String.eqb_spec type "prague") as [Ht | Ht]; cbn;
  [|split; [split; [intros [service H]; discriminate H | intros (H & _); contradiction]
           | split; [intros service H; discriminate H | reflexivity]]].
destruct orderer as [orderer|]; cbn;
  [|split; [split; [intros [service H]; discriminate H | intros (_ & H & _); discriminate H]
           | split; [intros service H; discriminate H | reflexivity]]].
destruct deltaStorage as [deltaStorage|]; cbn;
  [|split; [split; [intros [service H]; discriminate H
                   | intros (_ & _ & H & _); discriminate H]
           | split; [intros service H; discriminate H | reflexivity]]].
destruct (String.eqb orderer EmptyString); cbn;
  [split; [split; [intros [service H]; discriminate H | intros (_ & H & _); discriminate H]
          | split; [intros service H; discriminate H | reflexivity]]|].
destruct (String.eqb deltaStorage EmptyString); cbn;
  [split; [split; [intros [service H]; discriminate H
                  | intros (_ & _ & H & _); discriminate H]
          | split; [intros service H; discriminate H | reflexivity]]|].
destruct jwt as [jwt|]; cbn;
  [|split; [split; [intros [service H]; discriminate H
                   | intros (_ & _ & _ & H); discriminate H]
           | split; [intros service H; discriminate H | reflexivity]]].
destruct (String.eqb jwt EmptyString); cbn;
  [split; [split; [intros [service H]; discriminate H
                  | intros (_ & _ & _ & H); discriminate H]
          | split; [intros service H; discriminate H | reflexivity]]|].
destruct (useDocumentService2 factory) eqn:Hu; cbn;
  (split; [split; [intros _; repeat split; assumption | intros _; eexists; reflexivity]
          | split; [intros service H; injection H as <-; reflexivity | reflexivity]]).
Qed.

End FactoryProperties.

(** * The resolver plugin *)

Section PluginProperties.
Import SharedTreeResolverPlugin.

Lemma unwrapField_flags (node : TypeNode) : forall nonNull list : option bool,
unwrapField node nonNull list =
mkFieldInfo (namedType node)
  (if hasNonNull node then Some true else nonNull)
  (if hasList node then Some true else list).
Proof.
induction node as [name | type IH | type IH]; intros nonNull list; cbn.
- reflexivity.
- rewrite IH. destruct (hasNonNull type); reflexivity.
- rewrite IH. destruct (hasList type); reflexivity.
Qed.

(** X21.  [unwrapField] flattens the markers of a type.  The field info of
  a type carries the name at the bottom of the type; [isList] is [true]
  when a list occurs anywhere in the type and [isNonNull] is [true] when a
  non-null marker occurs anywhere, and otherwise they are what the caller
  passed.  So the info does not tell a list of non-null items from a
  non-null list. *)
Theorem unwrapField_flattens :
forall (node : TypeNode) (nonNull list : option bool),
  unwrapField node nonNull list =
  mkFieldInfo (namedType node)
    (if hasNonNull node then Some true else nonNull)
    (if hasList node then Some true else list).
Proof. exact unwrapField_flags. Qed.

Lemma switchScalar_some {A B : Type} typeName (a1 a2 a3 a4 a5 : A) (b1 b2 b3 b4 b5 : B) x :
switchScalar typeName a1 a2 a3 a4 a5 = Some x ->
exists y, switchScalar typeName b1 b2 b3 b4 b5 = Some y.
Proof.
unfold switchScalar.
repeat match goal with
       | |- context [String.eqb typeName ?t] => destruct (String.eqb typeName t)
       end; try discriminate; intros _; eexists; reflexivity.
Qed.

Lemma printScalarResolver_scalar fieldName scalar :
isScalarTypeName (typeName scalar) = true ->
exists resolver, printScalarResolver fieldName scalar =
                 Returns (printResolver fieldName resolver).
Proof.
intro H. unfold isScalarTypeName in H.
destruct (switchScalar (typeName scalar) true true true true true) as [b|] eqn:E;
  [|cbn in H; discriminate H].
unfold printScalarResolver.
destruct (switchScalar_some _ _ _ _ _ _
            getStringList getFloatList getIntList getBooleanList getIDList _ E)
  as [r1 H1].
destruct (switchScalar_some _ _ _ _ _ _ getString getFloat getInt getBoolean getID _ E)
  as [r2 H2].
rewrite H1, H2. destruct (truthy (isList scalar)); eexists; reflexivity.
Qed.

(** X22.  [printFieldResolver] never fails on a scalar.  For every schema
  and every field, [printFieldResolver] returns the field name followed by
  the name of one of the resolvers of the module; the exception
  "Unrecognized scalar" of [printScalarResolver] is never raised through
  it.  The only way it fails is on a field whose named type is neither one
  of the five scalars nor known to the schema, where reading [astNode] of
  an undefined type throws. *)
Theorem printFieldResolver_never_unrecognized :
forall (toLowerCase : string -> string) (schema : GraphQLSchema)
       (fieldDef : FieldDefinitionNode),
  match printFieldResolver toLowerCase schema fieldDef with
  | Returns text =>
      exists resolver, text = printResolver (fieldName fieldDef) resolver
  | Throws e =>
      e = NotAnObject /\
      schema (namedType (fieldType fieldDef)) = None /\
      isScalarTypeName (namedType (fieldType fieldDef)) = false
  end.
Proof.
intros toLowerCase schema [fname ftype]. unfold printFieldResolver.
cbn [fieldName fieldType]. rewrite unwrapField_flags.
cbn [typeName isNonNull isList].
destruct (String.eqb (namedType ftype) "ID" &&
          (String.eqb (toLowerCase fname) "id" ||
           String.eqb (toLowerCase fname) "identifier")).
- exists getNodeID. reflexivity.
- destruct (isScalarTypeName (namedType ftype)) eqn:Hs.
  + destruct (printScalarResolver_scalar fname
                (mkFieldInfo (namedType ftype)
                   (if hasNonNull ftype then Some true else None)
                   (if hasList ftype then Some true else None)) Hs) as [r ->].
    exists r. reflexivity.
  + destruct (schema (namedType ftype)) as [astNodeKind|] eqn:Hg.
    * destruct (match astNodeKind with
                | Some kind => String.eqb kind "EnumTypeDefinition"
                | None => false
                end).
      -- destruct (printScalarResolver_scalar fname
                     (mkFieldInfo "String"
                        (if hasNonNull ftype then Some true else None)
                        (if hasList ftype then Some true else None)) eq_refl) as [r ->].
         exists r. reflexivity.
      -- destruct ftype;
           [exists getTrait | exists getNonNullTrait | exists getListTrait];
           reflexivity.
    * repeat split; reflexivity.
Qed.

End PluginProperties.
